(** * stonemjs/http: the Response entity of [src/Response.mjs]

    A shallow embedding of the [Response] class: its status, header,
    content, [prepare] and cache methods, written as state-passing
    functions over the fields of the object, with JavaScript exceptions as
    an explicit outcome.  The theorems at the end of the file relate the
    embedding to the statements of the specification. *)

From Stdlib Require Import ZArith String Ascii List Bool Lia DecimalString.
From Stdlib Require DecimalPos.
From stdpp Require Import base strings gmap.

Set Warnings "-register-all".

Local Open Scope string_scope.
Local Open Scope Z_scope.

(** ** JavaScript values

    The fragment of run-time values the class manipulates: [undefined],
    [null], booleans, integer numbers and [NaN], strings, binary buffers,
    arrays, plain objects (as their own enumerable entries, in order) and
    opaque host functions.  [Date] objects are outside the fragment.

    A number [JNum z] stands for the Number [z] when [z] is a safe integer
    (less than 2^53 in absolute value), where arithmetic and the decimal
    text are exact.  A [string] stands for the JavaScript string whose code
    units are the characters listed, all of them below 256. *)
Module Js.

Inductive JsValue : Type :=
| JUndefined
| JNull
| JBool (b : bool)
| JNum (z : Z)
| JNaN
| JStr (s : string)
| JBuffer (bytes : string)
| JArr (items : list JsValue)
| JObj (props : list (string * JsValue))
| JFun (name : string).

(** [typeof v] *)
Definition typeof (v : JsValue) : string :=
  match v with
  | JUndefined => "undefined"
  | JNull => "object"
  | JBool _ => "boolean"
  | JNum _ | JNaN => "number"
  | JStr _ => "string"
  | JBuffer _ | JArr _ | JObj _ => "object"
  | JFun _ => "function"
  end.

(** [Buffer.isBuffer(v)] and [Array.isArray(v)] *)
Definition isBuffer (v : JsValue) : bool :=
  match v with JBuffer _ => true | _ => false end.

Definition isArray (v : JsValue) : bool :=
  match v with JArr _ => true | _ => false end.

(** ToBoolean: the values that count as true in a condition. *)
Definition truthy (v : JsValue) : bool :=
  match v with
  | JUndefined | JNull | JNaN => false
  | JBool b => b
  | JNum z => negb (z =? 0)
  | JStr s => negb (String.eqb s "")
  | JBuffer _ | JArr _ | JObj _ | JFun _ => true
  end.

(** [a ?? b] *)
Definition nullish (v : JsValue) : bool :=
  match v with JUndefined | JNull => true | _ => false end.

Definition coalesce (a b : JsValue) : JsValue :=
  if nullish a then b else a.

(** [Number.isSafeInteger(z)] *)
Definition isSafeInteger (z : Z) : bool :=
  (- 2 ^ 53 <? z) && (z <? 2 ^ 53).

(** The text of a safe integer: its decimal writing.  (Beyond the safe
    integers JavaScript prints the shortest digits that identify the
    number, in exponent form from 1e21 on; that is outside the fragment,
    see [exactText].) *)
Definition Z_to_string (z : Z) : string :=
  NilZero.string_of_int (Z.to_int z).

(** The one-character string holding a double quote *)
Definition dquote : string := String (ascii_of_nat 34) EmptyString.

(** The one-character string holding the no-break space U+00A0 *)
Definition nbsp : string := String (ascii_of_nat 160) EmptyString.

Fixpoint join (sep : string) (l : list string) : string :=
  match l with
  | [] => ""
  | [x] => x
  | x :: rest => x +:+ sep +:+ join sep rest
  end.

(** [String(v)].  Safe integers print in decimal; inside an array, [null]
    and [undefined] print as the empty string. *)
Fixpoint String_ (v : JsValue) : string :=
  match v with
  | JUndefined => "undefined"
  | JNull => "null"
  | JBool true => "true"
  | JBool false => "false"
  | JNum z => Z_to_string z
  | JNaN => "NaN"
  | JStr s => s
  | JBuffer b => b
  | JArr items =>
      join "," (map (fun x => if nullish x then "" else String_ x) items)
  | JObj _ => "[object Object]"
  | JFun name => "function " +:+ name +:+ "() { [native code] }"
  end.

(** The values whose text [String_] gives as JavaScript does, whatever
    the host: the primitive values, a number being a safe integer. *)
Definition exactText (v : JsValue) : bool :=
  match v with
  | JUndefined | JNull | JBool _ | JNaN | JStr _ => true
  | JNum z => isSafeInteger z
  | JBuffer _ | JArr _ | JObj _ | JFun _ => false
  end.

(** *** Strings *)

(** White space as [\s] and [trim()] have it, among the code units below
    256: tab, line feed, vertical tab, form feed, carriage return, space
    and the no-break space U+00A0. *)
Definition isSpace (c : ascii) : bool :=
  let n := nat_of_ascii c in
  ((9 <=? n)%nat && (n <=? 13)%nat) || (n =? 32)%nat || (n =? 160)%nat.

(** The lower-case letter of a capital: [A]-[Z], and the capitals
    U+00C0-U+00DE of Latin-1 (the multiplication sign U+00D7 is none). *)
Definition lowerChar (c : ascii) : ascii :=
  let n := nat_of_ascii c in
  if ((65 <=? n)%nat && (n <=? 90)%nat)
     || ((192 <=? n)%nat && (n <=? 214)%nat)
     || ((216 <=? n)%nat && (n <=? 222)%nat)
  then ascii_of_nat (n + 32) else c.

Fixpoint allChars (p : ascii -> bool) (s : string) : bool :=
  match s with
  | EmptyString => true
  | String c rest => p c && allChars p rest
  end.

Definition allSpace (s : string) : bool := allChars isSpace s.

(** [s.toLowerCase()] *)
Fixpoint toLowerCase (s : string) : string :=
  match s with
  | EmptyString => EmptyString
  | String c rest => String (lowerChar c) (toLowerCase rest)
  end.

Fixpoint trimStart (s : string) : string :=
  match s with
  | EmptyString => EmptyString
  | String c rest => if isSpace c then trimStart rest else s
  end.

Fixpoint trimEnd (s : string) : string :=
  match s with
  | EmptyString => EmptyString
  | String c rest =>
      match trimEnd rest with
      | EmptyString => if isSpace c then EmptyString else String c EmptyString
      | kept => String c kept
      end
  end.

(** [s.trim()] *)
Definition trim (s : string) : string := trimEnd (trimStart s).

(** [s.split(sep).shift()]: the text before the first [sep] *)
Fixpoint split_shift (sep : ascii) (s : string) : string :=
  match s with
  | EmptyString => EmptyString
  | String c rest =>
      if Ascii.eqb c sep then EmptyString else String c (split_shift sep rest)
  end.

(** [s.startsWith(p)], returning what follows the prefix *)
Fixpoint stripPrefix (p s : string) : option string :=
  match p, s with
  | EmptyString, _ => Some s
  | String a p', String b s' =>
      if Ascii.eqb a b then stripPrefix p' s' else None
  | String _ _, EmptyString => None
  end.

Definition startsWith (p s : string) : bool :=
  match stripPrefix p s with Some _ => true | None => false end.

(** [s.includes(p)] *)
Fixpoint includes (p s : string) : bool :=
  startsWith p s ||
  match s with
  | EmptyString => false
  | String _ rest => includes p rest
  end.

(** [s.replace(a, b)] with one-character strings: the first occurrence only *)
Fixpoint replaceFirst (a b : ascii) (s : string) : string :=
  match s with
  | EmptyString => EmptyString
  | String c rest =>
      if Ascii.eqb c a then String b rest else String c (replaceFirst a b rest)
  end.

(** [/;\s*charset\s*=/.test(s)]: a match starts at a semicolon. *)
Definition charsetAfterSemicolon (s : string) : bool :=
  match stripPrefix "charset" (trimStart s) with
  | Some rest => startsWith "=" (trimStart rest)
  | None => false
  end.

Fixpoint charsetRegExp_test (s : string) : bool :=
  match s with
  | EmptyString => false
  | String c rest =>
      (Ascii.eqb c ";" && charsetAfterSemicolon rest) || charsetRegExp_test rest
  end.

(** What the pattern [/;\s*charset\s*=/] describes, the charset fragment:
    somewhere in the text a semicolon, white space, [charset], white space
    and an equals sign. *)
Definition hasCharsetFragment (s : string) : Prop :=
  exists before ws ws' after : string,
    allSpace ws = true /\ allSpace ws' = true /\
    s = before +:+ ";" +:+ ws +:+ "charset" +:+ ws' +:+ "=" +:+ after.

(** A media type written bare: no white space and no semicolon in it. *)
Definition isBareMediaType (s : string) : bool :=
  allChars (fun c => negb (isSpace c) && negb (Ascii.eqb c ";")) s.

(** *** Numbers *)

Definition digitValue (radix : Z) (c : ascii) : option Z :=
  let n := Z.of_nat (nat_of_ascii c) in
  let d :=
    if (48 <=? n) && (n <=? 57) then Some (n - 48)
    else if (97 <=? n) && (n <=? 122) then Some (n - 87)
    else if (65 <=? n) && (n <=? 90) then Some (n - 55)
    else None in
  match d with
  | Some k => if k <? radix then Some k else None
  | None => None
  end.

Fixpoint parseDigits (radix : Z) (acc : option Z) (s : string) : option Z :=
  match s with
  | EmptyString => acc
  | String c rest =>
      match digitValue radix c with
      | Some d =>
          parseDigits radix
            (Some (match acc with Some a => a * radix + d | None => d end)) rest
      | None => acc
      end
  end.

Definition parseUnsigned (s : string) : option Z :=
  match stripPrefix "0x" s, stripPrefix "0X" s with
  | Some hex, _ | None, Some hex => parseDigits 16 None hex
  | None, None => parseDigits 10 None s
  end.

(** [parseInt(v)]: the argument is first converted to a string. *)
Definition parseInt (v : JsValue) : JsValue :=
  let s := trimStart (String_ v) in
  let '(sign, body) :=
    match s with
    | String "-" rest => (-1, rest)
    | String "+" rest => (1, rest)
    | _ => (1, s)
    end in
  match parseUnsigned body with
  | Some n => JNum (sign * n)
  | None => JNaN
  end.

Fixpoint allDigits (radix : Z) (s : string) : bool :=
  match s with
  | EmptyString => true
  | String c rest =>
      match digitValue radix c with
      | Some _ => allDigits radix rest
      | None => false
      end
  end.

(** StringToNumber on integer literals: white space around the literal is
    ignored, the empty string is [0], anything else is [NaN]. *)
Definition stringToNumber (s : string) : option Z :=
  let t := trim s in
  match t with
  | EmptyString => Some 0
  | String "-" body =>
      if allDigits 10 body then option_map Z.opp (parseDigits 10 None body) else None
  | String "+" body =>
      if allDigits 10 body then parseDigits 10 None body else None
  | _ =>
      match stripPrefix "0x" t, stripPrefix "0X" t with
      | Some hex, _ | None, Some hex =>
          if allDigits 16 hex then parseDigits 16 None hex else None
      | None, None =>
          if allDigits 10 t then parseDigits 10 None t else None
      end
  end.

(** ToNumber on the primitives of the fragment ([None] is [NaN]); the
    arithmetic below is never reached with an object operand. *)
Definition toNumber (v : JsValue) : option Z :=
  match v with
  | JNum z => Some z
  | JNull => Some 0
  | JBool b => Some (if b then 1 else 0)
  | JStr s => stringToNumber s
  | _ => None
  end.

(** [a - b], [Math.max(a, b)] and [a > b]; [NaN] absorbs and compares false. *)
Definition sub (a b : JsValue) : JsValue :=
  match toNumber a, toNumber b with
  | Some x, Some y => JNum (x - y)
  | _, _ => JNaN
  end.

Definition Math_max (a b : JsValue) : JsValue :=
  match toNumber a, toNumber b with
  | Some x, Some y => JNum (Z.max x y)
  | _, _ => JNaN
  end.

Definition gt (a b : JsValue) : bool :=
  match toNumber a, toNumber b with
  | Some x, Some y => y <? x
  | _, _ => false
  end.

End Js.
Import Js.

(** ** Exceptions and outcomes *)

Inductive Exception : Type :=
| TypeError
| LogicException
| InvalidArgumentException.

Inductive Outcome (A : Type) : Type :=
| Normal (a : A)
| Throw (e : Exception).
Arguments Normal {A} a.
Arguments Throw {A} e.

(** ** The host: packages and built-ins the class calls

    Each interface stands for code that lives outside the repository; the
    methods below are parametric in them. *)

(** [statuses.message], read as [Response.STATUS_TEXTS] *)
Class StatusTexts := { STATUS_TEXTS : Z -> option string }.

(** [mime] as exported by [send]: [mime.charsets.lookup(type)] (absent when
    the table has no charset) and [mime.lookup(extension)] *)
Class Mime := {
  mime_charsets_lookup : string -> option string;
  mime_lookup : string -> string
}.

(** [JSON.stringify(value, replacer, spaces)]; the one-argument call passes
    [undefined] twice. *)
Class Json := { JSON_stringify : JsValue -> JsValue -> JsValue -> Outcome JsValue }.

(** [Buffer.byteLength(content, charset)] and [Buffer.from(content, charset)] *)
Class BufferApi := {
  Buffer_byteLength : JsValue -> option string -> Outcome Z;
  Buffer_from : JsValue -> option string -> Outcome string
}.

(** [new Date().getTime()] *)
Class Clock := { Date_now : Z }.

(** Host function values: calling one, and its [length] *)
Class Functions := {
  call_function : string -> list JsValue -> Outcome JsValue;
  function_length : string -> Z
}.

(** ** Containers *)

(** Modelled from the spec: HeaderBag, the header container behind
    [_headers] (the platform's [Headers]; its code is not in the
    repository).  Names are normalised to lower case, [set] replaces the
    value, a value is one string or an array of strings and is read back
    as it was set, [get] answers [null] for an absent name. *)
Inductive HeaderValue : Type :=
| HStr (s : string)
| HArr (l : list string).

Abbreviation HeaderBag := (gmap string HeaderValue).

Definition headerToJs (v : HeaderValue) : JsValue :=
  match v with
  | HStr s => JStr s
  | HArr l => JArr (map JStr l)
  end.

Definition Headers_set (key : string) (v : HeaderValue) (h : HeaderBag) : HeaderBag :=
  <[toLowerCase key := v]> h.

Definition Headers_get (key : string) (h : HeaderBag) : JsValue :=
  match h !! toLowerCase key with
  | Some v => headerToJs v
  | None => JNull
  end.

Definition Headers_has (key : string) (h : HeaderBag) : bool :=
  match h !! toLowerCase key with Some _ => true | None => false end.

Definition Headers_delete (key : string) (h : HeaderBag) : HeaderBag :=
  delete (toLowerCase key) h.

(** The names and the texts on which the container above is also the
    platform's [Headers]: that one refuses a name that is no token, refuses
    a value that holds NUL, line feed or carriage return, strips tabs and
    spaces around a value, and turns an array into one text.  A name that
    is a token and a text that [storedAsIs] are stored and read back as
    given. *)
Definition isTokenChar (c : ascii) : bool :=
  let n := nat_of_ascii c in
  ((n =? 33) || ((35 <=? n) && (n <=? 39)) || (n =? 42) || (n =? 43)
   || (n =? 45) || (n =? 46) || ((48 <=? n) && (n <=? 57))
   || ((65 <=? n) && (n <=? 90)) || ((94 <=? n) && (n <=? 122))
   || (n =? 124) || (n =? 126))%nat.

Definition isHeaderName (s : string) : bool :=
  negb (String.eqb s "") && allChars isTokenChar s.

Fixpoint lastChar (s : string) : option ascii :=
  match s with
  | EmptyString => None
  | String c EmptyString => Some c
  | String _ rest => lastChar rest
  end.

Definition isTabOrSpace (c : ascii) : bool :=
  let n := nat_of_ascii c in ((n =? 9) || (n =? 32))%nat.

Definition storedAsIs (s : string) : bool :=
  allChars (fun c => let n := nat_of_ascii c in
                     negb ((n =? 0) || (n =? 10) || (n =? 13))%nat) s
  && match s with String c _ => negb (isTabOrSpace c) | EmptyString => true end
  && match lastChar s with Some c => negb (isTabOrSpace c) | None => true end.

(** A JavaScript [Map] with string keys, in insertion order: [set] on a
    present key keeps its position. *)
Abbreviation JsMap := (list (string * JsValue)).

Fixpoint Map_has (key : string) (m : JsMap) : bool :=
  match m with
  | [] => false
  | (k, _) :: rest => String.eqb k key || Map_has key rest
  end.

Fixpoint Map_get (key : string) (m : JsMap) : JsValue :=
  match m with
  | [] => JUndefined
  | (k, v) :: rest => if String.eqb k key then v else Map_get key rest
  end.

Fixpoint Map_set (key : string) (v : JsValue) (m : JsMap) : JsMap :=
  match m with
  | [] => [(key, v)]
  | (k, w) :: rest =>
      if String.eqb k key then (k, v) :: rest else (k, w) :: Map_set key v rest
  end.


(** Modelled from the spec: Cookie and CookieJar ([CookieCollection], whose
    code is not in the repository).  The jar is created empty, its
    [secure] toggle applies to every cookie, and [all(true)] serialises one
    Set-Cookie line per cookie. *)
Record Cookie := {
  cookie_name : string;
  cookie_value : string;
  cookie_secure : bool
}.

Abbreviation CookieCollection := (list Cookie).

Definition CookieCollection_instance : CookieCollection := [].

Definition CookieCollection_secure (value : bool) (jar : CookieCollection) : CookieCollection :=
  map (fun c => {| cookie_name := cookie_name c;
                   cookie_value := cookie_value c;
                   cookie_secure := value |}) jar.

Definition CookieCollection_all (jar : CookieCollection) : JsValue :=
  JArr (map (fun c => JStr (cookie_name c +:+ "=" +:+ cookie_value c +:+
                            (if cookie_secure c then "; Secure" else ""))) jar).

(** Modelled from the spec: Request ([Request.mjs] is not in the
    repository), reduced to the capability queries [prepare] makes:
    [isFresh(response)] answered from the response's header set and
    status, [isMethod(name)] compared without case, the [server]
    environment and [isSecure()]. *)
Record Request := {
  request_method : string;
  request_server : gmap string JsValue;
  request_secure : bool;
  request_fresh : option HeaderBag -> option Z -> bool
}.

Definition Request_isMethod (name : string) (q : Request) : bool :=
  String.eqb (toLowerCase (request_method q)) (toLowerCase name).

Definition Request_server_get (key : string) (q : Request) : JsValue :=
  match request_server q !! key with Some v => v | None => JUndefined end.

(** Modelled from the spec: the application container behind [this.app],
    a read-only configuration surface; [get(key)] is [undefined] for an
    unset key. *)
Abbreviation App := (gmap string JsValue).

Definition App_get (key : string) (app : App) : JsValue :=
  match app !! key with Some v => v | None => JUndefined end.

(** ** The object state: the fields of [Response]

    An unassigned field is [None] (or [JUndefined]); [_exception], which no
    method below reads, is left out. *)

Record Response := {
  _headers : option HeaderBag;
  _content : JsValue;
  _version : option string;
  _charset : option string;
  _statusCode : option Z;
  _statusMessage : option string;
  appResolver : option App;
  requestResolver : option Request;
  originalContent : JsValue;
  cookieCollection : option CookieCollection;
  headerCacheControl : option JsMap
}.

(** The instance as the field initialisers leave it, before the body of
    the constructor runs. *)
Definition blank : Response := {|
  _headers := None;
  _content := JUndefined;
  _version := None;
  _charset := None;
  _statusCode := None;
  _statusMessage := None;
  appResolver := None;
  requestResolver := None;
  originalContent := JUndefined;
  cookieCollection := None;
  headerCacheControl := None
|}.

(** ** Methods: state passing with exceptions

    A method maps the object to an outcome and the object as the call
    leaves it; a throw keeps the writes made before it. *)
Definition Method (A : Type) : Type := Response -> Outcome A * Response.

Definition ret {A} (a : A) : Method A := fun r => (Normal a, r).

Definition throw {A} (e : Exception) : Method A := fun r => (Throw e, r).

Definition bind {A B} (m : Method A) (k : A -> Method B) : Method B :=
  fun r =>
    match m r with
    | (Normal a, r') => k a r'
    | (Throw e, r') => (Throw e, r')
    end.

Definition get : Method Response := fun r => (Normal r, r).

Definition modify (f : Response -> Response) : Method unit :=
  fun r => (Normal tt, f r).

Definition lift {A} (o : Outcome A) : Method A := fun r => (o, r).

(** [try { m } catch (error) { throw e }] *)
Definition rethrow {A} (e : Exception) (m : Method A) : Method A :=
  fun r =>
    match m r with
    | (Normal a, r') => (Normal a, r')
    | (Throw _, r') => (Throw e, r')
    end.

Declare Scope method_scope.
Delimit Scope method_scope with method.
Notation "x <- m ;; k" := (bind m (fun x => k))
  (at level 100, m at next level, right associativity) : method_scope.
Notation "m ;; k" := (bind m (fun _ => k))
  (at level 100, right associativity) : method_scope.
Local Open Scope method_scope.

(** Field writes *)
Definition set_headers (h : option HeaderBag) (r : Response) : Response :=
  {| _headers := h; _content := _content r; _version := _version r;
     _charset := _charset r; _statusCode := _statusCode r;
     _statusMessage := _statusMessage r; appResolver := appResolver r;
     requestResolver := requestResolver r; originalContent := originalContent r;
     cookieCollection := cookieCollection r;
     headerCacheControl := headerCacheControl r |}.

Definition set_content (v : JsValue) (r : Response) : Response :=
  {| _headers := _headers r; _content := v; _version := _version r;
     _charset := _charset r; _statusCode := _statusCode r;
     _statusMessage := _statusMessage r; appResolver := appResolver r;
     requestResolver := requestResolver r; originalContent := originalContent r;
     cookieCollection := cookieCollection r;
     headerCacheControl := headerCacheControl r |}.

Definition set_version (v : option string) (r : Response) : Response :=
  {| _headers := _headers r; _content := _content r; _version := v;
     _charset := _charset r; _statusCode := _statusCode r;
     _statusMessage := _statusMessage r; appResolver := appResolver r;
     requestResolver := requestResolver r; originalContent := originalContent r;
     cookieCollection := cookieCollection r;
     headerCacheControl := headerCacheControl r |}.

Definition set_charset (c : option string) (r : Response) : Response :=
  {| _headers := _headers r; _content := _content r; _version := _version r;
     _charset := c; _statusCode := _statusCode r;
     _statusMessage := _statusMessage r; appResolver := appResolver r;
     requestResolver := requestResolver r; originalContent := originalContent r;
     cookieCollection := cookieCollection r;
     headerCacheControl := headerCacheControl r |}.

Definition set_statusCode (c : option Z) (r : Response) : Response :=
  {| _headers := _headers r; _content := _content r; _version := _version r;
     _charset := _charset r; _statusCode := c;
     _statusMessage := _statusMessage r; appResolver := appResolver r;
     requestResolver := requestResolver r; originalContent := originalContent r;
     cookieCollection := cookieCollection r;
     headerCacheControl := headerCacheControl r |}.

Definition set_statusMessage (m : option string) (r : Response) : Response :=
  {| _headers := _headers r; _content := _content r; _version := _version r;
     _charset := _charset r; _statusCode := _statusCode r;
     _statusMessage := m; appResolver := appResolver r;
     requestResolver := requestResolver r; originalContent := originalContent r;
     cookieCollection := cookieCollection r;
     headerCacheControl := headerCacheControl r |}.

Definition set_appResolver (a : option App) (r : Response) : Response :=
  {| _headers := _headers r; _content := _content r; _version := _version r;
     _charset := _charset r; _statusCode := _statusCode r;
     _statusMessage := _statusMessage r; appResolver := a;
     requestResolver := requestResolver r; originalContent := originalContent r;
     cookieCollection := cookieCollection r;
     headerCacheControl := headerCacheControl r |}.

Definition set_requestResolver (q : option Request) (r : Response) : Response :=
  {| _headers := _headers r; _content := _content r; _version := _version r;
     _charset := _charset r; _statusCode := _statusCode r;
     _statusMessage := _statusMessage r; appResolver := appResolver r;
     requestResolver := q; originalContent := originalContent r;
     cookieCollection := cookieCollection r;
     headerCacheControl := headerCacheControl r |}.

Definition set_originalContent (v : JsValue) (r : Response) : Response :=
  {| _headers := _headers r; _content := _content r; _version := _version r;
     _charset := _charset r; _statusCode := _statusCode r;
     _statusMessage := _statusMessage r; appResolver := appResolver r;
     requestResolver := requestResolver r; originalContent := v;
     cookieCollection := cookieCollection r;
     headerCacheControl := headerCacheControl r |}.

Definition set_cookieCollection (j : option CookieCollection) (r : Response) : Response :=
  {| _headers := _headers r; _content := _content r; _version := _version r;
     _charset := _charset r; _statusCode := _statusCode r;
     _statusMessage := _statusMessage r; appResolver := appResolver r;
     requestResolver := requestResolver r; originalContent := originalContent r;
     cookieCollection := j;
     headerCacheControl := headerCacheControl r |}.

Definition set_headerCacheControl (m : option JsMap) (r : Response) : Response :=
  {| _headers := _headers r; _content := _content r; _version := _version r;
     _charset := _charset r; _statusCode := _statusCode r;
     _statusMessage := _statusMessage r; appResolver := appResolver r;
     requestResolver := requestResolver r; originalContent := originalContent r;
     cookieCollection := cookieCollection r;
     headerCacheControl := m |}.

(** ** The methods of [Response] *)

Section Methods.
Context {statuses : StatusTexts} {mime : Mime} {json : Json}
        {buffer : BufferApi} {clock : Clock} {functions : Functions}.

(** What a chained call is made on: the instance, or some other value. *)
Inductive Chain : Type :=
| This
| Other (v : JsValue).

(** *** Accessors *)

(** [get app ()] *)
Definition app : Method App :=
  r <- get ;;
  match appResolver r with
  | Some a => ret a
  | None => throw LogicException
  end.

(** [get request ()] *)
Definition request : Method Request :=
  r <- get ;;
  match requestResolver r with
  | Some q => ret q
  | None => throw LogicException
  end.

(** [this._headers], about to be dereferenced: a property access on
    [undefined] is a TypeError. *)
Definition headers : Method HeaderBag :=
  r <- get ;;
  match _headers r with
  | Some h => ret h
  | None => throw TypeError
  end.

(** *** Headers *)

(** [Array.isArray(value) ? value.map(String) : String(value)] *)
Definition coerceHeaderValue (value : JsValue) : HeaderValue :=
  match value with
  | JArr items => HArr (map String_ items)
  | _ => HStr (String_ value)
  end.

Definition storeHeader (key : string) (v : HeaderValue) : Method unit :=
  h <- headers ;;
  modify (set_headers (Some (Headers_set key v h))).

(** [value += this._charset ? `; charset=${this._charset.toLowerCase()}` : ''] *)
Definition charsetSuffix (cs : option string) : string :=
  match cs with
  | Some c => if String.eqb c "" then "" else "; charset=" +:+ toLowerCase c
  | None => ""
  end.

(** [setHeader (key, value)] *)
Definition setHeader (key : string) (value : JsValue) : Method unit :=
  let value := coerceHeaderValue value in
  if String.eqb (toLowerCase key) "content-type" then
    match value with
    | HArr _ => throw InvalidArgumentException
    | HStr s =>
        if negb (charsetRegExp_test s) then
          let cs := mime_charsets_lookup (trim (split_shift ";" s)) in
          modify (set_charset cs) ;;
          storeHeader key (HStr (s +:+ charsetSuffix cs))
        else storeHeader key (HStr s)
    end
  else storeHeader key value.

(** [headers.reduce((_, [key, value]) => this.setHeader(key, value))] once
    the accumulator is seeded *)
Fixpoint reduce_setHeader (acc : Chain) (entries : list (string * JsValue)) : Method Chain :=
  match entries with
  | [] => ret acc
  | (key, value) :: rest => setHeader key value ;; reduce_setHeader This rest
  end.

(** [setHeaders (values)], the second definition in the class body, which
    is the one in force; [values] is a plain object, given by its entries.
    [reduce] has no initial value: it throws on no entry and otherwise
    seeds the accumulator with the first entry, itself an array. *)
Definition setHeaders (values : list (string * JsValue)) : Method Chain :=
  match values with
  | [] => throw TypeError
  | (key, value) :: rest => reduce_setHeader (Other (JArr [JStr key; value])) rest
  end.

(** [getHeader (key, fallback = null)] *)
Definition getHeader (key : string) (fallback : JsValue) : Method JsValue :=
  h <- headers ;;
  ret (coalesce (Headers_get key h) fallback).

(** [hasHeader (key)] *)
Definition hasHeader (key : string) : Method bool :=
  h <- headers ;;
  ret (Headers_has key h).

(** [removeHeader (key)], [key] one name or an array of names *)
Fixpoint removeHeader (keys : list string) : Method unit :=
  match keys with
  | [] => ret tt
  | item :: rest =>
      h <- headers ;;
      modify (set_headers (Some (Headers_delete item h))) ;;
      removeHeader rest
  end.

(** *** Status *)

Definition statusIn (lo hi : Z) (r : Response) : bool :=
  match _statusCode r with
  | Some c => (lo <=? c) && (c <? hi)
  | None => false
  end.

Definition statusIncluded (codes : list Z) (r : Response) : bool :=
  match _statusCode r with
  | Some c => existsb (Z.eqb c) codes
  | None => false
  end.

(** [isInvalid ()]: [_statusCode < 100 || _statusCode >= 600] *)
Definition isInvalid (r : Response) : bool :=
  match _statusCode r with
  | Some c => (c <? 100) || (600 <=? c)
  | None => false
  end.

Definition isInformational (r : Response) : bool := statusIn 100 200 r.
Definition isSuccessful (r : Response) : bool := statusIn 200 300 r.
Definition isRedirection (r : Response) : bool := statusIn 300 400 r.
Definition isClientError (r : Response) : bool := statusIn 400 500 r.
Definition isServerError (r : Response) : bool := statusIn 500 600 r.
Definition isEmpty (r : Response) : bool := statusIncluded [204; 304] r.
Definition isResetContent (r : Response) : bool := statusIncluded [205] r.

(** [Response.STATUS_TEXTS[code] ?? 'unknown status'] *)
Definition statusText (code : Z) : string :=
  match STATUS_TEXTS code with
  | Some t => t
  | None => "unknown status"
  end.

(** [setStatus (code, text = null)] *)
Definition setStatus (code : Z) (text : option string) : Method unit :=
  modify (set_statusCode (Some code)) ;;
  r <- get ;;
  if isInvalid r then throw InvalidArgumentException
  else
    match text with
    | None => modify (set_statusMessage (Some (statusText code)))
    | Some t => modify (set_statusMessage (Some t))
    end.

(** *** Content *)

Definition escapeChar (c : ascii) : string :=
  if Ascii.eqb c "<" then "\u003c"
  else if Ascii.eqb c ">" then "\u003e"
  else if Ascii.eqb c "&" then "\u0026"
  else String c EmptyString.

(** [json.replace(/[<>&]/g, ...)] *)
Fixpoint escapeHtml (s : string) : string :=
  match s with
  | EmptyString => EmptyString
  | String c rest => escapeChar c +:+ escapeHtml rest
  end.

(** [stringify (value, replacer, spaces, escape)] *)
Definition stringify (value replacer spaces escape : JsValue) : Outcome JsValue :=
  let json :=
    if truthy replacer || truthy spaces
    then JSON_stringify value replacer spaces
    else JSON_stringify value JUndefined JUndefined in
  match json with
  | Normal (JStr text) => Normal (JStr (if truthy escape then escapeHtml text else text))
  | other => other
  end.

(** [_shouldBeJson (content)] *)
Definition _shouldBeJson (content : JsValue) : bool :=
  negb (isBuffer content) &&
  existsb (String.eqb (typeof content)) ["object"; "number"; "boolean"].

(** [_morphToJson (content)] *)
Definition _morphToJson (content : JsValue) : Method JsValue :=
  rethrow InvalidArgumentException
    (a1 <- app ;;
     a2 <- app ;;
     a3 <- app ;;
     lift (stringify content (App_get "http.json.replacer" a1)
             (App_get "http.json.spaces" a2) (App_get "http.json.escape" a3))).

(** [setContent (value)] *)
Definition setContent (value : JsValue) : Method unit :=
  (if _shouldBeJson value
   then (text <- _morphToJson value ;; modify (set_content text))
   else modify (set_content (coalesce value (JStr "")))) ;;
  modify (set_originalContent value).

(** [setProtocolVersion (value)] *)
Definition setProtocolVersion (value : string) : Method unit :=
  modify (set_version (Some value)).

(** [setContentType (value)] *)
Definition setContentType (value : string) : Method unit :=
  setHeader "Content-Type" (JStr (if includes "/" value then value else mime_lookup value)).

(** [setAppResolver (resolver)] and [setRequestResolver (resolver)] *)
Definition setAppResolver (a : App) : Method unit :=
  modify (set_appResolver (Some a)).

Definition setRequestResolver (q : Request) : Method unit :=
  modify (set_requestResolver (Some q)).

(** [secureCookies (value = false)] *)
Definition secureCookies (value : bool) : Method unit :=
  r <- get ;;
  match cookieCollection r with
  | None => throw TypeError
  | Some jar =>
      let jar' := CookieCollection_secure value jar in
      modify (set_cookieCollection (Some jar')) ;;
      setHeader "Set-Cookie" (CookieCollection_all jar')
  end.

(** [constructor (content = '', status = 200, headers = {})]: the chain
    [setStatus], [setHeaders], [setContent], [setProtocolVersion], then the
    cookie collection.  [setContent] is called on what [setHeaders]
    returned.  [headers] is a plain object, given by its entries. *)
Definition constructor (content : JsValue) (status : Z)
    (headers : list (string * JsValue)) : Outcome unit * Response :=
  let content := match content with JUndefined => JStr "" | _ => content end in
  (setStatus status None ;;
   chained <- setHeaders headers ;;
   match chained with
   | This =>
       setContent content ;;
       setProtocolVersion "1.0" ;;
       modify (set_cookieCollection (Some CookieCollection_instance))
   | Other _ => throw TypeError
   end) blank.

(** *** [prepare] *)

(** [app.get('http.etag.function', this.#defaultEtagFn)]: the configured
    value, or the private default when the key is unset. *)
Inductive EtagFn : Type :=
| DefaultEtagFn
| ConfiguredEtagFn (v : JsValue).

Definition isFunction (f : EtagFn) : bool :=
  match f with
  | DefaultEtagFn => true
  | ConfiguredEtagFn (JFun _) => true
  | ConfiguredEtagFn _ => false
  end.

(** [etagFn(content, charset)].  The default is the private method
    [#defaultEtagFn] detached from its instance: its body reads
    [this.#getHashedContent] with [this] undefined. *)
Definition callEtagFn (f : EtagFn) (content charset : JsValue) : Method JsValue :=
  match f with
  | DefaultEtagFn => throw TypeError
  | ConfiguredEtagFn (JFun name) => lift (call_function name [content; charset])
  | ConfiguredEtagFn _ => throw TypeError
  end.

Definition charsetValue (c : option string) : JsValue :=
  match c with Some s => JStr s | None => JUndefined end.

(** [this._content.length]; a string counts its code units. *)
Definition contentLength (content : JsValue) : Method JsValue :=
  match content with
  | JUndefined | JNull => throw TypeError
  | JStr s => ret (JNum (Z.of_nat (String.length s)))
  | JBuffer b => ret (JNum (Z.of_nat (String.length b)))
  | JArr items => ret (JNum (Z.of_nat (List.length items)))
  | JObj props => ret (Map_get "length" props)
  | JFun name => ret (JNum (function_length name))
  | JBool _ | JNum _ | JNaN => ret JUndefined
  end.

(** [a < 1000] on what [contentLength] yields *)
Definition lessThan (a : JsValue) (bound : Z) : bool :=
  match toNumber a with
  | Some x => x <? bound
  | None => false
  end.

(** The last branch of [prepare]: a status that carries a body. *)
Definition prepareBody : Method unit :=
  type <- getHeader "Content-Type" JNull ;;
  a <- app ;;
  let etagFn :=
    match a !! "http.etag.function" with
    | Some v => ConfiguredEtagFn v
    | None => DefaultEtagFn
    end in
  hasETag <- hasHeader "ETag" ;;
  let generateETag := negb hasETag && isFunction etagFn in
  modify (fun r => match _charset r with
                   | None => set_charset (Some "UTF-8") r
                   | Some _ => r
                   end) ;;
  (match type with
   | JStr t =>
       if negb (charsetRegExp_test t)
       then (r <- get ;;
             setContentType (t +:+ "; charset=" +:+ String_ (charsetValue (_charset r))))
       else ret tt
   | _ => ret tt
   end) ;;
  r <- get ;;
  length <-
    (match _content r with
     | JUndefined => ret None
     | content =>
         length <-
           (if isBuffer content then contentLength content
            else
              small <- (if negb generateETag
                        then (n <- contentLength content ;; ret (lessThan n 1000))
                        else ret false) ;;
              if small
              then (n <- lift (Buffer_byteLength content (_charset r)) ;; ret (JNum n))
              else (bytes <- lift (Buffer_from content (_charset r)) ;;
                    modify (set_content (JBuffer bytes)) ;;
                    modify (set_charset None) ;;
                    contentLength (JBuffer bytes))) ;;
         setHeader "Content-Length" length ;;
         ret (Some length)
     end) ;;
  (match generateETag, length with
   | true, Some _ =>
       r <- get ;;
       etag <- callEtagFn etagFn (_content r) (charsetValue (_charset r)) ;;
       if truthy etag then setHeader "ETag" etag else ret tt
   | _, _ => ret tt
   end) ;;
  hasTransferEncoding <- hasHeader "Transfer-Encoding" ;;
  (if hasTransferEncoding then removeHeader ["Content-Length"] else ret tt) ;;
  q <- request ;;
  if Request_isMethod "HEAD" q then setContent JNull else ret tt.

(** [!this.getHeader('Content-Type') && this.setContentType(extension)] *)
Definition inferContentType (extension : string) : Method unit :=
  type <- getHeader "Content-Type" JNull ;;
  if negb (truthy type) then setContentType extension else ret tt.

(** [v !== 'HTTP/1.0'] *)
Definition differsFrom (text : string) (v : JsValue) : bool :=
  match v with
  | JStr s => negb (String.eqb s text)
  | _ => true
  end.

(** The branch of [prepare] on the class of the status *)
Definition frameByStatus : Method unit :=
  r <- get ;;
  if isInformational r || isEmpty r then
    setContent JNull ;;
    removeHeader ["Content-Type"; "Content-Length"; "Transfer-Encoding"]
  else if isResetContent r then
    setContent JNull ;;
    setHeader "Content-Length" (JStr "0") ;;
    removeHeader ["Transfer-Encoding"]
  else prepareBody.

(** [prepare (request)] *)
Definition prepare (req : Request) : Method unit :=
  setRequestResolver req ;;
  r <- get ;;
  (if String.eqb (typeof (_content r)) "string" then inferContentType "html"
   else if existsb (String.eqb (typeof (_content r))) ["object"; "number"; "boolean"]
   then (if isBuffer (_content r) then inferContentType "bin"
         else inferContentType "json")
   else ret tt) ;;
  q <- request ;;
  r <- get ;;
  (if request_fresh q (_headers r) (_statusCode r)
   then modify (set_statusCode (Some 304)) else ret tt) ;;
  frameByStatus ;;
  q <- request ;;
  (if differsFrom "HTTP/1.0" (Request_server_get "SERVER_PROTOCOL" q)
   then setProtocolVersion "1.1" else ret tt) ;;
  q <- request ;;
  if request_secure q then secureCookies true else ret tt.

(** *** Cache *)

(** [Response.#HTTP_RESPONSE_CACHE_CONTROL_DIRECTIVES] *)
Definition HTTP_RESPONSE_CACHE_CONTROL_DIRECTIVES : list (string * bool) :=
  [ ("must_revalidate", false); ("no_cache", false); ("no_store", false);
    ("no_transform", false); ("public", false); ("private", false);
    ("proxy_revalidate", false); ("max_age", true); ("s_maxage", true);
    ("stale_if_error", true); ("stale_while_revalidate", true);
    ("immutable", false); ("last_modified", true); ("etag", true) ].

(** [v.getTime()] and [v.toUTCString()]: no value of the fragment is a
    [Date], so the property is absent (or the receiver is [null]) and the
    call is a TypeError. *)
Definition call_getTime (v : JsValue) : Method JsValue := throw TypeError.

Definition call_toUTCString (v : JsValue) : Method JsValue := throw TypeError.

(** [v.replace(a, b)]: a method of strings only *)
Definition call_replace (v : JsValue) (a b : ascii) : Method string :=
  match v with
  | JStr s => ret (replaceFirst a b s)
  | _ => throw TypeError
  end.

(** [this.#headerCacheControl], about to be dereferenced *)
Definition directives : Method JsMap :=
  r <- get ;;
  match headerCacheControl r with
  | Some m => ret m
  | None => throw TypeError
  end.

(** [getDate ()] *)
Definition getDate : Method JsValue :=
  h <- headers ;;
  ret (Headers_get "Date" h).

(** [getExpires ()] *)
Definition getExpires : Method JsValue :=
  h <- headers ;;
  ret (Headers_get "Expires" h).

(** [getAge ()] *)
Definition getAge : Method JsValue :=
  h <- headers ;;
  if negb (Headers_has "Age" h) then
    h' <- headers ;;
    ret (parseInt (Headers_get "Age" h'))
  else
    let now := JNum Date_now in
    date <- getDate ;;
    time <- call_getTime date ;;
    ret (Math_max (sub now (parseInt time)) (JNum 0)).

(** [hasHeaderCacheControlDirective (key)] *)
Definition hasHeaderCacheControlDirective (key : string) : Method bool :=
  m <- directives ;;
  ret (Map_has key m).

(** [getHeaderCacheControlDirective (key)] *)
Definition getHeaderCacheControlDirective (key : string) : Method JsValue :=
  m <- directives ;;
  ret (Map_get key m).

(** [getHeaderCacheControlHeader ()]: the [reduce] over the entries, from
    the empty string *)
Definition renderDirective (prev : string) (entry : string * JsValue) : string :=
  match entry with
  | (_, JBool true) => prev +:+ ", "
  | (key, value) => prev +:+ ", " +:+ key +:+ "=" +:+ String_ value
  end.

Definition getHeaderCacheControlHeader : Method string :=
  m <- directives ;;
  ret (fold_left renderDirective m "").

(** [addHeaderCacheControlDirective (key, value = true)] *)
Definition addHeaderCacheControlDirective (key : string) (value : JsValue) : Method unit :=
  modify (fun r => match headerCacheControl r with
                   | None => set_headerCacheControl (Some []) r
                   | Some _ => r
                   end) ;;
  m <- directives ;;
  modify (set_headerCacheControl (Some (Map_set key value m))) ;;
  text <- getHeaderCacheControlHeader ;;
  setHeader "Cache-Control" (JStr text).


(** [this.removeHeaderCacheControlDirective(key)]: the class defines no
    method of that name, so the call is a TypeError. *)
Definition removeHeaderCacheControlDirective (key : string) : Method unit :=
  throw TypeError.

(** [setPrivate ()] *)
Definition setPrivate : Method unit :=
  removeHeaderCacheControlDirective "public" ;;
  addHeaderCacheControlDirective "private" (JBool true).

(** [setPublic ()] *)
Definition setPublic : Method unit :=
  removeHeaderCacheControlDirective "private" ;;
  addHeaderCacheControlDirective "public" (JBool true).

(** [setImmutable (immutable = true)] *)
Definition setImmutable (immutable : bool) : Method unit :=
  if immutable
  then addHeaderCacheControlDirective "immutable" (JBool true)
  else removeHeaderCacheControlDirective "immutable".

(** [getMaxAge ()] *)
Definition getMaxAge : Method JsValue :=
  shared <- hasHeaderCacheControlDirective "s-maxage" ;;
  if shared then
    v <- getHeaderCacheControlDirective "s-maxage" ;;
    ret (parseInt v)
  else
    own <- hasHeaderCacheControlDirective "max-age" ;;
    if own then
      v <- getHeaderCacheControlDirective "max-age" ;;
      ret (parseInt v)
    else
      expires <- getExpires ;;
      if truthy expires then
        expires' <- getExpires ;;
        t1 <- call_getTime expires' ;;
        date <- getDate ;;
        t2 <- call_getTime date ;;
        ret (Math_max (sub t1 t2) (JNum 0))
      else ret JNull.

(** [setMaxAge], [setStaleIfError], [setStaleWhileRevalidate], [setSharedMaxAge] *)
Definition setMaxAge (value : JsValue) : Method unit :=
  addHeaderCacheControlDirective "max-age" value.

Definition setStaleIfError (value : JsValue) : Method unit :=
  addHeaderCacheControlDirective "stale-if-error" value.

Definition setStaleWhileRevalidate (value : JsValue) : Method unit :=
  addHeaderCacheControlDirective "stale-while-revalidate" value.

Definition setSharedMaxAge (value : JsValue) : Method unit :=
  setPublic ;;
  addHeaderCacheControlDirective "s-maxage" value.

(** [getTtl ()] *)
Definition getTtl : Method JsValue :=
  maxAge <- getMaxAge ;;
  match maxAge with
  | JNull => ret JNull
  | _ =>
      age <- getAge ;;
      ret (Math_max (sub maxAge age) (JNum 0))
  end.

(** [isFresh ()] *)
Definition isFresh : Method bool :=
  ttl <- getTtl ;;
  ret (gt ttl (JNum 0)).

(** [isValidateable ()] *)
Definition isValidateable : Method bool :=
  h <- headers ;;
  if Headers_has "Last-Modified" h then ret true
  else (h' <- headers ;; ret (Headers_has "ETag" h')).

(** [isCacheable ()] *)
Definition isCacheable : Method bool :=
  r <- get ;;
  if statusIncluded [200; 203; 300; 301; 302; 404; 410] r then ret false
  else
    noStore <- hasHeaderCacheControlDirective "no-store" ;;
    barred <- (if noStore then ret true
               else (v <- getHeaderCacheControlDirective "private" ;; ret (truthy v))) ;;
    if barred then ret false
    else
      validateable <- isValidateable ;;
      if validateable then ret true else isFresh.

(** [setEtag (etag = null, weak = false)] *)
Definition setEtag (etag : JsValue) (weak : bool) : Method unit :=
  if negb (truthy etag) then removeHeader ["ETag"]
  else
    match etag with
    | JStr s =>
        let quoted := if startsWith dquote s then s else dquote +:+ s +:+ dquote in
        setHeader "ETag" (JStr ((if weak then "W/" else "") +:+ quoted))
    | _ => throw TypeError
    end.

(** [setLastModified (date = null)] *)
Definition setLastModified (date : JsValue) : Method unit :=
  if negb (truthy date) then removeHeader ["Last-Modified"]
  else
    text <- call_toUTCString date ;;
    setHeader "Last-Modified" text.

(** [array.forEach(f)] *)
Fixpoint forEach {A} (f : A -> Method unit) (l : list A) : Method unit :=
  match l with
  | [] => ret tt
  | x :: rest => f x ;; forEach f rest
  end.

(** [options[key]] on a plain object given by its entries *)
Definition property (key : string) (options : list (string * JsValue)) : JsValue :=
  Map_get key options.

(** [setCache (options)] *)
Definition setCache (options : list (string * JsValue)) : Method unit :=
  let diff :=
    List.filter (fun curr => negb (existsb (String.eqb curr) (map fst options)))
           (map fst HTTP_RESPONSE_CACHE_CONTROL_DIRECTIVES) in
  if (0 <? Z.of_nat (List.length diff)) then throw InvalidArgumentException
  else
    (if truthy (property "etag" options)
     then setEtag (property "etag" options) false else ret tt) ;;
    (if truthy (property "last_modified" options)
     then setLastModified (property "last_modified" options) else ret tt) ;;
    (if truthy (property "max_age" options)
     then setMaxAge (property "max_age" options) else ret tt) ;;
    (if truthy (property "s_maxage" options)
     then setSharedMaxAge (property "s_maxage" options) else ret tt) ;;
    (if truthy (property "stale_while_revalidate" options)
     then setStaleWhileRevalidate (property "stale_while_revalidate" options) else ret tt) ;;
    (if truthy (property "stale_if_error" options)
     then setStaleIfError (property "stale_if_error" options) else ret tt) ;;
    forEach (fun '(key, value) =>
               if negb value && truthy (property key options) then
                 if truthy (property key options)
                 then (name <- call_replace (JBool value) "_" "-" ;;
                       addHeaderCacheControlDirective name (JBool true))
                 else (name <- call_replace (JBool value) "_" "-" ;;
                       removeHeaderCacheControlDirective name)
               else ret tt)
            HTTP_RESPONSE_CACHE_CONTROL_DIRECTIVES ;;
    (if truthy (property "public" options) then setPublic else ret tt) ;;
    (if truthy (property "private" options) then setPrivate else ret tt).

(** *** Predicates the properties are stated with *)

(** The content is what [stringify] made of [null] under the JSON options
    of the application. *)
Definition contentIsJsonOfNull (r : Response) : Prop :=
  exists (a : App) (text : JsValue),
    appResolver r = Some a /\
    stringify JNull (App_get "http.json.replacer" a) (App_get "http.json.spaces" a)
      (App_get "http.json.escape" a) = Normal text /\
    _content r = text.

(** [r2] differs from [r1] at most in the protocol version, the cookies
    and the Set-Cookie header. *)
Definition sameBody (r1 r2 : Response) : Prop :=
  _content r2 = _content r1 /\
  _statusCode r2 = _statusCode r1 /\
  appResolver r2 = appResolver r1 /\
  forall h1 : HeaderBag, _headers r1 = Some h1 ->
    exists h2 : HeaderBag, _headers r2 = Some h2 /\
      forall name : string, name <> "set-cookie" -> h2 !! name = h1 !! name.

(** A method that never writes the status *)
Definition keepsStatus {A} (m : Method A) : Prop :=
  forall r o r', m r = (o, r') -> _statusCode r' = _statusCode r.

End Methods.

(** ** More methods of [Response] *)

Section OtherMethods.
Context {statuses : StatusTexts} {mime : Mime} {json : Json}
        {buffer : BufferApi} {clock : Clock} {functions : Functions}.

(** [a + b]: numeric on numbers, booleans, [null] and [undefined], string
    concatenation as soon as one operand is anything else. *)
Definition plus (a b : JsValue) : JsValue :=
  let numeric (v : JsValue) : option (option Z) :=
    match v with
    | JNum z => Some (Some z)
    | JNull => Some (Some 0)
    | JBool x => Some (Some (if x then 1 else 0))
    | JNaN | JUndefined => Some None
    | _ => None
    end in
  match numeric a, numeric b with
  | Some (Some x), Some (Some y) => JNum (x + y)
  | Some _, Some _ => JNaN
  | _, _ => JStr (String_ a +:+ String_ b)
  end.

(** [isOk], [isUnauthorized], [isForbidden], [isNotFound] *)
Definition isOk (r : Response) : bool := statusIncluded [200] r.
Definition isUnauthorized (r : Response) : bool := statusIncluded [401] r.
Definition isForbidden (r : Response) : bool := statusIncluded [403] r.
Definition isNotFound (r : Response) : bool := statusIncluded [404] r.

(** [isRedirect (location = null)]: the conditional takes the whole
    conjunction as its test. *)
Definition isRedirect (location : JsValue) : Method bool :=
  let location := match location with JUndefined => JNull | _ => location end in
  r <- get ;;
  if statusIncluded [201; 301; 302; 303; 307; 308] r
     && match location with JNull => true | _ => false end
  then ret true
  else (v <- getHeader "Location" JNull ;; ret (truthy v)).

(** The callback of [setLinks]: the accumulator is only tested. *)
Definition linkStep (prev : JsValue) (entry : string * JsValue) : JsValue :=
  JStr ((if truthy prev then ", " else "") +:+
        "<" +:+ String_ (snd entry) +:+ ">; rel=" +:+ dquote +:+ fst entry +:+ dquote).

(** [setLinks (links)], [links] a plain object given by its entries *)
Definition setLinks (links : list (string * JsValue)) : Method unit :=
  initial <- getHeader "Link" JNull ;;
  setHeader "Link" (fold_left linkStep links initial).

(** [setDate (date)]: the bag stores the value as [setHeader] coerces it *)
Definition setDate (date : JsValue) : Method unit :=
  h <- headers ;;
  modify (set_headers (Some (Headers_set "Date" (coerceHeaderValue date) h))).

(** [expire ()].  The receiver [this._headers] is read before the argument
    [this.getMaxAge()]; the bag has no [remove] method, so that call is a
    TypeError. *)
Definition expire : Method unit :=
  fresh <- isFresh ;;
  if fresh then
    h <- headers ;;
    maxAge <- getMaxAge ;;
    modify (set_headers (Some (Headers_set "Age" (coerceHeaderValue maxAge) h))) ;;
    throw TypeError
  else ret tt.

(** [isImmutable ()] and [mustRevalidate ()] *)
Definition isImmutable : Method bool :=
  hasHeaderCacheControlDirective "immutable".

Definition mustRevalidate : Method bool :=
  must <- hasHeaderCacheControlDirective "must-revalidate" ;;
  if must then ret true else hasHeaderCacheControlDirective "proxy-revalidate".

(** [setTtl (seconds)] *)
Definition setTtl (seconds : JsValue) : Method unit :=
  age <- getAge ;;
  setSharedMaxAge (plus age seconds).

(** [setNotModified ()].  [headers.forEach(this.removeHeader)] calls the
    method detached from the instance: with [this] undefined its first
    [this._headers] is a TypeError. *)
Definition setNotModified : Method unit :=
  setStatus 304 None ;;
  setContent JNull ;;
  forEach (fun _ : string => throw TypeError)
    ["Allow"; "Content-Encoding"; "Content-Language"; "Content-Length";
     "Content-MD5"; "Content-Type"; "Last-Modified"].

(** *** Predicates the properties are stated with *)

(** A method that never writes what [f] reads *)
Definition preserves {X A} (f : Response -> X) (m : Method A) : Prop :=
  forall r o r', m r = (o, r') -> f r' = f r.

(** A method that writes nothing at all *)
Definition readOnly {A} (m : Method A) : Prop :=
  forall r o r', m r = (o, r') -> r' = r.

(** Exactly one of the flags is set. *)
Definition exactlyOne (flags : list bool) : Prop :=
  List.length (List.filter (fun b : bool => b) flags) = 1%nat.

(** No character of [s] is one of [<], [>], [&]. *)
Definition htmlSafe (s : string) : Prop :=
  forall c, In c (list_ascii_of_string s) ->
    c <> "<"%char /\ c <> ">"%char /\ c <> "&"%char.

End OtherMethods.

(** ** A reference host

    Concrete instances of the host interfaces, used to run the methods on
    explicit inputs: the status table of [statuses] 2.0.1, the charset rule
    and an excerpt of the type table of [mime] 1.6, [JSON.stringify] on the
    value fragment, UTF-8 buffers, a fixed clock, and host functions that
    all throw. *)
Module Host.

Definition status_table : list (Z * string) :=
  [ (100, "Continue"); (101, "Switching Protocols"); (102, "Processing");
    (103, "Early Hints"); (200, "OK"); (201, "Created"); (202, "Accepted");
    (203, "Non-Authoritative Information"); (204, "No Content");
    (205, "Reset Content"); (206, "Partial Content"); (207, "Multi-Status");
    (208, "Already Reported"); (226, "IM Used"); (300, "Multiple Choices");
    (301, "Moved Permanently"); (302, "Found"); (303, "See Other");
    (304, "Not Modified"); (305, "Use Proxy"); (307, "Temporary Redirect");
    (308, "Permanent Redirect"); (400, "Bad Request"); (401, "Unauthorized");
    (402, "Payment Required"); (403, "Forbidden"); (404, "Not Found");
    (405, "Method Not Allowed"); (406, "Not Acceptable");
    (407, "Proxy Authentication Required"); (408, "Request Timeout");
    (409, "Conflict"); (410, "Gone"); (411, "Length Required");
    (412, "Precondition Failed"); (413, "Payload Too Large");
    (414, "URI Too Long"); (415, "Unsupported Media Type");
    (416, "Range Not Satisfiable"); (417, "Expectation Failed");
    (418, "I'm a Teapot"); (421, "Misdirected Request");
    (422, "Unprocessable Entity"); (423, "Locked"); (424, "Failed Dependency");
    (425, "Too Early"); (426, "Upgrade Required");
    (428, "Precondition Required"); (429, "Too Many Requests");
    (431, "Request Header Fields Too Large");
    (451, "Unavailable For Legal Reasons"); (500, "Internal Server Error");
    (501, "Not Implemented"); (502, "Bad Gateway"); (503, "Service Unavailable");
    (504, "Gateway Timeout"); (505, "HTTP Version Not Supported");
    (506, "Variant Also Negotiates"); (507, "Insufficient Storage");
    (508, "Loop Detected"); (509, "Bandwidth Limit Exceeded");
    (510, "Not Extended"); (511, "Network Authentication Required") ].

Fixpoint assocZ (c : Z) (table : list (Z * string)) : option string :=
  match table with
  | [] => None
  | (k, text) :: rest => if k =? c then Some text else assocZ c rest
  end.

#[export] Instance statuses : StatusTexts := {| STATUS_TEXTS c := assocZ c status_table |}.

(** [/^text\/|^application\/(javascript|json)/.test(type) ? 'UTF-8' : undefined] *)
Definition charsets_lookup (type : string) : option string :=
  if startsWith "text/" type
     || startsWith "application/javascript" type
     || startsWith "application/json" type
  then Some "UTF-8" else None.

Definition type_table : list (string * string) :=
  [ ("html", "text/html"); ("htm", "text/html"); ("txt", "text/plain");
    ("css", "text/css"); ("js", "application/javascript");
    ("json", "application/json"); ("xml", "application/xml");
    ("bin", "application/octet-stream") ].

Fixpoint assocS (key : string) (table : list (string * string)) : option string :=
  match table with
  | [] => None
  | (k, v) :: rest => if String.eqb k key then Some v else assocS key rest
  end.

Definition type_lookup (extension : string) : string :=
  match assocS (toLowerCase extension) type_table with
  | Some t => t
  | None => "application/octet-stream"
  end.

#[export] Instance mime : Mime :=
  {| mime_charsets_lookup := charsets_lookup; mime_lookup := type_lookup |}.

(** [JSON.stringify] *)
Definition hexDigit (n : nat) : ascii :=
  ascii_of_nat (if (n <? 10)%nat then 48 + n else 87 + n).

Definition quoteChar (c : ascii) : string :=
  let n := nat_of_ascii c in
  if (n =? 34)%nat then "\" +:+ dquote
  else if (n =? 92)%nat then "\\"
  else if (n =? 8)%nat then "\b"
  else if (n =? 12)%nat then "\f"
  else if (n =? 10)%nat then "\n"
  else if (n =? 13)%nat then "\r"
  else if (n =? 9)%nat then "\t"
  else if (n <? 32)%nat then
    "\u00" +:+ String (hexDigit (n / 16)) (String (hexDigit (n mod 16)) EmptyString)
  else String c EmptyString.

Fixpoint quoteChars (s : string) : string :=
  match s with
  | EmptyString => EmptyString
  | String c rest => quoteChar c +:+ quoteChars rest
  end.

Definition quote (s : string) : string := dquote +:+ quoteChars s +:+ dquote.

(** A buffer serialises through its [toJSON]. *)
Definition bufferJson (bytes : string) : JsValue :=
  JObj [ ("type", JStr "Buffer");
         ("data", JArr (map (fun c => JNum (Z.of_nat (nat_of_ascii c)))
                            (list_ascii_of_string bytes))) ].

Fixpoint expandBuffers (v : JsValue) : JsValue :=
  match v with
  | JBuffer bytes => bufferJson bytes
  | JArr items => JArr (map expandBuffers items)
  | JObj props => JObj (map (fun kv => (fst kv, expandBuffers (snd kv))) props)
  | other => other
  end.

Definition wrap (opening closing gap stepback : string) (members : list string) : string :=
  match members with
  | [] => opening +:+ closing
  | _ =>
      if String.eqb gap "" then opening +:+ join "," members +:+ closing
      else
        let nl := String (ascii_of_nat 10) EmptyString in
        let indent := stepback +:+ gap in
        opening +:+ nl +:+ indent +:+ join ("," +:+ nl +:+ indent) members
                +:+ nl +:+ stepback +:+ closing
  end.

Definition member (gap key text : string) : string :=
  quote key +:+ (if String.eqb gap "" then ":" else ": ") +:+ text.

(** SerializeJSONProperty; [None] is [undefined].  [allow] is the property
    list of an array replacer.  Buffers are expanded beforehand. *)
Fixpoint serialize (allow : option (list string)) (gap indent : string)
    (v : JsValue) : option string :=
  match v with
  | JUndefined | JFun _ => None
  | JNull | JNaN => Some "null"
  | JBool true => Some "true"
  | JBool false => Some "false"
  | JNum z => Some (Z_to_string z)
  | JStr s => Some (quote s)
  | JBuffer _ => None
  | JArr items =>
      Some (wrap "[" "]" gap indent
              (map (fun x => match serialize allow gap (indent +:+ gap) x with
                             | Some t => t
                             | None => "null"
                             end) items))
  | JObj props =>
      let each (selected : string -> bool) :=
        (fix go (ps : list (string * JsValue)) : list string :=
           match ps with
           | [] => []
           | (k, w) :: rest =>
               if selected k then
                 match serialize allow gap (indent +:+ gap) w with
                 | Some t => member gap k t :: go rest
                 | None => go rest
                 end
               else go rest
           end) props in
      Some (wrap "{" "}" gap indent
              (match allow with
               | None => each (fun _ => true)
               | Some keys => flat_map (fun key => each (String.eqb key)) keys
               end))
  end.

Fixpoint dedupe (l : list string) : list string :=
  match l with
  | [] => []
  | x :: rest => x :: List.filter (fun y => negb (String.eqb x y)) (dedupe rest)
  end.

Definition propertyList (replacer : JsValue) : option (list string) :=
  match replacer with
  | JArr items =>
      Some (dedupe (flat_map (fun x => match x with
                                       | JStr s => [s]
                                       | JNum z => [Z_to_string z]
                                       | _ => []
                                       end) items))
  | _ => None
  end.

Definition gapOf (spaces : JsValue) : string :=
  match spaces with
  | JNum n => string_of_list_ascii (repeat " "%char (Z.to_nat (Z.min 10 n)))
  | JStr s => String.substring 0 10 s
  | _ => ""
  end.

Definition stringify_host (value replacer spaces : JsValue) : Outcome JsValue :=
  match replacer with
  | JFun _ => Throw TypeError
  | _ =>
      match serialize (propertyList replacer) (gapOf spaces) "" (expandBuffers value) with
      | Some text => Normal (JStr text)
      | None => Normal JUndefined
      end
  end.

#[export] Instance json : Json := {| JSON_stringify := stringify_host |}.

(** Buffers hold UTF-8 text; a Rocq string is read as its bytes. *)
Definition isUtf8 (charset : option string) : bool :=
  match charset with
  | None => true
  | Some c => String.eqb (toLowerCase c) "utf-8" || String.eqb (toLowerCase c) "utf8"
  end.

Definition byteLength_host (content : JsValue) (charset : option string) : Outcome Z :=
  match content with
  | JStr s => if isUtf8 charset then Normal (Z.of_nat (String.length s)) else Throw TypeError
  | JBuffer b => Normal (Z.of_nat (String.length b))
  | _ => Throw TypeError
  end.

Definition from_host (content : JsValue) (charset : option string) : Outcome string :=
  match content with
  | JStr s => if isUtf8 charset then Normal s else Throw TypeError
  | JBuffer b => Normal b
  | _ => Throw TypeError
  end.

#[export] Instance buffer : BufferApi :=
  {| Buffer_byteLength := byteLength_host; Buffer_from := from_host |}.

#[export] Instance clock : Clock := {| Date_now := 1700000000000 |}.

#[export] Instance functions : Functions :=
  {| call_function _ _ := Throw TypeError; function_length _ := 0 |}.

End Host.

(** ** Objects and requests used in the concrete evaluations *)
Module Examples.

(** An instance whose header bag, cookie collection and application
    resolver are in place; the application sets no configuration key. *)
Definition ready : Response :=
  set_cookieCollection (Some CookieCollection_instance)
    (set_appResolver (Some ∅) (set_headers (Some ∅) blank)).

(** A plain GET over HTTP/1.1 that matches no validator. *)
Definition plainGet : Request := {|
  request_method := "GET";
  request_server := {[ "SERVER_PROTOCOL" := JStr "HTTP/1.1" ]};
  request_secure := false;
  request_fresh := fun _ _ => false
|}.

(** [ready] with a body and its three framing headers, at a given status. *)
Definition framed (status : Z) : Response :=
  set_statusCode (Some status)
    (set_content (JStr "abc")
       (set_headers
          (Some (Headers_set "Transfer-Encoding" (HStr "chunked")
                   (Headers_set "Content-Length" (HStr "3")
                      (Headers_set "Content-Type" (HStr "text/plain; charset=utf-8") ∅))))
          ready)).

(** [ready] after [setMaxAge(60)] and [setHeader('Age', 10)]. *)
Definition aged : Response :=
  set_headerCacheControl (Some [("max-age", JNum 60)])
    (set_headers
       (Some (Headers_set "Age" (HStr "10")
                (Headers_set "Cache-Control" (HStr ", max-age=60") ∅)))
       ready).

(** [ready] at status 200 after [setEtag('abc')] and
    [addHeaderCacheControlDirective('public')]. *)
Definition tagged : Response :=
  set_statusCode (Some 200)
    (set_headerCacheControl (Some [("public", JBool true)])
       (set_headers
          (Some (Headers_set "Cache-Control" (HStr ", ")
                   (Headers_set "ETag" (HStr (dquote +:+ "abc" +:+ dquote)) ∅)))
          ready)).

End Examples.

(** * Properties *)

Section Properties.
Context {statuses : StatusTexts} {mime : Mime} {json : Json}
        {buffer : BufferApi} {clock : Clock} {functions : Functions}.

(** ** Sequencing *)

Lemma bind_normal {A B} (m : Method A) (k : A -> Method B) r a r' :
  m r = (Normal a, r') -> bind m k r = k a r'.
Proof. intros E. unfold bind. now rewrite E. Qed.

Lemma bind_throw {A B} (m : Method A) (k : A -> Method B) r e r' :
  m r = (Throw e, r') -> bind m k r = (Throw e, r').
Proof. intros E. unfold bind. now rewrite E. Qed.

Lemma bind_inv_normal {A B} (m : Method A) (k : A -> Method B) r b r2 :
  bind m k r = (Normal b, r2) ->
  exists a r1, m r = (Normal a, r1) /\ k a r1 = (Normal b, r2).
Proof.
  unfold bind. destruct (m r) as [[a|e] r1]; intros E.
  - now exists a, r1.
  - discriminate.
Qed.

(** ** Status assignment *)

Lemma isInvalid_set_statusCode (c : Z) (r : Response) :
  isInvalid (set_statusCode (Some c) r) = (c <? 100) || (600 <=? c).
Proof. reflexivity. Qed.

Lemma isInvalid_out_of_range (c : Z) :
  (c <? 100) || (600 <=? c) = true <-> c < 100 \/ 599 < c.
Proof.
  rewrite orb_true_iff, Z.ltb_lt, Z.leb_le. lia.
Qed.

Lemma setStatus_unfold (c : Z) (text : option string) (r : Response) :
  setStatus c text r =
  if (c <? 100) || (600 <=? c)
  then (Throw InvalidArgumentException, set_statusCode (Some c) r)
  else (Normal tt,
        set_statusMessage
          (Some (match text with Some t => t | None => statusText c end))
          (set_statusCode (Some c) r)).
Proof.
  unfold setStatus, bind, modify, get, throw.
  rewrite isInvalid_set_statusCode.
  destruct ((c <? 100) || (600 <=? c)); [reflexivity|].
  destruct text; reflexivity.
Qed.

(** C3: for an integer code between 100 and 599, [setStatus] returns
    normally, stores the code, and the status message is the registered
    text of the code, or "unknown status" when the table has none; and the
    call raises InvalidArgumentException exactly when the code is below
    100 or above 599. *)
Theorem setStatus_raises_iff_out_of_range (c : Z) (r : Response) :
  (100 <= c <= 599 ->
     fst (setStatus c None r) = Normal tt /\
     _statusCode (snd (setStatus c None r)) = Some c /\
     _statusMessage (snd (setStatus c None r)) =
       Some (match STATUS_TEXTS c with Some t => t | None => "unknown status" end)) /\
  (fst (setStatus c None r) = Throw InvalidArgumentException <-> c < 100 \/ 599 < c).
Proof.
  rewrite setStatus_unfold.
  destruct ((c <? 100) || (600 <=? c)) eqn:E.
  - apply isInvalid_out_of_range in E. split.
    + intros Hc. exfalso. lia.
    + split; [intros _; exact E | reflexivity].
  - assert (N : ~ (c < 100 \/ 599 < c)).
    { intros Hc. apply isInvalid_out_of_range in Hc. congruence. }
    split.
    + intros _. repeat split.
    + split; [discriminate | intros Hc; contradiction].
Qed.

(** C10: when the code is outside [100, 599] the call throws, and the
    object it leaves behind already holds the rejected code: only
    [_statusCode] was written, so the object is then invalid. *)
Theorem setStatus_throw_keeps_invalid_code (c : Z) (text : option string) (r : Response) :
  c < 100 \/ 599 < c ->
  setStatus c text r = (Throw InvalidArgumentException, set_statusCode (Some c) r) /\
  _statusCode (snd (setStatus c text r)) = Some c /\
  _statusMessage (snd (setStatus c text r)) = _statusMessage r /\
  isInvalid (snd (setStatus c text r)) = true.
Proof.
  intros Hc. apply isInvalid_out_of_range in Hc.
  rewrite setStatus_unfold, Hc. cbn [fst snd].
  repeat split. rewrite isInvalid_set_statusCode. exact Hc.
Qed.

(** ** Headers *)

Lemma append_empty_r (s : string) : s +:+ "" = s.
Proof.
  induction s as [|c s IH]; [reflexivity|].
  change (String c (s +:+ "") = String c s). now f_equal.
Qed.

Lemma headers_some (r : Response) (h : HeaderBag) :
  _headers r = Some h -> headers r = (Normal h, r).
Proof. intros E. unfold headers, bind, get, ret. now rewrite E. Qed.

Lemma headers_none (r : Response) :
  _headers r = None -> headers r = (Throw TypeError, r).
Proof. intros E. unfold headers, bind, get, throw. now rewrite E. Qed.

Lemma storeHeader_some (key : string) (v : HeaderValue) (r : Response) (h : HeaderBag) :
  _headers r = Some h ->
  storeHeader key v r = (Normal tt, set_headers (Some (Headers_set key v h)) r).
Proof.
  intros E. unfold storeHeader.
  now rewrite (bind_normal _ _ _ _ _ (headers_some r h E)).
Qed.

Lemma storeHeader_none (key : string) (v : HeaderValue) (r : Response) :
  _headers r = None -> storeHeader key v r = (Throw TypeError, r).
Proof.
  intros E. unfold storeHeader.
  now rewrite (bind_throw _ _ _ _ _ (headers_none r E)).
Qed.

Lemma Headers_get_set (key key' : string) (v : HeaderValue) (h : HeaderBag) :
  toLowerCase key = toLowerCase key' ->
  Headers_get key' (Headers_set key v h) = headerToJs v.
Proof.
  intros E. unfold Headers_get, Headers_set.
  now rewrite E, lookup_insert_eq.
Qed.

Lemma Headers_has_delete (key key' : string) (h : HeaderBag) :
  toLowerCase key = toLowerCase key' ->
  Headers_has key' (Headers_delete key h) = false.
Proof.
  intros E. unfold Headers_has, Headers_delete.
  now rewrite E, lookup_delete_eq.
Qed.

(** The pattern [/;\s*charset\s*=/] finds the fragment wherever it stands. *)
Lemma charsetRegExp_test_fragment (pre post : string) :
  charsetRegExp_test (pre +:+ "; charset=" +:+ post) = true.
Proof.
  induction pre as [|c pre IH].
  - reflexivity.
  - change (charsetRegExp_test (String c (pre +:+ "; charset=" +:+ post)) = true).
    cbn [charsetRegExp_test]. rewrite IH. apply orb_true_r.
Qed.

Lemma setHeader_array_content_type (key : string) (items : list JsValue) (r : Response) :
  toLowerCase key = "content-type" ->
  setHeader key (JArr items) r = (Throw InvalidArgumentException, r).
Proof.
  intros K. unfold setHeader. now rewrite K, String.eqb_refl.
Qed.

Lemma setHeader_content_type_string (key s : string) (r : Response) (h : HeaderBag) :
  _headers r = Some h ->
  toLowerCase key = "content-type" ->
  setHeader key (JStr s) r =
  if charsetRegExp_test s
  then (Normal tt, set_headers (Some (<["content-type" := HStr s]> h)) r)
  else
    let cs := mime_charsets_lookup (trim (split_shift ";" s)) in
    (Normal tt,
     set_headers (Some (<["content-type" := HStr (s +:+ charsetSuffix cs)]> h))
       (set_charset cs r)).
Proof.
  intros E K. unfold setHeader. rewrite K, String.eqb_refl.
  cbn [coerceHeaderValue String_].
  destruct (charsetRegExp_test s); cbn [negb].
  - rewrite (storeHeader_some key (HStr s) r h E). unfold Headers_set. now rewrite K.
  - unfold bind at 1, modify.
    rewrite (storeHeader_some key _ (set_charset _ r) h E).
    unfold Headers_set. now rewrite K.
Qed.

(** *** The charset fragment and the media type of a text *)

Lemma allChars_impl (p q : ascii -> bool) (s : string) :
  (forall c, p c = true -> q c = true) -> allChars p s = true -> allChars q s = true.
Proof.
  intros I. induction s as [|c s IH]; [reflexivity|]. cbn [allChars].
  intros H. apply andb_true_iff in H as [H1 H2]. now rewrite (I c H1), IH.
Qed.

Lemma trimStart_spec (s : string) :
  exists ws : string, allSpace ws = true /\ s = ws +:+ trimStart s.
Proof.
  induction s as [|c s (ws & A & E)]; [now exists ""|].
  cbn [trimStart]. destruct (isSpace c) eqn:C.
  - exists (String c ws). split.
    + unfold allSpace. cbn [allChars]. now rewrite C.
    + change (String c s = String c (ws +:+ trimStart s)). now f_equal.
  - now exists "".
Qed.

Lemma trimStart_app_space (ws t : string) :
  allSpace ws = true -> trimStart (ws +:+ t) = trimStart t.
Proof.
  unfold allSpace. induction ws as [|c ws IH]; [reflexivity|].
  cbn [allChars]. intros H. apply andb_true_iff in H as [H1 H2].
  change (trimStart (String c (ws +:+ t)) = trimStart t).
  cbn [trimStart]. rewrite H1. now apply IH.
Qed.

Lemma trimStart_allSpace (ws : string) : allSpace ws = true -> trimStart ws = "".
Proof.
  intros A. rewrite <- (append_empty_r ws). now rewrite trimStart_app_space.
Qed.

Lemma stripPrefix_Some (p s rest : string) :
  stripPrefix p s = Some rest -> s = p +:+ rest.
Proof.
  revert s. induction p as [|a p IH]; intros s; cbn [stripPrefix].
  - intros H. now inversion H.
  - destruct s as [|b s]; [discriminate|].
    destruct (Ascii.eqb_spec a b) as [->|]; [|discriminate].
    intros H. change (String b s = String b (p +:+ rest)). f_equal. now apply IH.
Qed.

Lemma stripPrefix_app (p rest : string) : stripPrefix p (p +:+ rest) = Some rest.
Proof.
  induction p as [|a p IH]; [reflexivity|].
  change (stripPrefix (String a p) (String a (p +:+ rest)) = Some rest).
  cbn [stripPrefix]. now rewrite Ascii.eqb_refl.
Qed.

Lemma charsetAfterSemicolon_spec (s : string) :
  charsetAfterSemicolon s = true <->
  exists ws ws' after : string,
    allSpace ws = true /\ allSpace ws' = true /\
    s = ws +:+ "charset" +:+ ws' +:+ "=" +:+ after.
Proof.
  unfold charsetAfterSemicolon, startsWith. split.
  - destruct (trimStart_spec s) as (ws & A & E).
    destruct (stripPrefix "charset" (trimStart s)) as [rest|] eqn:P; [|discriminate].
    apply stripPrefix_Some in P.
    destruct (trimStart_spec rest) as (ws' & A' & E').
    destruct (stripPrefix "=" (trimStart rest)) as [after|] eqn:Q; [|discriminate].
    apply stripPrefix_Some in Q. intros _.
    exists ws, ws', after. repeat split; try assumption.
    rewrite E at 1. rewrite P. rewrite E' at 1. now rewrite Q.
  - intros (ws & ws' & after & A & A' & ->).
    rewrite (trimStart_app_space ws _ A).
    change (trimStart ("charset" +:+ ws' +:+ "=" +:+ after))
      with ("charset" +:+ ws' +:+ "=" +:+ after).
    rewrite stripPrefix_app, (trimStart_app_space ws' _ A').
    reflexivity.
Qed.

(** The test of the pattern finds a charset fragment exactly where there
    is one. *)
Lemma charsetRegExp_test_spec (s : string) :
  charsetRegExp_test s = true <-> hasCharsetFragment s.
Proof.
  unfold hasCharsetFragment. split.
  - induction s as [|c s IH]; cbn [charsetRegExp_test]; [discriminate|].
    intros H. apply orb_true_iff in H as [H|H].
    + apply andb_true_iff in H as [H1 H2]. apply Ascii.eqb_eq in H1. subst c.
      apply charsetAfterSemicolon_spec in H2 as (ws & ws' & after & A & A' & ->).
      now exists "", ws, ws', after.
    + destruct (IH H) as (before & ws & ws' & after & A & A' & ->).
      now exists (String c before), ws, ws', after.
  - intros (before & ws & ws' & after & A & A' & ->).
    induction before as [|c before IH].
    + change (charsetRegExp_test
                (String ";" (ws +:+ "charset" +:+ ws' +:+ "=" +:+ after)) = true).
      cbn [charsetRegExp_test]. rewrite Ascii.eqb_refl.
      rewrite (proj2 (charsetAfterSemicolon_spec _)); [reflexivity|].
      now exists ws, ws', after.
    + change (charsetRegExp_test
                (String c (before +:+ ";" +:+ ws +:+ "charset" +:+ ws' +:+ "=" +:+ after))
              = true).
      cbn [charsetRegExp_test]. rewrite IH. apply orb_true_r.
Qed.

Lemma split_shift_app (a b : string) :
  allChars (fun c => negb (Ascii.eqb c ";")) a = true ->
  split_shift ";" (a +:+ b) = a +:+ split_shift ";" b.
Proof.
  induction a as [|c a IH]; [reflexivity|].
  cbn [allChars]. intros H. apply andb_true_iff in H as [H1 H2].
  change (split_shift ";" (String c (a +:+ b)) = String c (a +:+ split_shift ";" b)).
  cbn [split_shift]. apply negb_true_iff in H1. rewrite H1. f_equal. now apply IH.
Qed.

Lemma split_shift_parameters (params : string) :
  params = "" \/ startsWith ";" params = true -> split_shift ";" params = "".
Proof.
  intros [->|H]; [reflexivity|].
  destruct params as [|c params]; [reflexivity|].
  unfold startsWith in H. cbn [stripPrefix] in H. cbn [split_shift].
  rewrite Ascii.eqb_sym. now destruct (Ascii.eqb ";" c).
Qed.

Lemma trimEnd_allSpace (ws : string) : allSpace ws = true -> trimEnd ws = "".
Proof.
  unfold allSpace. induction ws as [|c ws IH]; [reflexivity|].
  cbn [allChars trimEnd]. intros H. apply andb_true_iff in H as [H1 H2].
  now rewrite (IH H2), H1.
Qed.

Lemma trimEnd_app_space (a ws : string) :
  allSpace ws = true -> trimEnd (a +:+ ws) = trimEnd a.
Proof.
  intros A. induction a as [|c a IH]; [now apply trimEnd_allSpace|].
  change (trimEnd (String c (a +:+ ws)) = trimEnd (String c a)).
  cbn [trimEnd]. now rewrite IH.
Qed.

Lemma trimEnd_without_space (a : string) :
  allChars (fun c => negb (isSpace c)) a = true -> trimEnd a = a.
Proof.
  induction a as [|c a IH]; [reflexivity|].
  cbn [allChars trimEnd]. intros H. apply andb_true_iff in H as [H1 H2].
  rewrite (IH H2). apply negb_true_iff in H1. rewrite H1. now destruct a.
Qed.

(** What [value.split(';').shift().trim()] picks out of a text: the bare
    media type that starts it, whatever white space and parameters
    follow. *)
Lemma trim_split_shift_media_type (type trail params : string) :
  isBareMediaType type = true -> allSpace trail = true ->
  params = "" \/ startsWith ";" params = true ->
  trim (split_shift ";" (type +:+ trail +:+ params)) = type.
Proof.
  intros T A P.
  assert (T1 : allChars (fun c => negb (Ascii.eqb c ";")) type = true).
  { revert T. apply allChars_impl. intros c H. now apply andb_true_iff in H as [_ H]. }
  assert (T2 : allChars (fun c => negb (isSpace c)) type = true).
  { revert T. apply allChars_impl. intros c H. now apply andb_true_iff in H as [H _]. }
  assert (A1 : allChars (fun c => negb (Ascii.eqb c ";")) trail = true).
  { revert A. apply allChars_impl. intros c H.
    destruct (Ascii.eqb_spec c ";") as [->|]; [discriminate H | reflexivity]. }
  rewrite (split_shift_app type _ T1), (split_shift_app trail _ A1).
  rewrite (split_shift_parameters params P), append_empty_r.
  unfold trim. destruct type as [|c type].
  - change (trimEnd (trimStart trail) = ""). now rewrite (trimStart_allSpace trail A).
  - change (trimEnd (trimStart (String c (type +:+ trail))) = String c type).
    cbn [allChars] in T2. apply andb_true_iff in T2 as [C T2].
    cbn [trimStart]. apply negb_true_iff in C. rewrite C.
    change (trimEnd (String c type +:+ trail) = String c type).
    rewrite (trimEnd_app_space _ trail A).
    apply trimEnd_without_space. cbn [allChars]. now rewrite C, T2.
Qed.

Lemma setHeader_content_type_read_back (key s : string) (fallback : JsValue)
    (r : Response) (h : HeaderBag) :
  _headers r = Some h ->
  toLowerCase key = "content-type" ->
  let cs := mime_charsets_lookup (trim (split_shift ";" s)) in
  let stored := if charsetRegExp_test s then s else s +:+ charsetSuffix cs in
  exists r',
    setHeader key (JStr s) r = (Normal tt, r') /\
    getHeader "Content-Type" fallback r' = (Normal (JStr stored), r') /\
    _charset r' = if charsetRegExp_test s then _charset r else cs.
Proof.
  intros E K cs stored.
  assert (G : forall (text : string) (r0 : Response),
            let r1 := set_headers (Some (<["content-type" := HStr text]> h)) r0 in
            getHeader "Content-Type" fallback r1 = (Normal (JStr text), r1)).
  { intros text r0 r1.
    assert (E1 : _headers r1 = Some (<["content-type" := HStr text]> h)) by reflexivity.
    unfold getHeader. rewrite (bind_normal _ _ _ _ _ (headers_some r1 _ E1)).
    unfold ret, Headers_get. change (toLowerCase "Content-Type") with "content-type".
    now rewrite lookup_insert_eq. }
  rewrite (setHeader_content_type_string key s r h E K).
  subst stored. destruct (charsetRegExp_test s); cbv zeta; fold cs.
  - eexists. split; [reflexivity|]. split; [apply G | reflexivity].
  - eexists. split; [reflexivity|]. split; [apply G | reflexivity].
Qed.

Lemma setHeader_content_type_without_bag (key s : string) (r : Response) :
  _headers r = None ->
  toLowerCase key = "content-type" ->
  fst (setHeader key (JStr s) r) = Throw TypeError /\
  _headers (snd (setHeader key (JStr s) r)) = None.
Proof.
  intros E K.
  assert (T : exists r', setHeader key (JStr s) r = (Throw TypeError, r') /\
                         _headers r' = None).
  { unfold setHeader. rewrite K, String.eqb_refl.
    cbn [coerceHeaderValue String_].
    destruct (charsetRegExp_test s); cbn [negb].
    - rewrite (storeHeader_none key _ r E). eauto.
    - unfold bind at 1, modify.
      rewrite (storeHeader_none key _ (set_charset _ r) E). eauto. }
  destruct T as (r' & -> & H). split; [reflexivity | exact H].
Qed.

(** C7, as the code has it.  The class never creates the header container
    (the [setHeaders] that did is overridden by the second one), so on an
    object as its code leaves it, and already inside the constructor when
    the headers object names Content-Type after another header, setting
    Content-Type to a text throws a TypeError instead of storing anything.
    On an object that was given a container the behaviour is the claimed
    one, read back with [getHeader]: a text without charset fragment, made
    of a bare media type, white space and parameters, is stored followed
    by "; charset=" and the lower-cased charset the table gives for that
    media type, which also becomes the charset of the object (the text
    alone when the table gives none); a text with a charset fragment is
    stored as it is and the charset of the object is left alone.  An array
    raises InvalidArgumentException, whatever the object. *)
Theorem setHeader_content_type_charset (key : string) (r : Response) :
  toLowerCase key = "content-type" ->
  (_headers r = None ->
   forall s : string,
     fst (setHeader key (JStr s) r) = Throw TypeError /\
     _headers (snd (setHeader key (JStr s) r)) = None) /\
  (forall (content : JsValue) (status : Z) (first : string * JsValue) (s : string),
     100 <= status < 600 ->
     fst (constructor content status [first; (key, JStr s)]) = Throw TypeError) /\
  (forall (h : HeaderBag) (fallback : JsValue),
     _headers r = Some h ->
     (forall s type trail params cs : string,
        s = type +:+ trail +:+ params ->
        isBareMediaType type = true -> allSpace trail = true ->
        params = "" \/ startsWith ";" params = true ->
        ~ hasCharsetFragment s ->
        mime_charsets_lookup type = Some cs -> cs <> "" ->
        storedAsIs (s +:+ "; charset=" +:+ toLowerCase cs) = true ->
        exists r',
          setHeader key (JStr s) r = (Normal tt, r') /\
          getHeader "Content-Type" fallback r' =
            (Normal (JStr (s +:+ "; charset=" +:+ toLowerCase cs)), r') /\
          _charset r' = Some cs) /\
     (forall s type trail params : string,
        s = type +:+ trail +:+ params ->
        isBareMediaType type = true -> allSpace trail = true ->
        params = "" \/ startsWith ";" params = true ->
        ~ hasCharsetFragment s ->
        mime_charsets_lookup type = None ->
        storedAsIs s = true ->
        exists r',
          setHeader key (JStr s) r = (Normal tt, r') /\
          getHeader "Content-Type" fallback r' = (Normal (JStr s), r') /\
          _charset r' = None) /\
     (forall s : string,
        hasCharsetFragment s ->
        storedAsIs s = true ->
        exists r',
          setHeader key (JStr s) r = (Normal tt, r') /\
          getHeader "Content-Type" fallback r' = (Normal (JStr s), r') /\
          _charset r' = _charset r)) /\
  (forall items : list JsValue,
     setHeader key (JArr items) r = (Throw InvalidArgumentException, r)).
Proof.
  intros K. split; [|split; [|split]].
  - intros E s. now apply setHeader_content_type_without_bag.
  - intros content status [name value] s R.
    unfold constructor. unfold bind at 1. rewrite setStatus_unfold.
    assert (V : (status <? 100) || (600 <=? status) = false).
    { apply orb_false_iff. split; [apply Z.ltb_ge | apply Z.leb_gt]; lia. }
    rewrite V. cbv iota.
    set (r0 := set_statusMessage _ _).
    destruct (setHeader_content_type_without_bag key s r0 eq_refl K) as [T _].
    cbn [setHeaders reduce_setHeader]. unfold bind at 1. unfold bind at 1.
    destruct (setHeader key (JStr s) r0) as [[[]|e] r1]; cbn [fst] in *;
      [discriminate T | exact T].
  - intros h fallback E. split; [|split].
    + intros s type trail params cs -> T A P F L N _.
      destruct (setHeader_content_type_read_back key (type +:+ trail +:+ params)
                  fallback r h E K) as (r' & S & G & C).
      assert (F' : charsetRegExp_test (type +:+ trail +:+ params) = false).
      { destruct (charsetRegExp_test _) eqn:X; [|reflexivity].
        now apply charsetRegExp_test_spec in X. }
      rewrite F', (trim_split_shift_media_type type trail params T A P), L in *.
      exists r'. split; [exact S|]. split; [|exact C].
      rewrite G. unfold charsetSuffix.
      destruct (String.eqb_spec cs ""); [contradiction | reflexivity].
    + intros s type trail params -> T A P F L _.
      destruct (setHeader_content_type_read_back key (type +:+ trail +:+ params)
                  fallback r h E K) as (r' & S & G & C).
      assert (F' : charsetRegExp_test (type +:+ trail +:+ params) = false).
      { destruct (charsetRegExp_test _) eqn:X; [|reflexivity].
        now apply charsetRegExp_test_spec in X. }
      rewrite F', (trim_split_shift_media_type type trail params T A P), L in *.
      exists r'. split; [exact S|]. split; [|exact C].
      rewrite G. unfold charsetSuffix. now rewrite append_empty_r.
    + intros s F _.
      destruct (setHeader_content_type_read_back key s fallback r h E K) as (r' & S & G & C).
      apply charsetRegExp_test_spec in F. rewrite F in *.
      exists r'. now repeat split.
  - intros items. now apply setHeader_array_content_type.
Qed.

(** ** Construction *)

Lemma setHeader_without_bag (key : string) (value : JsValue) (r : Response) :
  _headers r = None ->
  exists e r', setHeader key value r = (Throw e, r').
Proof.
  intros E. unfold setHeader.
  destruct (String.eqb (toLowerCase key) "content-type").
  - destruct (coerceHeaderValue value) as [s|l].
    + destruct (negb (charsetRegExp_test s)).
      * unfold bind at 1, modify.
        rewrite storeHeader_none by exact E. eauto.
      * rewrite storeHeader_none by exact E. eauto.
    + unfold throw. eauto.
  - rewrite storeHeader_none by exact E. eauto.
Qed.

Lemma setHeaders_without_bag (values : list (string * JsValue)) (r : Response) :
  _headers r = None ->
  (exists e r', setHeaders values r = (Throw e, r')) \/
  (exists v, setHeaders values r = (Normal (Other v), r)).
Proof.
  intros E. destruct values as [|[key value] rest]; cbn.
  - left. unfold throw. eauto.
  - destruct rest as [|[key' value'] rest]; cbn.
    + right. unfold ret. eauto.
    + left. destruct (setHeader_without_bag key' value' r E) as (e & r' & T).
      rewrite (bind_throw _ _ _ _ _ T). eauto.
Qed.

(** The constructor returns for no content, status and plain headers
    object at all. *)
Lemma constructor_never_returns (content : JsValue) (status : Z)
    (values : list (string * JsValue)) :
  exists e, fst (constructor content status values) = Throw e.
Proof.
  unfold constructor. unfold bind at 1. rewrite setStatus_unfold.
  destruct ((status <? 100) || (600 <=? status)); [cbn; eauto|].
  set (r := set_statusMessage _ _).
  assert (E : _headers r = None) by reflexivity.
  destruct (setHeaders_without_bag values r E) as [(e & r' & T) | (v & T)].
  - rewrite (bind_throw _ _ _ _ _ T). cbn. eauto.
  - rewrite (bind_normal _ _ _ _ _ T). cbn. eauto.
Qed.

(** C1, as the code has it: with status 200 and the default empty headers
    object the constructor throws a TypeError out of [setHeaders], after
    the status was validated and before any content is assigned; the
    header bag and the cookie collection are never created. *)
Theorem constructor_default_headers_throws (content : JsValue) :
  fst (constructor content 200 []) = Throw TypeError /\
  _statusCode (snd (constructor content 200 [])) = Some 200 /\
  _headers (snd (constructor content 200 [])) = None /\
  _content (snd (constructor content 200 [])) = JUndefined /\
  cookieCollection (snd (constructor content 200 [])) = None.
Proof.
  unfold constructor. unfold bind at 1. rewrite setStatus_unfold.
  change ((200 <? 100) || (600 <=? 200)) with false. cbv iota.
  repeat split.
Qed.

(** ** Content *)

(** [null] has the run-time shape of an object, so it takes the JSON path. *)
Lemma shouldBeJson_null : _shouldBeJson JNull = true.
Proof. reflexivity. Qed.

Lemma shouldBeJson_undefined : _shouldBeJson JUndefined = false.
Proof. reflexivity. Qed.

Lemma app_some (r : Response) (a : App) :
  appResolver r = Some a -> app r = (Normal a, r).
Proof. intros E. unfold app, bind, get, ret. now rewrite E. Qed.

Lemma morphToJson_without_app (v : JsValue) (r : Response) :
  appResolver r = None ->
  _morphToJson v r = (Throw InvalidArgumentException, r).
Proof.
  intros E. unfold _morphToJson, rethrow, app, bind, get, throw.
  now rewrite E.
Qed.

Lemma morphToJson_with_app (v : JsValue) (r : Response) (a : App) :
  appResolver r = Some a ->
  _morphToJson v r =
  match stringify v (App_get "http.json.replacer" a) (App_get "http.json.spaces" a)
          (App_get "http.json.escape" a) with
  | Normal text => (Normal text, r)
  | Throw _ => (Throw InvalidArgumentException, r)
  end.
Proof.
  intros E. unfold _morphToJson, rethrow.
  do 3 rewrite (bind_normal _ _ _ _ _ (app_some r a E)).
  unfold lift. now destruct (stringify v _ _ _).
Qed.

(** What [setContent(null)] does, for any host: it throws when no
    application resolver is set, and otherwise stores whatever
    [JSON.stringify] makes of [null]. *)
Lemma setContent_null (r : Response) :
  setContent JNull r =
  match appResolver r with
  | None => (Throw InvalidArgumentException, r)
  | Some a =>
      match stringify JNull (App_get "http.json.replacer" a)
              (App_get "http.json.spaces" a) (App_get "http.json.escape" a) with
      | Normal text => (Normal tt, set_originalContent JNull (set_content text r))
      | Throw _ => (Throw InvalidArgumentException, r)
      end
  end.
Proof.
  unfold setContent. rewrite shouldBeJson_null. unfold bind.
  destruct (appResolver r) as [a|] eqn:E.
  - rewrite (morphToJson_with_app JNull r a E).
    now destruct (stringify JNull _ _ _).
  - now rewrite (morphToJson_without_app JNull r E).
Qed.

(** A value that takes the JSON path is stored as [stringify] returns it. *)
Lemma setContent_json (v : JsValue) (r : Response) (a : App) :
  _shouldBeJson v = true -> appResolver r = Some a ->
  setContent v r =
  match stringify v (App_get "http.json.replacer" a) (App_get "http.json.spaces" a)
          (App_get "http.json.escape" a) with
  | Normal text => (Normal tt, set_originalContent v (set_content text r))
  | Throw _ => (Throw InvalidArgumentException, r)
  end.
Proof.
  intros J E. unfold setContent. rewrite J. unfold bind.
  rewrite (morphToJson_with_app v r a E).
  now destruct (stringify v _ _ _).
Qed.

(** Any other value is stored verbatim, [undefined] as the empty string. *)
Lemma setContent_verbatim (v : JsValue) (r : Response) :
  _shouldBeJson v = false ->
  setContent v r = (Normal tt, set_originalContent v (set_content (coalesce v (JStr "")) r)).
Proof.
  intros J. unfold setContent. now rewrite J.
Qed.

(** ** The status branch of [prepare] *)

Lemma set_headers_same (r : Response) (h : HeaderBag) :
  _headers r = Some h -> set_headers (Some h) r = r.
Proof. intros E. destruct r. cbn in E. now subst. Qed.

Lemma removeHeader_some (keys : list string) (r : Response) (h : HeaderBag) :
  _headers r = Some h ->
  removeHeader keys r =
  (Normal tt, set_headers (Some (fold_left (fun b k => Headers_delete k b) keys h)) r).
Proof.
  revert r h. induction keys as [|k keys IH]; intros r h E.
  - cbn. unfold ret. now rewrite set_headers_same.
  - cbn [removeHeader fold_left].
    rewrite (bind_normal _ _ _ _ _ (headers_some r h E)).
    unfold bind at 1, modify.
    now rewrite (IH (set_headers (Some (Headers_delete k h)) r) (Headers_delete k h)).
Qed.

(** At an informational or empty-body status the branch removes the three
    framing headers and stores the JSON text of [null] as content. *)
Lemma frameByStatus_no_body (r : Response) (h : HeaderBag) (a : App) :
  _headers r = Some h -> appResolver r = Some a ->
  isInformational r || isEmpty r = true ->
  frameByStatus r =
  match stringify JNull (App_get "http.json.replacer" a) (App_get "http.json.spaces" a)
          (App_get "http.json.escape" a) with
  | Normal text =>
      (Normal tt,
       set_headers
         (Some (Headers_delete "Transfer-Encoding"
                  (Headers_delete "Content-Length" (Headers_delete "Content-Type" h))))
         (set_originalContent JNull (set_content text r)))
  | Throw _ => (Throw InvalidArgumentException, r)
  end.
Proof.
  intros E A S. unfold frameByStatus, bind at 1, get. rewrite S.
  unfold bind at 1. rewrite setContent_null, A.
  destruct (stringify JNull _ _ _) as [text|e]; [|reflexivity].
  now rewrite (removeHeader_some _ _ h).
Qed.

(** At 205 it writes Content-Length "0", removes Transfer-Encoding, and
    stores the same text. *)
Lemma frameByStatus_reset (r : Response) (h : HeaderBag) (a : App) :
  _headers r = Some h -> appResolver r = Some a ->
  isInformational r || isEmpty r = false -> isResetContent r = true ->
  frameByStatus r =
  match stringify JNull (App_get "http.json.replacer" a) (App_get "http.json.spaces" a)
          (App_get "http.json.escape" a) with
  | Normal text =>
      (Normal tt,
       set_headers
         (Some (Headers_delete "Transfer-Encoding"
                  (Headers_set "Content-Length" (HStr "0") h)))
         (set_originalContent JNull (set_content text r)))
  | Throw _ => (Throw InvalidArgumentException, r)
  end.
Proof.
  intros E A S R. unfold frameByStatus, bind at 1, get. rewrite S, R.
  unfold bind at 1. rewrite setContent_null, A.
  destruct (stringify JNull _ _ _) as [text|e]; [|reflexivity].
  set (r1 := set_originalContent JNull (set_content text r)).
  assert (E1 : _headers r1 = Some h) by exact E.
  unfold bind at 1. unfold setHeader.
  destruct (String.eqb (toLowerCase "Content-Length") "content-type") eqn:K.
  - vm_compute in K. discriminate K.
  - cbn [coerceHeaderValue String_].
    rewrite (storeHeader_some "Content-Length" (HStr "0") r1 h E1).
    now rewrite (removeHeader_some _ _ (Headers_set "Content-Length" (HStr "0") h)).
Qed.

(** The three framing headers are absent from the bag the first branch
    leaves. *)
Lemma framing_headers_absent (h : HeaderBag) :
  let h' := Headers_delete "Transfer-Encoding"
              (Headers_delete "Content-Length" (Headers_delete "Content-Type" h)) in
  Headers_has "Content-Type" h' = false /\
  Headers_has "Content-Length" h' = false /\
  Headers_has "Transfer-Encoding" h' = false.
Proof.
  cbv zeta. unfold Headers_has, Headers_delete.
  assert (N1 : toLowerCase "Transfer-Encoding" <> toLowerCase "Content-Type").
  { intros K. vm_compute in K. discriminate K. }
  assert (N2 : toLowerCase "Content-Length" <> toLowerCase "Content-Type").
  { intros K. vm_compute in K. discriminate K. }
  assert (N3 : toLowerCase "Transfer-Encoding" <> toLowerCase "Content-Length").
  { intros K. vm_compute in K. discriminate K. }
  repeat split.
  - now rewrite lookup_delete_ne, lookup_delete_ne, lookup_delete_eq.
  - now rewrite lookup_delete_ne, lookup_delete_eq.
  - now rewrite lookup_delete_eq.
Qed.

(** *** Methods that leave the status alone *)

Lemma keepsStatus_ret {A} (a : A) : keepsStatus (ret a).
Proof. intros r o r' E. now inversion E. Qed.

Lemma keepsStatus_throw {A} (e : Exception) : keepsStatus (@throw A e).
Proof. intros r o r' E. now inversion E. Qed.

Lemma keepsStatus_lift {A} (x : Outcome A) : keepsStatus (lift x).
Proof. intros r o r' E. now inversion E. Qed.

Lemma keepsStatus_get : keepsStatus get.
Proof. intros r o r' E. now inversion E. Qed.

Lemma keepsStatus_modify (f : Response -> Response) :
  (forall r, _statusCode (f r) = _statusCode r) -> keepsStatus (modify f).
Proof. intros F r o r' E. inversion E. apply F. Qed.

Lemma keepsStatus_bind {A B} (m : Method A) (k : A -> Method B) :
  keepsStatus m -> (forall a, keepsStatus (k a)) -> keepsStatus (bind m k).
Proof.
  intros M K r o r' E. unfold bind in E.
  destruct (m r) as [[a|e] r1] eqn:E1.
  - rewrite (K a r1 o r' E). exact (M r _ r1 E1).
  - inversion E. subst. exact (M r _ r' E1).
Qed.

Lemma keepsStatus_rethrow {A} (e : Exception) (m : Method A) :
  keepsStatus m -> keepsStatus (rethrow e m).
Proof.
  intros M r o r' E. unfold rethrow in E.
  destruct (m r) as [[a|e'] r1] eqn:E1; inversion E; subst; exact (M r _ r' E1).
Qed.

Create HintDb keeps.
#[local] Hint Resolve keepsStatus_ret keepsStatus_throw keepsStatus_lift keepsStatus_get
  keepsStatus_bind keepsStatus_rethrow : keeps.

Ltac keeps :=
  repeat first
    [ progress intros
    | solve [auto with keeps]
    | apply keepsStatus_bind
    | apply keepsStatus_ret
    | apply keepsStatus_throw
    | apply keepsStatus_lift
    | apply keepsStatus_get
    | apply keepsStatus_rethrow
    | apply keepsStatus_modify; intros;
      repeat match goal with
             | |- context [match ?x with _ => _ end] => destruct x
             end; reflexivity
    | match goal with
      | |- keepsStatus (if ?b then _ else _) => destruct b
      | |- keepsStatus (match ?x with _ => _ end) => destruct x
      end ].

Lemma keepsStatus_headers : keepsStatus headers.
Proof. unfold headers. keeps. Qed.

Lemma keepsStatus_app : keepsStatus app.
Proof. unfold app. keeps. Qed.

Lemma keepsStatus_request : keepsStatus request.
Proof. unfold request. keeps. Qed.

#[local] Hint Resolve keepsStatus_headers keepsStatus_app keepsStatus_request : keeps.

Lemma keepsStatus_storeHeader (key : string) (v : HeaderValue) :
  keepsStatus (storeHeader key v).
Proof. unfold storeHeader. keeps. Qed.

#[local] Hint Resolve keepsStatus_storeHeader : keeps.

Lemma keepsStatus_setHeader (key : string) (value : JsValue) :
  keepsStatus (setHeader key value).
Proof. unfold setHeader. keeps. Qed.

Lemma keepsStatus_removeHeader (keys : list string) : keepsStatus (removeHeader keys).
Proof. induction keys as [|k keys IH]; cbn [removeHeader]; keeps. Qed.

Lemma keepsStatus_setContent (value : JsValue) : keepsStatus (setContent value).
Proof. unfold setContent, _morphToJson. keeps. Qed.

#[local] Hint Resolve keepsStatus_setHeader keepsStatus_removeHeader
  keepsStatus_setContent : keeps.

Lemma keepsStatus_prepareBody : keepsStatus prepareBody.
Proof.
  unfold prepareBody, getHeader, hasHeader, setContentType, callEtagFn, contentLength.
  keeps.
Qed.

#[local] Hint Resolve keepsStatus_prepareBody : keeps.

Lemma keepsStatus_frameByStatus : keepsStatus frameByStatus.
Proof. unfold frameByStatus. keeps. Qed.

Lemma removeHeader_none (key : string) (keys : list string) (r : Response) :
  _headers r = None -> removeHeader (key :: keys) r = (Throw TypeError, r).
Proof.
  intros E. cbn [removeHeader].
  now rewrite (bind_throw _ _ _ _ _ (headers_none r E)).
Qed.

(** When the branch returns at an informational or empty-body status, it
    has taken its first arm, on an object that had a header bag and an
    application resolver. *)
Lemma frameByStatus_no_body_inv (rb rc : Response) :
  frameByStatus rb = (Normal tt, rc) ->
  isInformational rc || isEmpty rc = true ->
  exists h a text,
    _headers rb = Some h /\ appResolver rb = Some a /\
    stringify JNull (App_get "http.json.replacer" a)
      (App_get "http.json.spaces" a) (App_get "http.json.escape" a) = Normal text /\
    rc = set_headers
           (Some (Headers_delete "Transfer-Encoding"
                    (Headers_delete "Content-Length" (Headers_delete "Content-Type" h))))
           (set_originalContent JNull (set_content text rb)).
Proof.
  intros F Sc.
  assert (St : _statusCode rc = _statusCode rb) by exact (keepsStatus_frameByStatus _ _ _ F).
  assert (Sb : isInformational rb || isEmpty rb = true).
  { unfold isInformational, isEmpty, statusIn, statusIncluded in *. now rewrite <- St. }
  destruct (appResolver rb) as [a|] eqn:Ea.
  - destruct (_headers rb) as [h|] eqn:Eh.
    + rewrite (frameByStatus_no_body rb h a Eh Ea Sb) in F.
      destruct (stringify JNull _ _ _) as [text|e] eqn:T; [|discriminate].
      inversion F. exists h, a, text. repeat split; assumption.
    + unfold frameByStatus, bind at 1, get in F. rewrite Sb in F.
      unfold bind at 1 in F. rewrite setContent_null, Ea in F.
      destruct (stringify JNull _ _ _) as [text|e]; [|discriminate].
      rewrite removeHeader_none in F by exact Eh. discriminate.
  - unfold frameByStatus, bind at 1, get in F. rewrite Sb in F.
    unfold bind at 1 in F. rewrite setContent_null, Ea in F. discriminate.
Qed.

(** When it returns at 205, it has taken its second arm. *)
Lemma frameByStatus_reset_inv (rb rc : Response) :
  frameByStatus rb = (Normal tt, rc) ->
  isResetContent rc = true ->
  exists h a text,
    _headers rb = Some h /\ appResolver rb = Some a /\
    stringify JNull (App_get "http.json.replacer" a)
      (App_get "http.json.spaces" a) (App_get "http.json.escape" a) = Normal text /\
    rc = set_headers
           (Some (Headers_delete "Transfer-Encoding"
                    (Headers_set "Content-Length" (HStr "0") h)))
           (set_originalContent JNull (set_content text rb)).
Proof.
  intros F Sc.
  assert (St : _statusCode rc = _statusCode rb) by exact (keepsStatus_frameByStatus _ _ _ F).
  assert (Sb : isResetContent rb = true).
  { unfold isResetContent, statusIncluded in *. now rewrite <- St. }
  assert (Nb : isInformational rb || isEmpty rb = false).
  { unfold isResetContent, isInformational, isEmpty, statusIn, statusIncluded in *.
    destruct (_statusCode rb) as [c|]; [|reflexivity].
    cbn [existsb] in Sb. rewrite orb_false_r in Sb. apply Z.eqb_eq in Sb. now subst c. }
  destruct (appResolver rb) as [a|] eqn:Ea.
  - destruct (_headers rb) as [h|] eqn:Eh.
    + rewrite (frameByStatus_reset rb h a Eh Ea Nb Sb) in F.
      destruct (stringify JNull _ _ _) as [text|e] eqn:T; [|discriminate].
      inversion F. exists h, a, text. repeat split; assumption.
    + unfold frameByStatus, bind at 1, get in F. rewrite Nb, Sb in F.
      unfold bind at 1 in F. rewrite setContent_null, Ea in F.
      destruct (stringify JNull _ _ _) as [text|e]; [|discriminate].
      unfold bind at 1, setHeader in F.
      change (String.eqb (toLowerCase "Content-Length") "content-type") with false in F.
      cbv iota in F. rewrite storeHeader_none in F by exact Eh. discriminate.
  - unfold frameByStatus, bind at 1, get in F. rewrite Nb, Sb in F.
    unfold bind at 1 in F. rewrite setContent_null, Ea in F. discriminate.
Qed.

(** *** [prepare] as a whole *)

Lemma request_inv (r : Response) (q : Request) (r1 : Response) :
  request r = (Normal q, r1) -> r1 = r.
Proof.
  unfold request, bind, get, ret, throw.
  destruct (requestResolver r); intros E; now inversion E.
Qed.

Lemma sameBody_refl (r : Response) : sameBody r r.
Proof. repeat split. intros h E. now exists h. Qed.

Lemma sameBody_trans (r1 r2 r3 : Response) :
  sameBody r1 r2 -> sameBody r2 r3 -> sameBody r1 r3.
Proof.
  intros (C1 & S1 & A1 & H1) (C2 & S2 & A2 & H2). repeat split; try congruence.
  intros h1 E1. destruct (H1 h1 E1) as (h2 & E2 & K2).
  destruct (H2 h2 E2) as (h3 & E3 & K3).
  exists h3. split; [exact E3|]. intros key N. now rewrite K3, K2.
Qed.

Lemma secureCookies_sameBody (value : bool) (r1 r2 : Response) :
  secureCookies value r1 = (Normal tt, r2) -> sameBody r1 r2.
Proof.
  unfold secureCookies, bind at 1, get.
  destruct (cookieCollection r1) as [jar|]; [|discriminate].
  unfold bind at 1, modify, setHeader.
  change (String.eqb (toLowerCase "Set-Cookie") "content-type") with false. cbv iota.
  set (r' := set_cookieCollection _ r1).
  destruct (_headers r1) as [h|] eqn:E.
  - rewrite (storeHeader_some _ _ r' h E). intros T. inversion T. subst r2.
    repeat split. intros h1 E1. cbn in E1. rewrite E in E1. inversion E1. subst h1.
    eexists. split; [reflexivity|]. intros key N.
    unfold Headers_set. rewrite lookup_insert_ne; [reflexivity|].
    intros K. apply N. now rewrite <- K.
  - rewrite (storeHeader_none _ _ r' E). discriminate.
Qed.

(** The steps of [prepare] around the status branch. *)
Lemma prepare_inv (req : Request) (r r' : Response) :
  prepare req r = (Normal tt, r') ->
  exists rb rc, frameByStatus rb = (Normal tt, rc) /\ sameBody rc r'.
Proof.
  unfold prepare. intros P.
  apply bind_inv_normal in P as (? & r1 & _ & P).
  apply bind_inv_normal in P as (? & r2 & _ & P).
  apply bind_inv_normal in P as (? & r3 & _ & P).
  apply bind_inv_normal in P as (? & r4 & _ & P).
  apply bind_inv_normal in P as (? & r5 & _ & P).
  apply bind_inv_normal in P as (? & rb & _ & P).
  apply bind_inv_normal in P as ([] & rc & F & P).
  apply bind_inv_normal in P as (q1 & r6 & Q1 & P).
  apply request_inv in Q1. subst r6.
  apply bind_inv_normal in P as (? & rd & V & P).
  apply bind_inv_normal in P as (q2 & r7 & Q2 & P).
  apply request_inv in Q2. subst r7.
  exists rb, rc. split; [exact F|].
  apply (sameBody_trans rc rd r').
  - destruct (differsFrom _ _).
    + unfold setProtocolVersion, modify in V. inversion V. repeat split.
      intros h1 E1. now exists h1.
    + unfold ret in V. inversion V. apply sameBody_refl.
  - destruct (request_secure q2).
    + now apply secureCookies_sameBody in P.
    + unfold ret in P. inversion P. apply sameBody_refl.
Qed.

Lemma sameBody_contentIsJsonOfNull (rb rc r' : Response) (a : App) (text : JsValue)
    (h : option HeaderBag) :
  appResolver rb = Some a ->
  stringify JNull (App_get "http.json.replacer" a) (App_get "http.json.spaces" a)
    (App_get "http.json.escape" a) = Normal text ->
  rc = set_headers h (set_originalContent JNull (set_content text rb)) ->
  sameBody rc r' ->
  contentIsJsonOfNull r'.
Proof.
  intros Ea T -> (C & _ & A & _). exists a, text.
  rewrite A, C. repeat split; assumption.
Qed.

(** C2, as the code has it, for every host, request and object on which
    [prepare] returns.  When the status it leaves is informational, 204 or
    304, the headers Content-Type, Content-Length and Transfer-Encoding
    are absent; when it is 205, Content-Length is "0" and
    Transfer-Encoding is absent.  In both cases the content is not
    dropped: it is the text that [stringify] made of [null] under the
    application's JSON options. *)
Theorem prepare_no_body_status (req : Request) (r r' : Response) :
  prepare req r = (Normal tt, r') ->
  (isInformational r' || isEmpty r' = true ->
     contentIsJsonOfNull r' /\
     exists h', _headers r' = Some h' /\
       Headers_has "Content-Type" h' = false /\
       Headers_has "Content-Length" h' = false /\
       Headers_has "Transfer-Encoding" h' = false) /\
  (isResetContent r' = true ->
     contentIsJsonOfNull r' /\
     exists h', _headers r' = Some h' /\
       Headers_get "Content-Length" h' = JStr "0" /\
       Headers_has "Transfer-Encoding" h' = false).
Proof.
  intros P. destruct (prepare_inv req r r' P) as (rb & rc & F & B).
  assert (St : _statusCode r' = _statusCode rc) by apply B.
  split; intros S.
  - assert (Sc : isInformational rc || isEmpty rc = true).
    { unfold isInformational, isEmpty, statusIn, statusIncluded in *. now rewrite <- St. }
    destruct (frameByStatus_no_body_inv rb rc F Sc) as (h & a & text & Eh & Ea & T & E).
    split; [exact (sameBody_contentIsJsonOfNull rb rc r' a text _ Ea T E B)|].
    subst rc. destruct B as (_ & _ & _ & H).
    destruct (H _ eq_refl) as (h' & E' & K).
    exists h'. split; [exact E'|].
    destruct (framing_headers_absent h) as (F1 & F2 & F3).
    unfold Headers_has in *.
    rewrite !K; [auto | | |]; intros N; vm_compute in N; discriminate N.
  - assert (Sc : isResetContent rc = true).
    { unfold isResetContent, statusIncluded in *. now rewrite <- St. }
    destruct (frameByStatus_reset_inv rb rc F Sc) as (h & a & text & Eh & Ea & T & E).
    split; [exact (sameBody_contentIsJsonOfNull rb rc r' a text _ Ea T E B)|].
    subst rc. destruct B as (_ & _ & _ & H).
    destruct (H _ eq_refl) as (h' & E' & K).
    exists h'. split; [exact E'|].
    unfold Headers_get, Headers_has.
    rewrite !K by (intros N; vm_compute in N; discriminate N).
    unfold Headers_delete, Headers_set. split.
    + rewrite lookup_delete_ne by (intros N; vm_compute in N; discriminate N).
      now rewrite lookup_insert_eq.
    + now rewrite lookup_delete_eq.
Qed.

(** ** Cache *)

Lemma directives_some (r : Response) (m : JsMap) :
  headerCacheControl r = Some m -> directives r = (Normal m, r).
Proof. intros E. unfold directives, bind, get, ret. now rewrite E. Qed.

(** [getAge] takes the branches the wrong way round: without an Age header
    it parses the absent header, which is [NaN]. *)
Lemma getAge_without_Age (r : Response) (h : HeaderBag) :
  _headers r = Some h -> Headers_has "Age" h = false ->
  getAge r = (Normal JNaN, r).
Proof.
  intros E A. unfold getAge.
  rewrite (bind_normal _ _ _ _ _ (headers_some r h E)), A. cbn [negb].
  rewrite (bind_normal _ _ _ _ _ (headers_some r h E)).
  unfold Headers_get. unfold Headers_has in A.
  destruct (h !! toLowerCase "Age"); [discriminate | reflexivity].
Qed.

(** With an Age header it asks the Date header, a string or [null], for its
    [getTime] method. *)
Lemma getAge_with_Age (r : Response) (h : HeaderBag) :
  _headers r = Some h -> Headers_has "Age" h = true ->
  getAge r = (Throw TypeError, r).
Proof.
  intros E A. unfold getAge.
  rewrite (bind_normal _ _ _ _ _ (headers_some r h E)), A. cbn [negb].
  unfold getDate.
  rewrite (bind_normal _ _ _ _ _
             (bind_normal _ _ _ _ _ (headers_some r h E))).
  reflexivity.
Qed.

Lemma getMaxAge_max_age (r : Response) (m : JsMap) :
  headerCacheControl r = Some m ->
  Map_has "s-maxage" m = false -> Map_has "max-age" m = true ->
  getMaxAge r = (Normal (parseInt (Map_get "max-age" m)), r).
Proof.
  intros E S M. unfold getMaxAge, hasHeaderCacheControlDirective,
    getHeaderCacheControlDirective.
  rewrite (bind_normal _ _ _ _ _ (bind_normal _ _ _ _ _ (directives_some r m E))).
  unfold ret at 1. rewrite S.
  rewrite (bind_normal _ _ _ _ _ (bind_normal _ _ _ _ _ (directives_some r m E))).
  unfold ret at 1. rewrite M.
  rewrite (bind_normal _ _ _ _ _ (bind_normal _ _ _ _ _ (directives_some r m E))).
  reflexivity.
Qed.

(** A status of the list leaves [isCacheable] no other answer than false. *)
Lemma isCacheable_listed_status (r : Response) :
  statusIncluded [200; 203; 300; 301; 302; 404; 410] r = true ->
  isCacheable r = (Normal false, r).
Proof.
  intros E. unfold isCacheable, bind at 1, get. now rewrite E.
Qed.

(** The two helpers call a method the class does not have. *)
Lemma setPublic_throws (r : Response) : setPublic r = (Throw TypeError, r).
Proof. reflexivity. Qed.

Lemma setPrivate_throws (r : Response) : setPrivate r = (Throw TypeError, r).
Proof. reflexivity. Qed.

Lemma setSharedMaxAge_throws (value : JsValue) (r : Response) :
  setSharedMaxAge value r = (Throw TypeError, r).
Proof. reflexivity. Qed.

Lemma setImmutable_false_throws (r : Response) :
  setImmutable false r = (Throw TypeError, r).
Proof. reflexivity. Qed.

(** A boolean directive contributes a separator and no name. *)
Lemma renderDirective_boolean (prev key : string) :
  renderDirective prev (key, JBool true) = prev +:+ ", ".
Proof. reflexivity. Qed.

(** The header after [addHeaderCacheControlDirective], for any directive
    map the object holds ([undefined] counts as empty). *)
Lemma addHeaderCacheControlDirective_header (key : string) (value : JsValue)
    (r : Response) (h : HeaderBag) :
  _headers r = Some h ->
  let m := Map_set key value
             (match headerCacheControl r with Some m0 => m0 | None => [] end) in
  addHeaderCacheControlDirective key value r =
  (Normal tt,
   set_headers (Some (<["cache-control" := HStr (fold_left renderDirective m "")]> h))
     (set_headerCacheControl (Some m) r)).
Proof.
  intros E m. unfold addHeaderCacheControlDirective.
  unfold bind at 1, modify.
  set (m0 := match headerCacheControl r with Some m0 => m0 | None => [] end) in *.
  set (r1 := match headerCacheControl r with
             | Some _ => r
             | None => set_headerCacheControl (Some []) r
             end).
  assert (D1 : headerCacheControl r1 = Some m0).
  { subst r1 m0. destruct (headerCacheControl r) eqn:D; [exact D | reflexivity]. }
  assert (R1 : set_headerCacheControl (Some m) r1 = set_headerCacheControl (Some m) r).
  { subst r1. now destruct (headerCacheControl r). }
  rewrite (bind_normal _ _ _ _ _ (directives_some r1 m0 D1)).
  unfold bind at 1, modify. fold m. rewrite R1.
  set (r2 := set_headerCacheControl (Some m) r).
  unfold getHeaderCacheControlHeader.
  rewrite (bind_normal _ _ _ _ _
             (bind_normal _ _ _ _ _ (directives_some r2 m eq_refl))).
  unfold ret, setHeader.
  change (String.eqb (toLowerCase "Cache-Control") "content-type") with false. cbv iota.
  cbn [coerceHeaderValue String_].
  now rewrite (storeHeader_some "Cache-Control" _ r2 h E).
Qed.

Lemma startsWith_append (p s t : string) :
  startsWith p s = true -> startsWith p (s +:+ t) = true.
Proof.
  unfold startsWith. revert s. induction p as [|a p IH]; intros s.
  - reflexivity.
  - destruct s as [|b s]; [discriminate|].
    change (String b s +:+ t) with (String b (s +:+ t)). cbn [stripPrefix].
    destruct (Ascii.eqb a b); [apply IH | discriminate].
Qed.

Lemma renderDirective_append (prev : string) (entry : string * JsValue) :
  exists tail, renderDirective prev entry = prev +:+ tail.
Proof.
  destruct entry as [key value]. unfold renderDirective.
  assert (G : exists tail, prev +:+ ", " +:+ key +:+ "=" +:+ String_ value = prev +:+ tail)
    by eauto.
  destruct value as [| |[|]| | | | | | |]; eauto.
Qed.

Lemma render_keeps_prefix (p : string) (m : JsMap) (prev : string) :
  startsWith p prev = true -> startsWith p (fold_left renderDirective m prev) = true.
Proof.
  revert prev. induction m as [|entry m IH]; intros prev S; [exact S|].
  cbn [fold_left]. apply IH.
  destruct (renderDirective_append prev entry) as (tail & ->).
  now apply startsWith_append.
Qed.

(** Whatever the directives, a non-empty set renders with a leading
    separator: the header is never the plain comma-joined list. *)
Lemma render_leading_separator (entry : string * JsValue) (m : JsMap) :
  startsWith ", " (fold_left renderDirective (entry :: m) "") = true.
Proof.
  cbn [fold_left]. apply render_keeps_prefix.
  destruct entry as [key value].
  destruct value as [| |[|]| | | | | | |]; reflexivity.
Qed.

(** [setCache] compares the wrong way round: it throws as soon as one
    recognised key is absent from the options. *)
Lemma setCache_missing_key (options : list (string * JsValue)) (key : string) (r : Response) :
  In key (map fst HTTP_RESPONSE_CACHE_CONTROL_DIRECTIVES) ->
  existsb (String.eqb key) (map fst options) = false ->
  setCache options r = (Throw InvalidArgumentException, r).
Proof.
  intros I N. unfold setCache.
  set (diff := List.filter _ _).
  assert (D : In key diff).
  { apply filter_In. split; [exact I | now rewrite N]. }
  destruct diff as [|d diff']; [destruct D|].
  reflexivity.
Qed.

(** An unrecognised key alone is never a reason to throw: with the
    fourteen recognised keys present the validation passes, whatever else
    the options hold. *)
Lemma setCache_validation_passes (options : list (string * JsValue)) :
  forallb (fun key => existsb (String.eqb key) (map fst options))
          (map fst HTTP_RESPONSE_CACHE_CONTROL_DIRECTIVES) = true ->
  List.filter (fun curr => negb (existsb (String.eqb curr) (map fst options)))
         (map fst HTTP_RESPONSE_CACHE_CONTROL_DIRECTIVES) = [].
Proof.
  intros A. induction (map fst HTTP_RESPONSE_CACHE_CONTROL_DIRECTIVES) as [|k ks IH].
  - reflexivity.
  - cbn [forallb] in A. apply andb_true_iff in A as [A1 A2].
    cbn [List.filter]. rewrite A1. cbn [negb]. now apply IH.
Qed.

(** C9, as the code has it: an options object that holds only a supported
    key, [{ max_age: 60 }], is rejected with InvalidArgumentException and
    nothing is applied, because the other recognised keys are absent. *)
Theorem setCache_rejects_supported_key_alone (r : Response) :
  setCache [("max_age", JNum 60)] r = (Throw InvalidArgumentException, r).
Proof.
  apply (setCache_missing_key _ "etag").
  - cbn. tauto.
  - reflexivity.
Qed.

(** At status 200 [isCacheable] answers false, whatever validators and
    directives the response carries. *)
Lemma isCacheable_false_at_200 (r : Response) :
  isCacheable (set_statusCode (Some 200) r) = (Normal false, set_statusCode (Some 200) r).
Proof. now apply isCacheable_listed_status. Qed.

End Properties.

(** * Further properties of the class *)

Section OtherProperties.
Context {statuses : StatusTexts} {mime : Mime} {json : Json}
        {buffer : BufferApi} {clock : Clock} {functions : Functions}.

(** ** Frames: what a method leaves alone *)

Lemma preserves_ret {X A} (f : Response -> X) (a : A) : preserves f (ret a).
Proof. intros r o r' E. now inversion E. Qed.

Lemma preserves_throw {X A} (f : Response -> X) (e : Exception) :
  preserves f (@throw A e).
Proof. intros r o r' E. now inversion E. Qed.

Lemma preserves_lift {X A} (f : Response -> X) (x : Outcome A) : preserves f (lift x).
Proof. intros r o r' E. now inversion E. Qed.

Lemma preserves_get {X} (f : Response -> X) : preserves f get.
Proof. intros r o r' E. now inversion E. Qed.

Lemma preserves_modify {X} (f : Response -> X) (g : Response -> Response) :
  (forall r, f (g r) = f r) -> preserves f (modify g).
Proof. intros G r o r' E. inversion E. apply G. Qed.

Lemma preserves_bind {X A B} (f : Response -> X) (m : Method A) (k : A -> Method B) :
  preserves f m -> (forall a, preserves f (k a)) -> preserves f (bind m k).
Proof.
  intros M K r o r' E. unfold bind in E.
  destruct (m r) as [[a|e] r1] eqn:E1.
  - rewrite (K a r1 o r' E). exact (M r _ r1 E1).
  - inversion E. subst. exact (M r _ r' E1).
Qed.

Lemma preserves_rethrow {X A} (f : Response -> X) (e : Exception) (m : Method A) :
  preserves f m -> preserves f (rethrow e m).
Proof.
  intros M r o r' E. unfold rethrow in E.
  destruct (m r) as [[a|e'] r1] eqn:E1; inversion E; subst; exact (M r _ r' E1).
Qed.

Lemma readOnly_preserves {X A} (f : Response -> X) (m : Method A) :
  readOnly m -> preserves f m.
Proof. intros M r o r' E. now rewrite (M r o r' E). Qed.

Lemma preserves_id_readOnly {A} (m : Method A) :
  preserves (fun r => r) m -> readOnly m.
Proof. intros M r o r' E. exact (M r o r' E). Qed.

Create HintDb frame.

Ltac frame :=
  repeat first
    [ progress intros
    | solve [auto with frame]
    | apply preserves_bind
    | apply preserves_ret
    | apply preserves_throw
    | apply preserves_lift
    | apply preserves_get
    | apply preserves_rethrow
    | apply preserves_modify; intros;
      repeat match goal with
             | |- context [match ?x with _ => _ end] => destruct x
             end; reflexivity
    | match goal with
      | |- preserves _ (if ?b then _ else _) => destruct b
      | |- preserves _ (match ?x with _ => _ end) => destruct x
      end ].

(** The accessors write nothing. *)
Lemma readOnly_headers : readOnly headers.
Proof. apply preserves_id_readOnly. unfold headers. frame. Qed.

Lemma readOnly_app : readOnly app.
Proof. apply preserves_id_readOnly. unfold app. frame. Qed.

Lemma readOnly_request : readOnly request.
Proof. apply preserves_id_readOnly. unfold request. frame. Qed.

Lemma readOnly_directives : readOnly directives.
Proof. apply preserves_id_readOnly. unfold directives. frame. Qed.

Lemma preserves_headers {X} (f : Response -> X) : preserves f headers.
Proof. apply readOnly_preserves, readOnly_headers. Qed.

Lemma preserves_app {X} (f : Response -> X) : preserves f app.
Proof. apply readOnly_preserves, readOnly_app. Qed.

Lemma preserves_request {X} (f : Response -> X) : preserves f request.
Proof. apply readOnly_preserves, readOnly_request. Qed.

Lemma preserves_directives {X} (f : Response -> X) : preserves f directives.
Proof. apply readOnly_preserves, readOnly_directives. Qed.

#[local] Hint Resolve preserves_headers preserves_app preserves_request
  preserves_directives : frame.

Lemma readOnly_getHeader (key : string) (fallback : JsValue) :
  readOnly (getHeader key fallback).
Proof. apply preserves_id_readOnly. unfold getHeader. frame. Qed.

Lemma readOnly_hasHeader (key : string) : readOnly (hasHeader key).
Proof. apply preserves_id_readOnly. unfold hasHeader. frame. Qed.

Lemma preserves_getHeader {X} (f : Response -> X) (key : string) (fallback : JsValue) :
  preserves f (getHeader key fallback).
Proof. apply readOnly_preserves, readOnly_getHeader. Qed.

Lemma preserves_hasHeader {X} (f : Response -> X) (key : string) :
  preserves f (hasHeader key).
Proof. apply readOnly_preserves, readOnly_hasHeader. Qed.

#[local] Hint Resolve preserves_getHeader preserves_hasHeader : frame.

(** ** Header access *)

Lemma lookup_after_deletes (keys : list string) (h : HeaderBag) (name : string) :
  fold_left (fun b k => Headers_delete k b) keys h !! name =
  if existsb (String.eqb name) (map toLowerCase keys) then None else h !! name.
Proof.
  revert h. induction keys as [|k keys IH]; intros h; [reflexivity|].
  cbn [fold_left map existsb]. rewrite IH. unfold Headers_delete.
  destruct (String.eqb_spec name (toLowerCase k)) as [->|N]; cbn [orb].
  - rewrite lookup_delete_eq. now destruct (existsb _ _).
  - rewrite lookup_delete_ne by congruence. reflexivity.
Qed.

(** X1: on an object with a header bag, [removeHeader] with any list of
    names returns and removes exactly the listed names, compared without
    case: every other header keeps its value and no other field of the
    object changes.  Without a header bag a non-empty list is a TypeError
    that leaves the object as it was. *)
Theorem removeHeader_removes_exactly (keys : list string) (r : Response) :
  (forall h : HeaderBag, _headers r = Some h ->
     exists h' : HeaderBag,
       removeHeader keys r = (Normal tt, set_headers (Some h') r) /\
       forall name : string,
         h' !! name =
         if existsb (String.eqb name) (map toLowerCase keys) then None else h !! name) /\
  (_headers r = None -> keys <> [] -> removeHeader keys r = (Throw TypeError, r)).
Proof.
  split.
  - intros h E. eexists. split; [exact (removeHeader_some keys r h E)|].
    intros name. apply lookup_after_deletes.
  - intros E N. destruct keys as [|k keys]; [contradiction|].
    now apply removeHeader_none.
Qed.

(** The value [getHeader] reads back after [setHeader] stored [value]. *)
Lemma headerToJs_not_nullish (v : HeaderValue) (fallback : JsValue) :
  coalesce (headerToJs v) fallback = headerToJs v.
Proof. now destruct v. Qed.

Lemma getHeader_after_set (key key' text : string) (fallback : JsValue)
    (h : HeaderBag) (r0 : Response) :
  toLowerCase key' = toLowerCase key ->
  let r1 := set_headers (Some (Headers_set key (HStr text) h)) r0 in
  getHeader key' fallback r1 = (Normal (JStr text), r1).
Proof.
  intros K r1.
  assert (E1 : _headers r1 = Some (Headers_set key (HStr text) h)) by reflexivity.
  unfold getHeader. rewrite (bind_normal _ _ _ _ _ (headers_some r1 _ E1)).
  unfold ret. now rewrite (Headers_get_set key key' _ h (eq_sym K)).
Qed.

(** X2: for a header other than Content-Type, on an object with a header
    bag, [setHeader] returns and [getHeader] then reads the text of the
    value back under any spelling of the name
    ([setHeader('Content-Length', 7)] reads back "7"), never the fallback.
    This for a name that is a token, a primitive value (a number being a
    safe integer) and a text without surrounding blanks or line breaks,
    which the container stores as given.  Headers under other names read
    as before. *)
Theorem setHeader_getHeader_roundtrip (key key' : string) (value fallback : JsValue)
    (r : Response) (h : HeaderBag) :
  _headers r = Some h ->
  toLowerCase key <> "content-type" ->
  toLowerCase key' = toLowerCase key ->
  isHeaderName key = true ->
  exactText value = true ->
  storedAsIs (String_ value) = true ->
  exists r',
    setHeader key value r = (Normal tt, r') /\
    getHeader key' fallback r' = (Normal (JStr (String_ value)), r') /\
    forall other : string,
      toLowerCase other <> toLowerCase key ->
      fst (getHeader other fallback r') = fst (getHeader other fallback r).
Proof.
  intros E N K _ X _. unfold setHeader.
  destruct (String.eqb_spec (toLowerCase key) "content-type") as [C|_]; [contradiction|].
  rewrite (storeHeader_some key _ r h E).
  assert (V : coerceHeaderValue value = HStr (String_ value)) by (now destruct value).
  rewrite V.
  set (h' := Headers_set key (HStr (String_ value)) h).
  set (r' := set_headers (Some h') r).
  assert (E' : _headers r' = Some h') by reflexivity.
  exists r'. split; [reflexivity|]. split.
  - exact (getHeader_after_set key key' _ fallback h r K).
  - intros other O. unfold getHeader.
    rewrite (bind_normal _ _ _ _ _ (headers_some r' h' E')).
    rewrite (bind_normal _ _ _ _ _ (headers_some r h E)). subst h'.
    unfold ret, Headers_get, Headers_set. cbn [fst].
    rewrite lookup_insert_ne by congruence. reflexivity.
Qed.

(** ** Status classes *)

Ltac split_comparisons :=
  repeat match goal with
         | |- context [?a <? ?b] => destruct (Z.ltb_spec a b); try lia
         | |- context [?a <=? ?b] => destruct (Z.leb_spec a b); try lia
         | |- context [Z.eqb ?a ?b] => destruct (Z.eqb_spec a b); try lia
         end.

(** X3: for an object whose status is an integer, exactly one of
    [isInvalid], [isInformational], [isSuccessful], [isRedirection],
    [isClientError] and [isServerError] holds; and the statuses [prepare]
    treats as bodiless ([isEmpty], [isResetContent]) are successful or
    redirection statuses, never invalid ones. *)
Theorem status_classes_partition (c : Z) (r : Response) :
  _statusCode r = Some c ->
  exactlyOne [isInvalid r; isInformational r; isSuccessful r; isRedirection r;
              isClientError r; isServerError r] /\
  (isEmpty r || isResetContent r = true -> isSuccessful r || isRedirection r = true).
Proof.
  intros E.
  unfold exactlyOne, isInvalid, isInformational, isSuccessful, isRedirection,
    isClientError, isServerError, isEmpty, isResetContent, statusIn, statusIncluded.
  rewrite E. cbn [existsb]. split.
  - split_comparisons; reflexivity.
  - split_comparisons; cbn; intros T; try reflexivity; discriminate T.
Qed.

(** ** Escaping *)

Lemma escapeChar_safe (c : ascii) : htmlSafe (escapeChar c).
Proof.
  unfold escapeChar, htmlSafe.
  destruct (Ascii.eqb_spec c "<"); [|destruct (Ascii.eqb_spec c ">");
    [|destruct (Ascii.eqb_spec c "&")]].
  1-3: cbn; intros d D; repeat (destruct D as [<-|D]; [repeat split; discriminate|]);
       destruct D.
  cbn. intros d [<-|[]]. repeat split; assumption.
Qed.

Lemma list_ascii_of_append (s t : string) :
  list_ascii_of_string (s +:+ t) =
  List.app (list_ascii_of_string s) (list_ascii_of_string t).
Proof.
  induction s as [|c s IH]; [reflexivity|].
  change (String c s +:+ t) with (String c (s +:+ t)). cbn. now rewrite IH.
Qed.

Lemma escapeHtml_safe (s : string) : htmlSafe (escapeHtml s).
Proof.
  induction s as [|c s IH]; intros d D.
  - destruct D.
  - cbn [escapeHtml] in D. rewrite list_ascii_of_append in D.
    apply in_app_or in D as [D|D]; [now apply (escapeChar_safe c) | now apply IH].
Qed.

Lemma escapeHtml_on_safe (s : string) : htmlSafe s -> escapeHtml s = s.
Proof.
  induction s as [|c s IH]; intros S; [reflexivity|].
  cbn [escapeHtml].
  destruct (S c) as (N1 & N2 & N3); [now left|].
  unfold escapeChar.
  destruct (Ascii.eqb_spec c "<"); [contradiction|].
  destruct (Ascii.eqb_spec c ">"); [contradiction|].
  destruct (Ascii.eqb_spec c "&"); [contradiction|].
  cbn. rewrite IH; [reflexivity|].
  intros d D. apply S. now right.
Qed.

(** X4: whatever [JSON.stringify] produces, when the [escape] option is
    true the text [stringify] returns holds none of the characters [<],
    [>] and [&]; when the option is false the text is returned as
    [JSON.stringify] gave it. *)
Theorem stringify_escape_is_html_safe (value replacer spaces escape : JsValue) :
  (truthy escape = true ->
     forall text, stringify value replacer spaces escape = Normal (JStr text) ->
       htmlSafe text) /\
  (truthy escape = false ->
     stringify value replacer spaces escape =
     if truthy replacer || truthy spaces
     then JSON_stringify value replacer spaces
     else JSON_stringify value JUndefined JUndefined).
Proof.
  unfold stringify. split; intros T.
  - intros text. rewrite T.
    destruct (if truthy replacer || truthy spaces then _ else _) as [j|e];
      [|discriminate].
    destruct j; intros E; inversion E. apply escapeHtml_safe.
  - rewrite T.
    destruct (if truthy replacer || truthy spaces then _ else _) as [j|e];
      [now destruct j | reflexivity].
Qed.

(** X5: the escaping of [stringify] leaves a text without [<], [>], [&]
    as it is, and escaping twice is escaping once. *)
Theorem escapeHtml_idempotent (s : string) :
  (htmlSafe s -> escapeHtml s = s) /\
  escapeHtml (escapeHtml s) = escapeHtml s.
Proof.
  split; [apply escapeHtml_on_safe|].
  apply escapeHtml_on_safe, escapeHtml_safe.
Qed.

(** ** Content *)

Lemma preserves_morphToJson {X} (f : Response -> X) (v : JsValue) :
  preserves f (_morphToJson v).
Proof. unfold _morphToJson. frame; apply preserves_app. Qed.

(** [setContent] writes [_content] and the original content only. *)
Lemma preserves_setContent {X} (f : Response -> X) (v : JsValue) :
  (forall c r, f (set_content c r) = f r) ->
  (forall c r, f (set_originalContent c r) = f r) ->
  preserves f (setContent v).
Proof.
  intros C O. unfold setContent.
  apply preserves_bind; [|intros; now apply preserves_modify].
  destruct (_shouldBeJson v); [|now apply preserves_modify].
  apply preserves_bind; [apply preserves_morphToJson|].
  intros; now apply preserves_modify.
Qed.

(** X6: [setContent] either returns, and then the object differs from
    before only in [_content] and in the original content, which is the
    value passed; or it throws InvalidArgumentException, only for a value
    that takes the JSON path, and then the object is exactly as before.
    A string, a buffer, a function or [undefined] never throws and needs
    no application resolver. *)
Theorem setContent_effect (value : JsValue) (r : Response) :
  (forall r', setContent value r = (Normal tt, r') ->
     originalContent r' = value /\
     r' = set_originalContent value (set_content (_content r') r)) /\
  (forall e r', setContent value r = (Throw e, r') ->
     e = InvalidArgumentException /\ r' = r /\ _shouldBeJson value = true) /\
  (_shouldBeJson value = false ->
     setContent value r =
       (Normal tt, set_originalContent value (set_content (coalesce value (JStr "")) r))).
Proof.
  destruct (_shouldBeJson value) eqn:J.
  - destruct (appResolver r) as [a|] eqn:A.
    + rewrite (setContent_json value r a J A).
      destruct (stringify value _ _ _) as [text|e0].
      * repeat split; try discriminate.
        -- now inversion H.
        -- now inversion H.
      * repeat split; try discriminate; now inversion H.
    + unfold setContent. rewrite J. unfold bind.
      rewrite (morphToJson_without_app value r A).
      repeat split; try discriminate; now inversion H.
  - rewrite (setContent_verbatim value r J).
    repeat split; try discriminate; now inversion H.
Qed.

(** ** Cache-control directives *)

Lemma Map_has_set_same (key : string) (v : JsValue) (m : JsMap) :
  Map_has key (Map_set key v m) = true.
Proof.
  induction m as [|[k w] m IH]; cbn.
  - now rewrite String.eqb_refl.
  - destruct (String.eqb k key) eqn:K; cbn; rewrite K; [reflexivity | exact IH].
Qed.

Lemma Map_get_set_same (key : string) (v : JsValue) (m : JsMap) :
  Map_get key (Map_set key v m) = v.
Proof.
  induction m as [|[k w] m IH]; cbn.
  - now rewrite String.eqb_refl.
  - destruct (String.eqb k key) eqn:K; cbn; rewrite K; [reflexivity | exact IH].
Qed.

Lemma Map_has_set_other (key other : string) (v : JsValue) (m : JsMap) :
  other <> key -> Map_has other (Map_set key v m) = Map_has other m.
Proof.
  intros N. induction m as [|[k w] m IH]; cbn.
  - destruct (String.eqb_spec key other); [congruence | reflexivity].
  - destruct (String.eqb_spec k key) as [->|K]; cbn; [reflexivity | now rewrite IH].
Qed.



Lemma hasDirective_some (key : string) (r : Response) (m : JsMap) :
  headerCacheControl r = Some m ->
  hasHeaderCacheControlDirective key r = (Normal (Map_has key m), r).
Proof.
  intros E. unfold hasHeaderCacheControlDirective.
  now rewrite (bind_normal _ _ _ _ _ (directives_some r m E)).
Qed.

Lemma getDirective_some (key : string) (r : Response) (m : JsMap) :
  headerCacheControl r = Some m ->
  getHeaderCacheControlDirective key r = (Normal (Map_get key m), r).
Proof.
  intros E. unfold getHeaderCacheControlDirective.
  now rewrite (bind_normal _ _ _ _ _ (directives_some r m E)).
Qed.

Lemma directives_none (r : Response) :
  headerCacheControl r = None -> directives r = (Throw TypeError, r).
Proof. intros E. unfold directives, bind, get, throw. now rewrite E. Qed.




(** ** Freshness *)

Lemma readOnly_getMaxAge : readOnly getMaxAge.
Proof.
  apply preserves_id_readOnly.
  unfold getMaxAge, hasHeaderCacheControlDirective, getHeaderCacheControlDirective,
    getExpires, getDate, call_getTime.
  frame.
Qed.

Lemma getAge_cases (r : Response) :
  getAge r = (Throw TypeError, r) \/ getAge r = (Normal JNaN, r).
Proof.
  destruct (_headers r) as [h|] eqn:E.
  - destruct (Headers_has "Age" h) eqn:A.
    + left. now apply (getAge_with_Age r h).
    + right. now apply (getAge_without_Age r h).
  - left. unfold getAge. now rewrite (bind_throw _ _ _ _ _ (headers_none r E)).
Qed.

Lemma sub_NaN (v : JsValue) : Math_max (sub v JNaN) (JNum 0) = JNaN.
Proof. unfold sub. cbn [toNumber]. now destruct (toNumber v). Qed.

(** [getTtl] gives [null] or [NaN], or throws. *)
Lemma getTtl_cases (r : Response) :
  exists o, getTtl r = (o, r) /\
    (o = Normal JNull \/ o = Normal JNaN \/ exists e, o = Throw e).
Proof.
  unfold getTtl, bind.
  destruct (getMaxAge r) as [[v|e] r1] eqn:M;
    pose proof (readOnly_getMaxAge r _ r1 M) as ->.
  - assert (G : exists o, (age <- getAge ;; ret (Math_max (sub v age) (JNum 0))) r = (o, r) /\
                  (o = Normal JNaN \/ exists e, o = Throw e)).
    { destruct (getAge_cases r) as [A|A].
      - rewrite (bind_throw _ _ _ _ _ A). eauto.
      - rewrite (bind_normal _ _ _ _ _ A). unfold ret. rewrite sub_NaN. eauto. }
    unfold bind in G.
    destruct v; try (destruct G as (o & G1 & G2); exists o; split; [exact G1 | tauto]).
    eexists. split; [reflexivity | now left].
  - eexists. split; [reflexivity | eauto].
Qed.

Lemma isFresh_cases (r : Response) :
  isFresh r = (Normal false, r) \/ exists e, isFresh r = (Throw e, r).
Proof.
  unfold isFresh, bind.
  destruct (getTtl_cases r) as (o & T & [->|[->|(e & ->)]]); rewrite T; eauto.
Qed.

(** X9: [isFresh] never answers true: whatever the object and the clock,
    it answers false or throws, and it changes nothing.  ([getTtl] is
    [null] without max-age information and otherwise [NaN] or a
    TypeError, since [getAge] never yields a number.) *)
Theorem isFresh_never_true (r : Response) :
  exists o, isFresh r = (o, r) /\ o <> Normal true.
Proof.
  destruct (isFresh_cases r) as [F|(e & F)]; rewrite F;
    eexists; (split; [reflexivity | discriminate]).
Qed.

(** X10: [expire] never changes the object: it writes no Age header and
    leaves Expires alone, because its guard [isFresh] is never true.  It
    returns when [isFresh] returns and throws what [isFresh] throws. *)
Theorem expire_changes_nothing (r : Response) :
  expire r =
  match fst (isFresh r) with
  | Normal _ => (Normal tt, r)
  | Throw e => (Throw e, r)
  end.
Proof.
  unfold expire, bind.
  destruct (isFresh_cases r) as [F|(e & F)]; now rewrite F.
Qed.

Lemma isValidateable_some (r : Response) (h : HeaderBag) :
  _headers r = Some h ->
  isValidateable r = (Normal (Headers_has "Last-Modified" h || Headers_has "ETag" h), r).
Proof.
  intros E. unfold isValidateable.
  rewrite (bind_normal _ _ _ _ _ (headers_some r h E)).
  destruct (Headers_has "Last-Modified" h); [reflexivity|].
  now rewrite (bind_normal _ _ _ _ _ (headers_some r h E)).
Qed.

Lemma isValidateable_none (r : Response) :
  _headers r = None -> isValidateable r = (Throw TypeError, r).
Proof.
  intros E. unfold isValidateable.
  now rewrite (bind_throw _ _ _ _ _ (headers_none r E)).
Qed.

Lemma hasDirective_none (key : string) (r : Response) :
  headerCacheControl r = None ->
  hasHeaderCacheControlDirective key r = (Throw TypeError, r).
Proof.
  intros E. unfold hasHeaderCacheControlDirective.
  now rewrite (bind_throw _ _ _ _ _ (directives_none r E)).
Qed.

Lemma private_some (r : Response) (m : JsMap) :
  headerCacheControl r = Some m ->
  (v <- getHeaderCacheControlDirective "private" ;; ret (truthy v)) r =
  (Normal (truthy (Map_get "private" m)), r).
Proof.
  intros D. now rewrite (bind_normal _ _ _ _ _ (getDirective_some "private" r m D)).
Qed.

(** X11: [isCacheable] answers true exactly when the status is none of
    200, 203, 300, 301, 302, 404, 410, the directive map exists and holds
    neither [no-store] nor a true [private], and the header bag holds
    Last-Modified or ETag: freshness never makes a response cacheable. *)
Theorem isCacheable_true_iff (r : Response) :
  isCacheable r = (Normal true, r) <->
  statusIncluded [200; 203; 300; 301; 302; 404; 410] r = false /\
  exists (h : HeaderBag) (m : JsMap),
    _headers r = Some h /\ headerCacheControl r = Some m /\
    Map_has "no-store" m = false /\ truthy (Map_get "private" m) = false /\
    Headers_has "Last-Modified" h || Headers_has "ETag" h = true.
Proof.
  split.
  - intros T. unfold isCacheable, bind at 1, get in T.
    destruct (statusIncluded _ r) eqn:S; [discriminate T|].
    split; [reflexivity|].
    destruct (headerCacheControl r) as [m|] eqn:D.
    2:{ rewrite (bind_throw _ _ _ _ _ (hasDirective_none "no-store" r D)) in T.
        discriminate T. }
    rewrite (bind_normal _ _ _ _ _ (hasDirective_some "no-store" r m D)) in T.
    destruct (Map_has "no-store" m) eqn:NS; [discriminate T|].
    rewrite (bind_normal _ _ _ _ _ (private_some r m D)) in T.
    destruct (truthy (Map_get "private" m)) eqn:P; [discriminate T|].
    destruct (_headers r) as [h|] eqn:E.
    2:{ rewrite (bind_throw _ _ _ _ _ (isValidateable_none r E)) in T. discriminate T. }
    rewrite (bind_normal _ _ _ _ _ (isValidateable_some r h E)) in T.
    exists h, m. repeat split; try assumption.
    destruct (Headers_has "Last-Modified" h || Headers_has "ETag" h); [reflexivity|].
    destruct (isFresh_cases r) as [F|(e & F)]; rewrite F in T; discriminate T.
  - intros (S & h & m & E & D & NS & P & V).
    unfold isCacheable, bind at 1, get. rewrite S.
    rewrite (bind_normal _ _ _ _ _ (hasDirective_some "no-store" r m D)), NS.
    rewrite (bind_normal _ _ _ _ _ (private_some r m D)), P.
    now rewrite (bind_normal _ _ _ _ _ (isValidateable_some r h E)), V.
Qed.

(** ** Redirects and links *)

Lemma getHeader_some (key : string) (fallback : JsValue) (r : Response) (h : HeaderBag) :
  _headers r = Some h ->
  getHeader key fallback r = (Normal (coalesce (Headers_get key h) fallback), r).
Proof.
  intros E. unfold getHeader.
  now rewrite (bind_normal _ _ _ _ _ (headers_some r h E)).
Qed.

Lemma truthy_coalesce_null (v : JsValue) : truthy (coalesce v JNull) = truthy v.
Proof. now destruct v. Qed.

(** X12: on an object with a header bag, [isRedirect()] without argument
    is true when the status is one of 201, 301, 302, 303, 307, 308 and
    also, at any other status, when a non-empty Location header is set;
    with an argument other than [null] the status and the argument are
    both ignored and the answer is whether a non-empty Location header is
    set. *)
Theorem isRedirect_cases (location : JsValue) (r : Response) (h : HeaderBag) :
  _headers r = Some h ->
  isRedirect JNull r =
    (Normal (statusIncluded [201; 301; 302; 303; 307; 308] r
             || truthy (Headers_get "Location" h)), r) /\
  (location <> JNull -> location <> JUndefined ->
   isRedirect location r = (Normal (truthy (Headers_get "Location" h)), r)).
Proof.
  intros E. split.
  - unfold isRedirect, bind at 1, get.
    destruct (statusIncluded _ r); [reflexivity|]. cbn [andb orb].
    rewrite (bind_normal _ _ _ _ _ (getHeader_some "Location" JNull r h E)).
    unfold ret. now rewrite truthy_coalesce_null.
  - intros N1 N2. unfold isRedirect, bind at 1, get.
    assert (F : statusIncluded [201; 301; 302; 303; 307; 308] r
                && match match location with JUndefined => JNull | _ => location end with
                   | JNull => true
                   | _ => false
                   end = false).
    { destruct location; try contradiction; apply andb_false_r. }
    rewrite F.
    rewrite (bind_normal _ _ _ _ _ (getHeader_some "Location" JNull r h E)).
    unfold ret. now rewrite truthy_coalesce_null.
Qed.

Lemma truthy_linkStep (prev : JsValue) (entry : string * JsValue) :
  truthy (linkStep prev entry) = true.
Proof. unfold linkStep. now destruct (truthy prev). Qed.

Lemma truthy_links (links : list (string * JsValue)) (prev : JsValue) :
  links <> [] -> truthy (fold_left linkStep links prev) = true.
Proof.
  revert prev. induction links as [|e links IH]; intros prev N; [contradiction|].
  cbn [fold_left]. destruct links as [|e' links].
  - apply truthy_linkStep.
  - now apply IH.
Qed.

Lemma setHeader_plain (key : string) (value : JsValue) (r : Response) (h : HeaderBag) :
  _headers r = Some h ->
  String.eqb (toLowerCase key) "content-type" = false ->
  setHeader key value r =
  (Normal tt, set_headers (Some (Headers_set key (coerceHeaderValue value) h)) r).
Proof.
  intros E K. unfold setHeader. rewrite K.
  apply (storeHeader_some key _ r h E).
Qed.

(** X13: [setLinks] keeps the last link only.  On an object with a header
    bag, whatever links come before the last entry [(key, val)], the Link
    header then reads [<val>; rel="key"], preceded by a comma and a space
    when another link came before or a non-empty Link header was already
    set; earlier links and the former header value are not kept.  This for
    a primitive [val] (a number being a safe integer) and a header text
    without line breaks, which the container stores as given.  With no
    link at all and no Link header, the header reads "null". *)
Theorem setLinks_keeps_last_only (links : list (string * JsValue)) (key : string)
    (val fallback : JsValue) (r : Response) (h : HeaderBag) :
  _headers r = Some h ->
  exactText val = true ->
  let text :=
    (if match links with
        | [] => truthy (Headers_get "Link" h)
        | _ => true
        end then ", " else "") +:+
    "<" +:+ String_ val +:+ ">; rel=" +:+ dquote +:+ key +:+ dquote in
  storedAsIs text = true ->
  (exists r',
     setLinks (links ++ [(key, val)]) r = (Normal tt, r') /\
     getHeader "Link" fallback r' = (Normal (JStr text), r')) /\
  (Headers_has "Link" h = false ->
   exists r',
     setLinks [] r = (Normal tt, r') /\
     getHeader "Link" fallback r' = (Normal (JStr "null"), r')).
Proof.
  intros E _ text _. split.
  - unfold setLinks.
    rewrite (bind_normal _ _ _ _ _ (getHeader_some "Link" JNull r h E)).
    rewrite fold_left_app. cbn [fold_left].
    rewrite (setHeader_plain "Link" _ r h E eq_refl).
    set (prev := fold_left linkStep links (coalesce (Headers_get "Link" h) JNull)).
    assert (T : truthy prev =
                match links with
                | [] => truthy (Headers_get "Link" h)
                | _ => true
                end).
    { subst prev. destruct links as [|e links].
      - cbn [fold_left]. apply truthy_coalesce_null.
      - now apply truthy_links. }
    unfold linkStep. cbn [fst snd coerceHeaderValue String_].
    rewrite T. fold text.
    eexists. split; [reflexivity|].
    exact (getHeader_after_set "Link" "Link" text fallback h r eq_refl).
  - intros L. unfold setLinks.
    rewrite (bind_normal _ _ _ _ _ (getHeader_some "Link" JNull r h E)).
    cbn [fold_left].
    rewrite (setHeader_plain "Link" _ r h E eq_refl).
    assert (G : coalesce (Headers_get "Link" h) JNull = JNull).
    { unfold Headers_get. unfold Headers_has in L.
      now destruct (h !! toLowerCase "Link"). }
    rewrite G. cbn [coerceHeaderValue String_].
    eexists. split; [reflexivity|].
    exact (getHeader_after_set "Link" "Link" "null" fallback h r eq_refl).
Qed.

(** ** Validators *)

(** X14: on an object with a header bag, [setEtag] with a non-empty
    string stores the tag between double quotes unless it already starts
    with one, after [W/] when [weak] is set, and the response is then
    validateable; storing again a strong tag that was read back changes
    nothing.  [setEtag()] with nothing removes the header, and the
    response is then validateable only through Last-Modified. *)
Theorem setEtag_then_validateable (etag : string) (weak : bool) (r : Response)
    (h : HeaderBag) :
  _headers r = Some h ->
  etag <> "" ->
  let quoted := if startsWith dquote etag then etag else dquote +:+ etag +:+ dquote in
  let stored := (if weak then "W/" else "") +:+ quoted in
  let r' := set_headers (Some (<["etag" := HStr stored]> h)) r in
  setEtag (JStr etag) weak r = (Normal tt, r') /\
  getHeader "ETag" JNull r' = (Normal (JStr stored), r') /\
  isValidateable r' = (Normal true, r') /\
  setEtag (JStr quoted) false (snd (setEtag (JStr etag) false r)) =
    setEtag (JStr etag) false r /\
  isValidateable (snd (setEtag JNull weak r)) =
    (Normal (Headers_has "Last-Modified" h), snd (setEtag JNull weak r)).
Proof.
  intros E N quoted stored r'.
  assert (T : truthy (JStr etag) = true).
  { cbn. destruct (String.eqb_spec etag ""); [contradiction | reflexivity]. }
  assert (S : forall w, setEtag (JStr etag) w r =
            (Normal tt,
             set_headers (Some (<["etag" := HStr ((if w then "W/" else "") +:+ quoted)]> h)) r)).
  { intros w. unfold setEtag. rewrite T. cbn [negb].
    now rewrite (setHeader_plain "ETag" _ r h E eq_refl). }
  assert (Q : startsWith dquote quoted = true).
  { subst quoted. destruct (startsWith dquote etag) eqn:D; [exact D | reflexivity]. }
  assert (TQ : truthy (JStr quoted) = true).
  { subst quoted. destruct (startsWith dquote etag); [exact T | reflexivity]. }
  assert (E' : _headers r' = Some (<["etag" := HStr stored]> h)) by reflexivity.
  split; [apply S|]. split; [|split; [|split]].
  - rewrite (getHeader_some "ETag" JNull r' _ E').
    unfold Headers_get. change (toLowerCase "ETag") with "etag".
    now rewrite lookup_insert_eq.
  - rewrite (isValidateable_some r' _ E').
    unfold Headers_has. change (toLowerCase "ETag") with "etag".
    rewrite lookup_insert_eq. now rewrite orb_true_r.
  - rewrite (S false). cbn [snd].
    unfold setEtag. rewrite TQ, Q. cbn [negb].
    set (h1 := <["etag" := HStr ("" +:+ quoted)]> h).
    set (r1 := set_headers (Some h1) r).
    assert (E1 : _headers r1 = Some h1) by reflexivity.
    rewrite (setHeader_plain "ETag" _ r1 h1 E1 eq_refl).
    unfold Headers_set. change (toLowerCase "ETag") with "etag".
    cbn [coerceHeaderValue String_]. subst h1. rewrite insert_insert_eq.
    now destruct r.
  - unfold setEtag. cbn [truthy negb].
    rewrite (removeHeader_some ["ETag"] r h E). cbn [snd fold_left].
    set (h2 := Headers_delete "ETag" h).
    set (r2 := set_headers (Some h2) r).
    assert (E2 : _headers r2 = Some h2) by reflexivity.
    rewrite (isValidateable_some r2 h2 E2). subst h2.
    unfold Headers_has, Headers_delete.
    change (toLowerCase "ETag") with "etag".
    change (toLowerCase "Last-Modified") with "last-modified".
    rewrite lookup_delete_eq, lookup_delete_ne by discriminate.
    now rewrite orb_false_r.
Qed.

(** ** Bulk header assignment *)

Lemma setHeader_frame (key : string) (value : JsValue) (r r1 : Response) (h : HeaderBag) :
  _headers r = Some h ->
  setHeader key value r = (Normal tt, r1) ->
  exists h1 : HeaderBag, _headers r1 = Some h1 /\
    forall name : string, name <> toLowerCase key -> h1 !! name = h !! name.
Proof.
  intros E. unfold setHeader.
  assert (S : forall v r0, _headers r0 = Some h ->
            storeHeader key v r0 = (Normal tt, r1) ->
            exists h1 : HeaderBag, _headers r1 = Some h1 /\
              forall name : string, name <> toLowerCase key -> h1 !! name = h !! name).
  { intros v r0 E0. rewrite (storeHeader_some key v r0 h E0). intros T. inversion T.
    eexists. split; [reflexivity|]. intros name N.
    unfold Headers_set. now rewrite lookup_insert_ne by congruence. }
  destruct (String.eqb (toLowerCase key) "content-type").
  - destruct (coerceHeaderValue value) as [s|l]; [|discriminate].
    destruct (negb (charsetRegExp_test s)).
    + unfold bind at 1, modify. now apply S.
    + now apply S.
  - now apply S.
Qed.

Lemma reduce_setHeader_frame (entries : list (string * JsValue)) (acc c : Chain)
    (r r' : Response) (h : HeaderBag) :
  _headers r = Some h ->
  reduce_setHeader acc entries r = (Normal c, r') ->
  exists h' : HeaderBag, _headers r' = Some h' /\
    forall name : string,
      ~ In name (map (fun e => toLowerCase (fst e)) entries) -> h' !! name = h !! name.
Proof.
  revert acc r h. induction entries as [|[k v] entries IH]; intros acc r h E T.
  - cbn in T. inversion T. subst. now exists h.
  - cbn [reduce_setHeader] in T.
    apply bind_inv_normal in T as ([] & r1 & T1 & T2).
    destruct (setHeader_frame k v r r1 h E T1) as (h1 & E1 & F1).
    destruct (IH This r1 h1 E1 T2) as (h' & E' & F').
    exists h'. split; [exact E'|]. intros name N. cbn [map In fst] in N.
    rewrite F' by tauto. apply F1. intros ->. tauto.
Qed.

(** X15: [setHeaders] never sets the header of the first entry of the
    object it is given.  With one entry it sets nothing and returns that
    entry instead of the instance; with more, on an object with a header
    bag, when it returns the first entry's header reads as before unless a
    later entry names it too. *)
Theorem setHeaders_skips_first_entry (key : string) (value : JsValue)
    (rest : list (string * JsValue)) (r : Response) (h : HeaderBag) :
  _headers r = Some h ->
  setHeaders [(key, value)] r = (Normal (Other (JArr [JStr key; value])), r) /\
  (forall c r',
     setHeaders ((key, value) :: rest) r = (Normal c, r') ->
     ~ In (toLowerCase key) (map (fun e => toLowerCase (fst e)) rest) ->
     forall fallback,
       fst (getHeader key fallback r') = fst (getHeader key fallback r)).
Proof.
  intros E. split; [reflexivity|].
  intros c r' T N fallback. cbn [setHeaders] in T.
  destruct (reduce_setHeader_frame rest _ c r r' h E T) as (h' & E' & F).
  rewrite (getHeader_some key fallback r' h' E'), (getHeader_some key fallback r h E).
  cbn [fst]. unfold Headers_get. now rewrite (F _ N).
Qed.

(** ** Helpers that cannot succeed *)

Lemma forEach_throw {A} (e : Exception) (x : A) (l : list A) (r : Response) :
  forEach (fun _ : A => throw e) (x :: l) r = (Throw e, r).
Proof. reflexivity. Qed.

(** X16: [setNotModified] never returns: it throws, leaving status 304 on
    the object and every header in place (none of the seven headers it
    names is removed).  [setTtl] never returns either: it throws a
    TypeError and changes nothing. *)
Theorem setNotModified_never_returns (seconds : JsValue) (r : Response) :
  (exists e r',
     setNotModified r = (Throw e, r') /\
     _statusCode r' = Some 304 /\ _headers r' = _headers r) /\
  setTtl seconds r = (Throw TypeError, r).
Proof.
  split.
  - unfold setNotModified. unfold bind at 1. rewrite setStatus_unfold.
    change ((304 <? 100) || (600 <=? 304)) with false. cbv iota.
    set (r1 := set_statusMessage _ _).
    unfold bind at 1.
    assert (S : _statusCode r1 = Some 304) by reflexivity.
    assert (H : _headers r1 = _headers r) by reflexivity.
    destruct (setContent JNull r1) as [o r2] eqn:C.
    rewrite <- (preserves_setContent _statusCode JNull
                  (fun _ _ => eq_refl) (fun _ _ => eq_refl) _ _ _ C) in S.
    rewrite <- (preserves_setContent _headers JNull
                  (fun _ _ => eq_refl) (fun _ _ => eq_refl) _ _ _ C) in H.
    destruct o as [[]|e]; [rewrite forEach_throw|]; eauto.
  - unfold setTtl.
    destruct (getAge_cases r) as [A|A].
    + now rewrite (bind_throw _ _ _ _ _ A).
    + rewrite (bind_normal _ _ _ _ _ A). apply setSharedMaxAge_throws.
Qed.

(** ** [setCache] *)

Lemma forEach_inv {A} (f : A -> Method unit) (l : list A) (r r' : Response) :
  forEach f l r = (Normal tt, r') ->
  forall x, In x l -> exists r1 r2, f x r1 = (Normal tt, r2).
Proof.
  revert r. induction l as [|y l IH]; intros r T x I; [destruct I|].
  cbn [forEach] in T. apply bind_inv_normal in T as ([] & r1 & T1 & T2).
  destruct I as [<-|I]; [eauto | exact (IH r1 T2 x I)].
Qed.

Lemma guarded_inv (b : bool) (m : Method unit) (r r' : Response) :
  (forall r0, exists e r1, m r0 = (Throw e, r1)) ->
  (if b then m else ret tt) r = (Normal tt, r') -> b = false.
Proof.
  intros M T. destruct b; [|reflexivity].
  destruct (M r) as (e & r1 & X). congruence.
Qed.

(** X17: [setCache] returns only for an options object that holds every
    one of the fourteen recognised keys and asks for none of the boolean
    directives (must_revalidate, no_cache, no_store, no_transform, public,
    private, proxy_revalidate, immutable) nor for s_maxage: with any of
    those set to a true value the call throws. *)
Theorem setCache_returns_only_if (options : list (string * JsValue)) (r r' : Response) :
  setCache options r = (Normal tt, r') ->
  (forall key, In key (map fst HTTP_RESPONSE_CACHE_CONTROL_DIRECTIVES) ->
     existsb (String.eqb key) (map fst options) = true) /\
  (forall key, In (key, false) HTTP_RESPONSE_CACHE_CONTROL_DIRECTIVES ->
     truthy (property key options) = false) /\
  truthy (property "s_maxage" options) = false.
Proof.
  unfold setCache. intros T.
  set (diff := List.filter _ _) in T.
  destruct diff as [|d diff'] eqn:D; [|discriminate T].
  cbn [List.length Z.of_nat Z.ltb Z.compare] in T.
  split.
  - intros key I.
    destruct (existsb (String.eqb key) (map fst options)) eqn:X; [reflexivity|].
    assert (In key diff) as J.
    { subst diff. apply filter_In. split; [exact I | now rewrite X]. }
    rewrite D in J. destruct J.
  - apply bind_inv_normal in T as ([] & r1 & _ & T).
    apply bind_inv_normal in T as ([] & r2 & _ & T).
    apply bind_inv_normal in T as ([] & r3 & _ & T).
    apply bind_inv_normal in T as ([] & r4 & S & T).
    apply bind_inv_normal in T as ([] & r5 & _ & T).
    apply bind_inv_normal in T as ([] & r6 & _ & T).
    apply bind_inv_normal in T as ([] & r7 & F & _).
    split.
    + intros key I.
      destruct (forEach_inv _ _ _ _ F (key, false) I) as (ra & rb & X).
      cbn [negb andb] in X.
      destruct (truthy (property key options)); [|reflexivity].
      unfold call_replace, bind, throw in X. discriminate X.
    + apply (guarded_inv _ (setSharedMaxAge (property "s_maxage" options)) r3 r4);
        [|exact S].
      intros r0. exists TypeError, r0. apply setSharedMaxAge_throws.
Qed.

(** ** Numbers through their decimal text *)

Lemma parseDigits_acc (d : Decimal.uint) (acc : positive) :
  parseDigits 10 (Some (Z.pos acc)) (NilEmpty.string_of_uint d) =
  Some (Z.pos (Pos.of_uint_acc d acc)).
Proof.
  revert acc.
  induction d as [|d IH|d IH|d IH|d IH|d IH|d IH|d IH|d IH|d IH|d IH]; intros acc;
    [reflexivity|..];
    cbn [NilEmpty.string_of_uint parseDigits Pos.of_uint_acc];
    match goal with
    | |- context [digitValue 10 ?c] =>
        let v := eval vm_compute in (digitValue 10 c) in
        change (digitValue 10 c) with v
    end;
    cbv iota; rewrite <- IH; do 2 f_equal; lia.
Qed.

Lemma parseDigits_zero (d : Decimal.uint) :
  parseDigits 10 (Some 0) (NilEmpty.string_of_uint d) = Some (Z.of_N (Pos.of_uint d)).
Proof.
  induction d as [|d IH|d IH|d IH|d IH|d IH|d IH|d IH|d IH|d IH|d IH];
    [reflexivity | exact IH |..];
    cbn [NilEmpty.string_of_uint parseDigits Pos.of_uint];
    match goal with
    | |- context [digitValue 10 ?c] =>
        let v := eval vm_compute in (digitValue 10 c) in
        change (digitValue 10 c) with v
    end;
    cbv iota; apply (parseDigits_acc d).
Qed.

Lemma parseDigits_decimal (d : Decimal.uint) :
  d <> Decimal.Nil ->
  parseDigits 10 None (NilEmpty.string_of_uint d) = Some (Z.of_N (Pos.of_uint d)).
Proof.
  intros N. destruct d; [contradiction | apply (parseDigits_zero d) |..];
    apply (parseDigits_acc d).
Qed.

Lemma parseInt_digits (d : Decimal.uint) :
  d <> Decimal.Nil ->
  parseInt (JStr (NilEmpty.string_of_uint d)) = JNum (Z.of_N (Pos.of_uint d)) /\
  parseInt (JStr (String "-" (NilEmpty.string_of_uint d))) =
    JNum (- Z.of_N (Pos.of_uint d)).
Proof.
  intros N.
  assert (U : parseUnsigned (NilEmpty.string_of_uint d) =
              parseDigits 10 None (NilEmpty.string_of_uint d)).
  { destruct d as [|l|l|l|l|l|l|l|l|l|l]; [contradiction|..]; try reflexivity.
    destruct l; reflexivity. }
  split.
  - transitivity (match parseUnsigned (NilEmpty.string_of_uint d) with
                  | Some n => JNum (1 * n)
                  | None => JNaN
                  end).
    + destruct d; [contradiction|..]; reflexivity.
    + rewrite U, (parseDigits_decimal d N). f_equal; lia.
  - transitivity (match parseUnsigned (NilEmpty.string_of_uint d) with
                  | Some n => JNum (-1 * n)
                  | None => JNaN
                  end).
    + reflexivity.
    + rewrite U, (parseDigits_decimal d N). f_equal; lia.
Qed.

(** [parseInt(n)] is [n]: the decimal text of an integer reads back as
    the integer. *)
Lemma parseInt_number (n : Z) : parseInt (JNum n) = JNum n.
Proof.
  destruct n as [|p|p]; [reflexivity|..].
  - pose proof (DecimalPos.Unsigned.to_uint_nonnil p) as N.
    destruct (parseInt_digits _ N) as [P _].
    transitivity (parseInt (JStr (NilEmpty.string_of_uint (Pos.to_uint p)))).
    + unfold parseInt. cbn [String_]. unfold Z_to_string. cbn [Z.to_int NilZero.string_of_int].
      unfold NilZero.string_of_uint. now destruct (Pos.to_uint p).
    + now rewrite P, DecimalPos.Unsigned.of_to.
  - pose proof (DecimalPos.Unsigned.to_uint_nonnil p) as N.
    destruct (parseInt_digits _ N) as [_ P].
    transitivity (parseInt (JStr (String "-" (NilEmpty.string_of_uint (Pos.to_uint p))))).
    + unfold parseInt. cbn [String_]. unfold Z_to_string. cbn [Z.to_int NilZero.string_of_int].
      unfold NilZero.string_of_uint. now destruct (Pos.to_uint p).
    + now rewrite P, DecimalPos.Unsigned.of_to.
Qed.

(** X18: [setMaxAge] and [getMaxAge] round trip.  On an object with a
    header bag whose directives hold no [s-maxage], [setMaxAge(n)] for an
    integer [n] in the safe range (where the text of a number is its plain
    decimal writing) returns, and [getMaxAge()] then gives [n] back, read
    through the decimal text of the directive; any [Expires] header is not
    looked at. *)
Theorem setMaxAge_getMaxAge_roundtrip (n : Z) (r : Response) (h : HeaderBag) :
  _headers r = Some h ->
  (forall m, headerCacheControl r = Some m -> Map_has "s-maxage" m = false) ->
  - 2 ^ 53 < n < 2 ^ 53 ->
  exists r',
    setMaxAge (JNum n) r = (Normal tt, r') /\
    getMaxAge r' = (Normal (JNum n), r').
Proof.
  intros E S _. unfold setMaxAge.
  pose proof (addHeaderCacheControlDirective_header "max-age" (JNum n) r h E) as A.
  cbv zeta in A.
  set (m0 := match headerCacheControl r with Some m => m | None => [] end) in *.
  set (r' := set_headers _ _) in A.
  assert (D : headerCacheControl r' = Some (Map_set "max-age" (JNum n) m0)) by reflexivity.
  exists r'. split; [exact A|].
  rewrite (getMaxAge_max_age r' _ D).
  - now rewrite Map_get_set_same, parseInt_number.
  - rewrite Map_has_set_other by discriminate.
    subst m0. destruct (headerCacheControl r) as [m|]; [now apply S | reflexivity].
  - apply Map_has_set_same.
Qed.

(** ** [prepare] *)

Section Framing.
Variables (X : Type) (f : Response -> X).
Hypothesis f_headers : forall x r, f (set_headers x r) = f r.
Hypothesis f_charset : forall x r, f (set_charset x r) = f r.

Lemma frame_storeHeader (key : string) (v : HeaderValue) : preserves f (storeHeader key v).
Proof.
  unfold storeHeader. apply preserves_bind; [apply preserves_headers|].
  intros. now apply preserves_modify.
Qed.

Lemma frame_setHeader (key : string) (value : JsValue) : preserves f (setHeader key value).
Proof.
  unfold setHeader.
  destruct (String.eqb _ _); [|apply frame_storeHeader].
  destruct (coerceHeaderValue value); [|apply preserves_throw].
  destruct (negb _); [|apply frame_storeHeader].
  apply preserves_bind; [now apply preserves_modify | intros; apply frame_storeHeader].
Qed.

Lemma frame_removeHeader (keys : list string) : preserves f (removeHeader keys).
Proof.
  induction keys as [|k keys IH]; cbn [removeHeader]; [apply preserves_ret|].
  apply preserves_bind; [apply preserves_headers|]. intros.
  apply preserves_bind; [now apply preserves_modify | intros; exact IH].
Qed.

Lemma frame_inferContentType (extension : string) :
  preserves f (inferContentType extension).
Proof.
  unfold inferContentType, setContentType.
  apply preserves_bind; [apply preserves_getHeader|]. intros.
  destruct (negb _); [apply frame_setHeader | apply preserves_ret].
Qed.

Hypothesis f_content : forall x r, f (set_content x r) = f r.
Hypothesis f_original : forall x r, f (set_originalContent x r) = f r.

Lemma frame_contentLength (content : JsValue) : preserves f (contentLength content).
Proof. destruct content; first [apply preserves_ret | apply preserves_throw]. Qed.

Lemma frame_callEtagFn (fn : EtagFn) (content charset : JsValue) :
  preserves f (callEtagFn fn content charset).
Proof.
  destruct fn as [|[]]; first [apply preserves_throw | apply preserves_lift].
Qed.

Lemma frame_prepareBody : preserves f prepareBody.
Proof.
  pose proof frame_setHeader. pose proof frame_removeHeader.
  pose proof frame_contentLength. pose proof frame_callEtagFn.
  pose proof (fun v => preserves_setContent f v f_content f_original).
  pose proof (preserves_app f). pose proof (preserves_request f).
  unfold prepareBody, setContentType. cbv zeta.
  repeat first
    [ progress intros
    | solve [auto with frame]
    | apply preserves_bind
    | apply preserves_ret
    | apply preserves_lift
    | apply preserves_get
    | apply preserves_modify; intros;
      repeat match goal with
             | |- context [match ?x with _ => _ end] => destruct x
             end; solve [auto]
    | match goal with
      | |- preserves _ (if ?b then _ else _) => destruct b
      | |- preserves _ (match ?x with _ => _ end) => destruct x
      end ].
Qed.

Lemma frame_frameByStatus : preserves f frameByStatus.
Proof.
  unfold frameByStatus. apply preserves_bind; [apply preserves_get|]. intros r.
  destruct (_ || _); [|destruct (isResetContent r)].
  - apply preserves_bind; [now apply preserves_setContent|].
    intros. apply frame_removeHeader.
  - apply preserves_bind; [now apply preserves_setContent|]. intros.
    apply preserves_bind; [apply frame_setHeader | intros; apply frame_removeHeader].
  - apply frame_prepareBody.
Qed.

Hypothesis f_cookies : forall x r, f (set_cookieCollection x r) = f r.

Lemma frame_secureCookies (value : bool) : preserves f (secureCookies value).
Proof.
  unfold secureCookies. apply preserves_bind; [apply preserves_get|]. intros r.
  destruct (cookieCollection r); [|apply preserves_throw].
  apply preserves_bind; [now apply preserves_modify | intros; apply frame_setHeader].
Qed.

End Framing.

Lemma hasHeader_some (key : string) (r : Response) (h : HeaderBag) :
  _headers r = Some h -> hasHeader key r = (Normal (Headers_has key h), r).
Proof.
  intros E. unfold hasHeader.
  now rewrite (bind_normal _ _ _ _ _ (headers_some r h E)).
Qed.

Lemma hasHeader_inv (key : string) (r r' : Response) (b : bool) :
  hasHeader key r = (Normal b, r') ->
  r' = r /\ exists h : HeaderBag, _headers r = Some h /\ b = Headers_has key h.
Proof.
  intros H. destruct (_headers r) as [h|] eqn:E.
  - rewrite (hasHeader_some key r h E) in H. inversion H. eauto.
  - unfold hasHeader in H. rewrite (bind_throw _ _ _ _ _ (headers_none r E)) in H.
    discriminate H.
Qed.

Lemma request_some (r : Response) (q : Request) :
  requestResolver r = Some q -> request r = (Normal q, r).
Proof. intros E. unfold request, bind, get, ret. now rewrite E. Qed.

(** A body-carrying status: once Transfer-Encoding is set, Content-Length
    is removed. *)
Lemma prepareBody_framing (rb rc : Response) :
  prepareBody rb = (Normal tt, rc) ->
  exists h : HeaderBag, _headers rc = Some h /\
    (Headers_has "Transfer-Encoding" h = true -> Headers_has "Content-Length" h = false).
Proof.
  unfold prepareBody. intros P.
  apply bind_inv_normal in P as (type & r1 & _ & P).
  apply bind_inv_normal in P as (a & r2 & _ & P). cbv zeta in P.
  apply bind_inv_normal in P as (hasETag & r3 & _ & P).
  apply bind_inv_normal in P as ([] & r4 & _ & P).
  apply bind_inv_normal in P as ([] & r5 & _ & P).
  apply bind_inv_normal in P as (r6 & r6' & _ & P).
  apply bind_inv_normal in P as (len & r7 & _ & P).
  apply bind_inv_normal in P as ([] & r8 & _ & P).
  apply bind_inv_normal in P as (b & r9 & H & P).
  apply hasHeader_inv in H as (-> & h & E & ->).
  apply bind_inv_normal in P as ([] & r10 & R & P).
  apply bind_inv_normal in P as (q & r11 & Q & P).
  apply request_inv in Q. subst r11.
  assert (K : _headers rc = _headers r10).
  { destruct (Request_isMethod "HEAD" q).
    - exact (preserves_setContent _headers JNull
               (fun _ _ => eq_refl) (fun _ _ => eq_refl) _ _ _ P).
    - now inversion P. }
  rewrite K. destruct (Headers_has "Transfer-Encoding" h) eqn:T.
  - rewrite (removeHeader_some ["Content-Length"] r8 h E) in R. inversion R.
    eexists. split; [reflexivity|]. intros _. cbn [fold_left].
    unfold Headers_has, Headers_delete. now rewrite lookup_delete_eq.
  - inversion R. subst r10. exists h. split; [exact E|]. intros T'. congruence.
Qed.

Lemma frameByStatus_framing (rb rc : Response) :
  frameByStatus rb = (Normal tt, rc) ->
  exists h : HeaderBag, _headers rc = Some h /\
    (Headers_has "Transfer-Encoding" h = true -> Headers_has "Content-Length" h = false).
Proof.
  intros F.
  pose proof (keepsStatus_frameByStatus _ _ _ F) as St.
  destruct (isInformational rc || isEmpty rc) eqn:S1.
  - destruct (frameByStatus_no_body_inv rb rc F S1) as (h & a & text & _ & _ & _ & ->).
    eexists. split; [reflexivity|].
    destruct (framing_headers_absent h) as (_ & _ & T). cbv zeta in T.
    rewrite T. discriminate.
  - destruct (isResetContent rc) eqn:S2.
    + destruct (frameByStatus_reset_inv rb rc F S2) as (h & a & text & _ & _ & _ & ->).
      eexists. split; [reflexivity|].
      unfold Headers_has at 1, Headers_delete. rewrite lookup_delete_eq. discriminate.
    + unfold frameByStatus, bind at 1, get in F.
      assert (S1' : isInformational rb || isEmpty rb = false).
      { unfold isInformational, isEmpty, statusIn, statusIncluded in *. now rewrite <- St. }
      assert (S2' : isResetContent rb = false).
      { unfold isResetContent, statusIncluded in *. now rewrite <- St. }
      rewrite S1', S2' in F. exact (prepareBody_framing rb rc F).
Qed.

(** X19: a response that [prepare] returns never carries both
    Transfer-Encoding and Content-Length: whatever the status, the body
    and the request, when the Transfer-Encoding header is present after
    [prepare] the Content-Length header is absent. *)
Theorem prepare_length_or_transfer_encoding (req : Request) (r r' : Response) :
  prepare req r = (Normal tt, r') ->
  exists h' : HeaderBag, _headers r' = Some h' /\
    (Headers_has "Transfer-Encoding" h' = true ->
     Headers_has "Content-Length" h' = false).
Proof.
  intros P.
  destruct (prepare_inv req r r' P) as (rb & rc & F & _ & _ & _ & H).
  destruct (frameByStatus_framing rb rc F) as (h & E & K).
  destruct (H h E) as (h' & E' & A).
  exists h'. split; [exact E'|].
  unfold Headers_has in *.
  change (toLowerCase "Transfer-Encoding") with "transfer-encoding" in *.
  change (toLowerCase "Content-Length") with "content-length" in *.
  rewrite !A by discriminate. exact K.
Qed.

Lemma inferContentType_headers (extension : string) (r ra : Response) (h : HeaderBag) :
  _headers r = Some h ->
  inferContentType extension r = (Normal tt, ra) ->
  exists ha : HeaderBag, _headers ra = Some ha /\
    forall name : string, name <> "content-type" -> ha !! name = h !! name.
Proof.
  intros E. unfold inferContentType.
  rewrite (bind_normal _ _ _ _ _ (getHeader_some "Content-Type" JNull r h E)).
  destruct (negb _).
  - unfold setContentType. intros S.
    exact (setHeader_frame "Content-Type" _ r ra h E S).
  - intros S. inversion S. subst ra. now exists h.
Qed.

(** The steps of [prepare], with the request resolved. *)
Lemma prepare_steps (req : Request) (r r' : Response) :
  prepare req r = (Normal tt, r') ->
  exists ra rb rc rd : Response,
    (forall (X : Type) (f : Response -> X),
       (forall x r0, f (set_headers x r0) = f r0) ->
       (forall x r0, f (set_charset x r0) = f r0) ->
       f ra = f (set_requestResolver (Some req) r)) /\
    (forall h : HeaderBag, _headers r = Some h ->
       exists ha : HeaderBag, _headers ra = Some ha /\
         forall name : string, name <> "content-type" -> ha !! name = h !! name) /\
    rb = (if request_fresh req (_headers ra) (_statusCode ra)
          then set_statusCode (Some 304) ra else ra) /\
    frameByStatus rb = (Normal tt, rc) /\
    rd = (if differsFrom "HTTP/1.0" (Request_server_get "SERVER_PROTOCOL" req)
          then set_version (Some "1.1") rc else rc) /\
    (if request_secure req then secureCookies true else ret tt) rd = (Normal tt, r').
Proof.
  unfold prepare. intros P.
  apply bind_inv_normal in P as ([] & r1 & S1 & P).
  unfold setRequestResolver, modify in S1. inversion S1 as [R1]. clear S1.
  apply bind_inv_normal in P as (r2 & r2' & G & P).
  unfold get in G. inversion G. subst r2 r2'. clear G.
  apply bind_inv_normal in P as ([] & ra & I & P).
  assert (Fa : forall (X : Type) (f : Response -> X),
             (forall x r0, f (set_headers x r0) = f r0) ->
             (forall x r0, f (set_charset x r0) = f r0) -> f ra = f r1).
  { intros X f Hh Hc.
    destruct (String.eqb _ _);
      [|destruct (existsb _ _); [destruct (isBuffer _)|]];
      first [ exact (frame_inferContentType X f Hh Hc _ _ _ _ I)
            | now inversion I ]. }
  assert (Ha : forall h : HeaderBag, _headers r = Some h ->
             exists ha : HeaderBag, _headers ra = Some ha /\
               forall name : string, name <> "content-type" -> ha !! name = h !! name).
  { intros h E. assert (E1 : _headers r1 = Some h) by (now subst r1).
    destruct (String.eqb _ _);
      [|destruct (existsb _ _); [destruct (isBuffer _)|]];
      first [ exact (inferContentType_headers _ r1 ra h E1 I)
            | inversion I; subst ra; now exists h ]. }
  clear I.
  assert (Qa : requestResolver ra = Some req).
  { rewrite (Fa _ requestResolver (fun _ _ => eq_refl) (fun _ _ => eq_refl)).
    now subst r1. }
  rewrite (bind_normal _ _ _ _ _ (request_some ra req Qa)) in P.
  apply bind_inv_normal in P as (r4 & r4' & G & P).
  unfold get in G. inversion G. subst r4 r4'. clear G.
  apply bind_inv_normal in P as ([] & rb & M & P).
  assert (Eb : rb = (if request_fresh req (_headers ra) (_statusCode ra)
                     then set_statusCode (Some 304) ra else ra)).
  { destruct (request_fresh _ _ _); now inversion M. }
  clear M.
  assert (Qb : requestResolver rb = Some req).
  { rewrite Eb. now destruct (request_fresh _ _ _). }
  apply bind_inv_normal in P as ([] & rc & F & P).
  assert (Qc : requestResolver rc = Some req).
  { rewrite <- Qb.
    exact (frame_frameByStatus _ requestResolver
             (fun _ _ => eq_refl) (fun _ _ => eq_refl)
             (fun _ _ => eq_refl) (fun _ _ => eq_refl) _ _ _ F). }
  rewrite (bind_normal _ _ _ _ _ (request_some rc req Qc)) in P.
  apply bind_inv_normal in P as ([] & rd & V & P).
  assert (Ed : rd = (if differsFrom "HTTP/1.0" (Request_server_get "SERVER_PROTOCOL" req)
                     then set_version (Some "1.1") rc else rc)).
  { destruct (differsFrom _ _); now inversion V. }
  clear V.
  assert (Qd : requestResolver rd = Some req).
  { rewrite Ed. now destruct (differsFrom _ _). }
  rewrite (bind_normal _ _ _ _ _ (request_some rd req Qd)) in P.
  exists ra, rb, rc, rd. rewrite R1. repeat split; assumption.
Qed.

(** X20: what [prepare] does to the rest of the object.  When it returns,
    the request resolver holds the request it was given; the protocol
    version is "1.1" unless the request's SERVER_PROTOCOL is exactly
    "HTTP/1.0", in which case the version is left as it was; and the
    application resolver and the cache-control directives are
    untouched. *)
Theorem prepare_version_and_resolvers (req : Request) (r r' : Response) :
  prepare req r = (Normal tt, r') ->
  requestResolver r' = Some req /\
  _version r' =
    (if differsFrom "HTTP/1.0" (Request_server_get "SERVER_PROTOCOL" req)
     then Some "1.1" else _version r) /\
  appResolver r' = appResolver r /\
  headerCacheControl r' = headerCacheControl r.
Proof.
  intros P.
  destruct (prepare_steps req r r' P) as (ra & rb & rc & rd & Fa & _ & Eb & F & Ed & S).
  assert (K : forall (X : Type) (f : Response -> X),
            (forall x r0, f (set_headers x r0) = f r0) ->
            (forall x r0, f (set_charset x r0) = f r0) ->
            (forall x r0, f (set_content x r0) = f r0) ->
            (forall x r0, f (set_originalContent x r0) = f r0) ->
            (forall x r0, f (set_cookieCollection x r0) = f r0) ->
            (forall x r0, f (set_statusCode x r0) = f r0) ->
            f r' = f rd /\ f rc = f (set_requestResolver (Some req) r)).
  { intros X f Hh Hc Ht Ho Hk Hs. split.
    - destruct (request_secure req); [|now inversion S].
      exact (frame_secureCookies X f Hh Hc Hk true _ _ _ S).
    - rewrite (frame_frameByStatus X f Hh Hc Ht Ho _ _ _ F), Eb, <- (Fa X f Hh Hc).
      destruct (request_fresh _ _ _); [apply Hs | reflexivity]. }
  repeat split.
  - destruct (K _ requestResolver) as [-> E]; try (intros; reflexivity).
    rewrite Ed. destruct (differsFrom _ _); exact E.
  - destruct (K _ _version) as [-> E]; try (intros; reflexivity).
    rewrite Ed. destruct (differsFrom _ _); [reflexivity | exact E].
  - destruct (K _ appResolver) as [-> E]; try (intros; reflexivity).
    rewrite Ed. destruct (differsFrom _ _); exact E.
  - destruct (K _ headerCacheControl) as [-> E]; try (intros; reflexivity).
    rewrite Ed. destruct (differsFrom _ _); exact E.
Qed.

(** With the default ETag function [prepareBody] cannot return: the
    function is called detached from the instance. *)
Lemma prepareBody_default_etag (rb rc : Response) (a : App) (h : HeaderBag) :
  appResolver rb = Some a -> a !! "http.etag.function" = None ->
  _headers rb = Some h -> Headers_has "ETag" h = false ->
  _content rb <> JUndefined ->
  prepareBody rb = (Normal tt, rc) -> False.
Proof.
  intros A N E T C P. unfold prepareBody in P.
  rewrite (bind_normal _ _ _ _ _ (getHeader_some "Content-Type" JNull rb h E)) in P.
  rewrite (bind_normal _ _ _ _ _ (app_some rb a A)) in P.
  cbv beta zeta in P. rewrite N in P.
  rewrite (bind_normal _ _ _ _ _ (hasHeader_some "ETag" rb h E)) in P.
  cbv beta in P. rewrite T in P. cbn [negb andb isFunction] in P.
  apply bind_inv_normal in P as ([] & r4 & M & P).
  assert (C4 : _content r4 = _content rb).
  { unfold modify in M. inversion M. now destruct (_charset rb). }
  clear M.
  apply bind_inv_normal in P as ([] & r5 & S & P).
  assert (C5 : _content r5 = _content r4).
  { destruct (coalesce _ _); try (now inversion S).
    destruct (negb _); [|now inversion S].
    apply bind_inv_normal in S as (r0 & r0' & G & S).
    unfold get in G. inversion G. subst r0'. unfold setContentType in S.
    exact (frame_setHeader _ _content (fun _ _ => eq_refl) (fun _ _ => eq_refl) _ _ _ _ _ S). }
  clear S.
  apply bind_inv_normal in P as (r6 & r6' & G & P).
  unfold get in G. inversion G. subst r6 r6'. clear G.
  apply bind_inv_normal in P as (len & r7 & L & P).
  assert (D : exists l, len = Some l).
  { rewrite C4 in C5. rewrite <- C5 in C.
    destruct (_content r5); [contradiction|..];
      apply bind_inv_normal in L as (l & ? & _ & L);
      apply bind_inv_normal in L as (? & ? & _ & L);
      inversion L; eauto. }
  destruct D as (l & ->).
  apply bind_inv_normal in P as ([] & r8 & G & _).
  unfold bind, get, callEtagFn, throw in G. discriminate G.
Qed.

(** X21: with no [http.etag.function] configured, [prepare] on a response
    that has content and no ETag header can only return at a status
    without a body (1xx, 204, 304, 205, or a 304 forced by a fresh
    request): at a body-carrying status it generates an ETag with the
    default function, which is called detached from the instance and
    throws. *)
Theorem prepare_default_etag_returns_only_bodiless (req : Request) (r r' : Response)
    (a : App) (h : HeaderBag) :
  appResolver r = Some a -> a !! "http.etag.function" = None ->
  _headers r = Some h -> Headers_has "ETag" h = false ->
  _content r <> JUndefined ->
  prepare req r = (Normal tt, r') ->
  isInformational r' || isEmpty r' || isResetContent r' = true.
Proof.
  intros A N E T C P.
  destruct (prepare_steps req r r' P) as (ra & rb & rc & rd & Fa & Ha & Eb & F & Ed & S).
  destruct (Ha h E) as (ha & Ea & La).
  assert (Ab : appResolver rb = Some a).
  { rewrite Eb. destruct (request_fresh _ _ _); cbn;
      now rewrite (Fa _ appResolver (fun _ _ => eq_refl) (fun _ _ => eq_refl)). }
  assert (Cb : _content rb = _content r).
  { rewrite Eb. destruct (request_fresh _ _ _); cbn;
      now rewrite (Fa _ _content (fun _ _ => eq_refl) (fun _ _ => eq_refl)). }
  assert (Hb : _headers rb = Some ha).
  { rewrite Eb. now destruct (request_fresh _ _ _). }
  assert (Tb : Headers_has "ETag" ha = false).
  { unfold Headers_has in *. change (toLowerCase "ETag") with "etag" in *.
    rewrite La by discriminate. exact T. }
  assert (St : _statusCode r' = _statusCode rb).
  { transitivity (_statusCode rd).
    - destruct (request_secure req); [|now inversion S].
      exact (frame_secureCookies _ _statusCode (fun _ _ => eq_refl) (fun _ _ => eq_refl)
               (fun _ _ => eq_refl) true _ _ _ S).
    - rewrite Ed, <- (keepsStatus_frameByStatus _ _ _ F).
      now destruct (differsFrom _ _). }
  assert (K : isInformational r' || isEmpty r' || isResetContent r' =
              isInformational rb || isEmpty rb || isResetContent rb).
  { unfold isInformational, isEmpty, isResetContent, statusIn, statusIncluded.
    now rewrite St. }
  rewrite K.
  unfold frameByStatus, bind at 1, get in F.
  destruct (isInformational rb || isEmpty rb); [reflexivity|].
  destruct (isResetContent rb); [reflexivity|].
  rewrite <- Cb in C.
  destruct (prepareBody_default_etag rb rc a ha Ab N Hb Tb C F).
Qed.

End OtherProperties.

(** * Evaluations on the reference host *)

Import Host Examples.

(** C3 at 404 and at the unregistered 299. *)
Lemma setStatus_raises_iff_out_of_range_witness :
  (fst (setStatus 404 None blank) = Normal tt /\
   _statusCode (snd (setStatus 404 None blank)) = Some 404 /\
   _statusMessage (snd (setStatus 404 None blank)) = Some "Not Found") /\
  _statusMessage (snd (setStatus 299 None blank)) = Some "unknown status".
Proof.
  pose proof (proj1 (setStatus_raises_iff_out_of_range 404 blank)) as H404.
  pose proof (proj1 (setStatus_raises_iff_out_of_range 299 blank)) as H299.
  split.
  - exact (H404 ltac:(lia)).
  - exact (proj2 (proj2 (H299 ltac:(lia)))).
Defined.

(** C10 at code 42, on an object that held 200 OK. *)
Lemma setStatus_throw_keeps_invalid_code_witness :
  let r := set_statusMessage (Some "OK") (set_statusCode (Some 200) blank) in
  fst (setStatus 42 None r) = Throw InvalidArgumentException /\
  _statusCode (snd (setStatus 42 None r)) = Some 42 /\
  _statusMessage (snd (setStatus 42 None r)) = Some "OK".
Proof.
  intros r.
  assert (H : 42 < 100 \/ 599 < 42) by (left; lia).
  pose proof (setStatus_throw_keeps_invalid_code 42 None r H) as (E & C & M & _).
  exact (conj (f_equal fst E) (conj C M)).
Defined.

(** C7 at work.  On the object as the constructor leaves it when it
    throws, and inside the constructor itself, setting Content-Type to
    "text/plain" is a TypeError.  On an object that has a header container,
    "text/plain" reads back with the charset of the table; a media type
    followed by a space and a parameter is looked up without them; a type
    the table has no charset for is stored alone; and a text with a
    charset fragment is stored as it is, also when a no-break space
    stands between the semicolon and [charset]. *)
Lemma setHeader_content_type_charset_witness :
  let r0 := snd (constructor (JStr "") 200 []) in
  fst (setHeader "Content-Type" (JStr "text/plain") r0) = Throw TypeError /\
  fst (constructor (JStr "") 200
         [("X-Powered-By", JStr "stone"); ("Content-Type", JStr "text/plain")]) =
    Throw TypeError /\
  (exists r',
     setHeader "Content-Type" (JStr "text/plain") ready = (Normal tt, r') /\
     getHeader "Content-Type" JNull r' =
       (Normal (JStr "text/plain; charset=utf-8"), r') /\
     _charset r' = Some "UTF-8") /\
  (exists r',
     setHeader "Content-Type" (JStr "text/html ; boundary=x") ready = (Normal tt, r') /\
     getHeader "Content-Type" JNull r' =
       (Normal (JStr "text/html ; boundary=x; charset=utf-8"), r') /\
     _charset r' = Some "UTF-8") /\
  (exists r',
     setHeader "Content-Type" (JStr "image/png") ready = (Normal tt, r') /\
     getHeader "Content-Type" JNull r' = (Normal (JStr "image/png"), r') /\
     _charset r' = None) /\
  (exists r',
     setHeader "Content-Type" (JStr "text/plain; charset=latin1") ready = (Normal tt, r') /\
     getHeader "Content-Type" JNull r' =
       (Normal (JStr "text/plain; charset=latin1"), r') /\
     _charset r' = None) /\
  (exists r',
     setHeader "Content-Type" (JStr ("text/plain;" +:+ nbsp +:+ "charset=utf-8")) ready =
       (Normal tt, r') /\
     getHeader "Content-Type" JNull r' =
       (Normal (JStr ("text/plain;" +:+ nbsp +:+ "charset=utf-8")), r') /\
     _charset r' = None).
Proof.
  intros r0.
  pose proof (setHeader_content_type_charset "Content-Type" r0 eq_refl) as (A & B & _ & _).
  pose proof (setHeader_content_type_charset "Content-Type" ready eq_refl) as (_ & _ & C & _).
  destruct (C ∅ JNull eq_refl) as (C1 & C2 & C3).
  split; [exact (proj1 (A eq_refl "text/plain"))|].
  split; [apply B; lia|].
  split; [|split; [|split; [|split]]].
  - apply (C1 "text/plain" "text/plain" "" "" "UTF-8");
      [reflexivity | reflexivity | reflexivity | now left | | reflexivity
      | discriminate | reflexivity].
    intros F. apply charsetRegExp_test_spec in F. vm_compute in F. discriminate F.
  - apply (C1 "text/html ; boundary=x" "text/html" " " "; boundary=x" "UTF-8");
      [reflexivity | reflexivity | reflexivity | now right | | reflexivity
      | discriminate | reflexivity].
    intros F. apply charsetRegExp_test_spec in F. vm_compute in F. discriminate F.
  - apply (C2 "image/png" "image/png" "" "");
      [reflexivity | reflexivity | reflexivity | now left | | reflexivity | reflexivity].
    intros F. apply charsetRegExp_test_spec in F. vm_compute in F. discriminate F.
  - apply (C3 "text/plain; charset=latin1"); [|reflexivity].
    exists "text/plain", " ", "", "latin1". repeat split.
  - apply (C3 ("text/plain;" +:+ nbsp +:+ "charset=utf-8")); [|reflexivity].
    exists "text/plain", nbsp, "", "utf-8". repeat split.
Defined.

(** C6, as the code has it: [setContent(null)] stores the four characters
    of the JSON text of [null] when an application resolver is set, and
    throws InvalidArgumentException when none is; [undefined] is the value
    that is stored as the empty string. *)
Theorem setContent_null_stores_json_text (r : Response) :
  setContent JNull (set_appResolver (Some ∅) r) =
    (Normal tt,
     set_originalContent JNull (set_content (JStr "null") (set_appResolver (Some ∅) r))) /\
  setContent JNull (set_appResolver None r) =
    (Throw InvalidArgumentException, set_appResolver None r) /\
  setContent JUndefined r =
    (Normal tt, set_originalContent JUndefined (set_content (JStr "") r)).
Proof.
  repeat split; rewrite setContent_null; reflexivity.
Qed.

(** C2 on the failing inputs: a response with a body and the three
    framing headers, prepared for a plain GET at status 204 and at status
    205.  The headers come out as claimed; the content is the text "null",
    not the empty string. *)
Lemma prepare_no_body_status_witness :
  let r204 := snd (prepare plainGet (framed 204)) in
  let r205 := snd (prepare plainGet (framed 205)) in
  (prepare plainGet (framed 204) = (Normal tt, r204) /\
   _content r204 = JStr "null" /\
   exists h', _headers r204 = Some h' /\
     Headers_has "Content-Type" h' = false /\
     Headers_has "Content-Length" h' = false /\
     Headers_has "Transfer-Encoding" h' = false) /\
  (prepare plainGet (framed 205) = (Normal tt, r205) /\
   _content r205 = JStr "null" /\
   exists h', _headers r205 = Some h' /\
     Headers_get "Content-Length" h' = JStr "0" /\
     Headers_has "Transfer-Encoding" h' = false).
Proof.
  intros r204 r205.
  assert (P204 : prepare plainGet (framed 204) = (Normal tt, r204))
    by (vm_compute; reflexivity).
  assert (P205 : prepare plainGet (framed 205) = (Normal tt, r205))
    by (vm_compute; reflexivity).
  assert (S204 : isInformational r204 || isEmpty r204 = true)
    by (vm_compute; reflexivity).
  assert (S205 : isResetContent r205 = true)
    by (vm_compute; reflexivity).
  pose proof (proj1 (prepare_no_body_status plainGet (framed 204) r204 P204) S204) as [_ H204].
  pose proof (proj2 (prepare_no_body_status plainGet (framed 205) r205 P205) S205) as [_ H205].
  split.
  - split; [exact P204|]. split; [vm_compute; reflexivity | exact H204].
  - split; [exact P205|]. split; [vm_compute; reflexivity | exact H205].
Defined.

(** The same at 304, 100 and 199: whole header bag and content. *)
Lemma prepare_framed_examples (status : Z) :
  In status [204; 304; 100; 199] ->
  fst (prepare plainGet (framed status)) = Normal tt /\
  _content (snd (prepare plainGet (framed status))) = JStr "null" /\
  _headers (snd (prepare plainGet (framed status))) = Some ∅.
Proof.
  intros H. cbn [In] in H.
  destruct H as [<-|[<-|[<-|[<-|[]]]]]; vm_compute; repeat split.
Qed.

(** The objects of the cache examples are what the methods themselves
    produce from [ready]. *)
Lemma aged_by_calls :
  snd ((setMaxAge (JNum 60) ;; setHeader "Age" (JNum 10)) ready) = aged.
Proof. vm_compute. reflexivity. Qed.

Lemma tagged_by_calls :
  snd ((setStatus 200 None ;;
        setEtag (JStr "abc") false ;;
        addHeaderCacheControlDirective "public" (JBool true)) ready) =
  set_statusMessage (Some "OK") tagged.
Proof. vm_compute. reflexivity. Qed.

(** C4, as the code has it: with [max-age=60] and [Age: 10], [getMaxAge]
    is 60 but [getAge], and with it [getTtl], throws a TypeError; and
    without an Age header [getAge] is [NaN], so [getTtl] is [NaN] too. *)
Theorem getTtl_max_age_60_age_10_throws :
  getMaxAge aged = (Normal (JNum 60), aged) /\
  getAge aged = (Throw TypeError, aged) /\
  getTtl aged = (Throw TypeError, aged) /\
  (let fresh := set_headers (Some (Headers_set "Date" (HStr "Tue, 14 Nov 2023 22:13:20 GMT") ∅)) aged in
   getAge fresh = (Normal JNaN, fresh) /\ getTtl fresh = (Normal JNaN, fresh)).
Proof.
  assert (M : getMaxAge aged = (Normal (JNum 60), aged)).
  { now rewrite (getMaxAge_max_age aged [("max-age", JNum 60)]). }
  assert (A : getAge aged = (Throw TypeError, aged)).
  { now eapply getAge_with_Age. }
  split; [exact M|]. split; [exact A|]. split.
  - unfold getTtl. rewrite (bind_normal _ _ _ _ _ M).
    now rewrite (bind_throw _ _ _ _ _ A).
  - intros fresh.
    assert (M' : getMaxAge fresh = (Normal (JNum 60), fresh)).
    { now rewrite (getMaxAge_max_age fresh [("max-age", JNum 60)]). }
    assert (A' : getAge fresh = (Normal JNaN, fresh)).
    { now eapply getAge_without_Age. }
    split; [exact A'|].
    unfold getTtl. rewrite (bind_normal _ _ _ _ _ M').
    now rewrite (bind_normal _ _ _ _ _ A').
Qed.

(** C5 on the failing input: status 200, an ETag, the directive [public],
    neither [no-store] nor [private]; [isValidateable] holds and
    [isCacheable] is false. *)
Theorem isCacheable_tagged_200 :
  isValidateable tagged = (Normal true, tagged) /\
  hasHeaderCacheControlDirective "no-store" tagged = (Normal false, tagged) /\
  hasHeaderCacheControlDirective "private" tagged = (Normal false, tagged) /\
  isCacheable tagged = (Normal false, tagged).
Proof.
  do 3 (split; [reflexivity|]).
  now apply isCacheable_listed_status.
Qed.

(** C8, as the code has it: after [addHeaderCacheControlDirective('immutable')]
    the Cache-Control header is ", " and after [setMaxAge(60)] it is
    ", max-age=60"; [setPublic], [setPrivate], [setSharedMaxAge] and
    [setImmutable(false)] throw a TypeError. *)
Theorem cacheControl_header_after_mutation :
  addHeaderCacheControlDirective "immutable" (JBool true) ready =
    (Normal tt,
     set_headers (Some (<["cache-control" := HStr ", "]> ∅))
       (set_headerCacheControl (Some [("immutable", JBool true)]) ready)) /\
  setMaxAge (JNum 60) ready =
    (Normal tt,
     set_headers (Some (<["cache-control" := HStr ", max-age=60"]> ∅))
       (set_headerCacheControl (Some [("max-age", JNum 60)]) ready)) /\
  (forall r, setPublic r = (Throw TypeError, r)) /\
  (forall r, setPrivate r = (Throw TypeError, r)) /\
  (forall v r, setSharedMaxAge v r = (Throw TypeError, r)) /\
  (forall r, setImmutable false r = (Throw TypeError, r)).
Proof.
  split.
  { now rewrite (addHeaderCacheControlDirective_header "immutable" (JBool true) ready ∅). }
  split.
  { unfold setMaxAge.
    now rewrite (addHeaderCacheControlDirective_header "max-age" (JNum 60) ready ∅). }
  split; [exact setPublic_throws|].
  split; [exact setPrivate_throws|].
  split; [exact setSharedMaxAge_throws | exact setImmutable_false_throws].
Qed.

(** ** The further properties at work *)

(** X1 on the framed example: two names removed, one of them absent and
    the other spelt in lower case; Content-Type stays. *)
Lemma removeHeader_removes_exactly_witness :
  exists h' : HeaderBag,
    removeHeader ["content-length"; "X-None"] (framed 200) =
      (Normal tt, set_headers (Some h') (framed 200)) /\
    h' !! "content-length" = None /\
    h' !! "content-type" = Some (HStr "text/plain; charset=utf-8").
Proof.
  destruct (proj1 (removeHeader_removes_exactly ["content-length"; "X-None"] (framed 200))
              _ eq_refl) as (h' & A & B).
  exists h'. split; [exact A|].
  split; [exact (B "content-length") | exact (B "content-type")].
Defined.

(** X2: [setHeader('Content-Length', 7)] reads back as the text "7" under
    the lower-case name. *)
Lemma setHeader_getHeader_roundtrip_witness :
  exists r',
    setHeader "Content-Length" (JNum 7) ready = (Normal tt, r') /\
    getHeader "content-length" JNull r' = (Normal (JStr "7"), r') /\
    forall other : string,
      toLowerCase other <> toLowerCase "Content-Length" ->
      fst (getHeader other JNull r') = fst (getHeader other JNull ready).
Proof.
  apply (setHeader_getHeader_roundtrip "Content-Length" "content-length" (JNum 7) JNull
           ready ∅);
    [reflexivity | discriminate | reflexivity | reflexivity | reflexivity | reflexivity].
Defined.

(** X3 at status 204. *)
Lemma status_classes_partition_witness :
  exactlyOne [isInvalid (framed 204); isInformational (framed 204);
              isSuccessful (framed 204); isRedirection (framed 204);
              isClientError (framed 204); isServerError (framed 204)] /\
  (isEmpty (framed 204) || isResetContent (framed 204) = true ->
   isSuccessful (framed 204) || isRedirection (framed 204) = true).
Proof. exact (status_classes_partition 204 (framed 204) eq_refl). Defined.



(** X12: at status 302 without a Location header, [isRedirect()] is true
    and [isRedirect('/x')] is false. *)
Lemma isRedirect_cases_witness :
  let r := set_statusCode (Some 302) ready in
  isRedirect JNull r = (Normal true, r) /\
  isRedirect (JStr "/x") r = (Normal false, r).
Proof.
  intros r.
  destruct (isRedirect_cases (JStr "/x") r ∅ eq_refl) as [A B].
  split; [exact A | apply B; discriminate].
Defined.

(** X13: of two links the second one survives, after a comma. *)
Lemma setLinks_keeps_last_only_witness :
  exists r',
    setLinks [("next", JStr "/2"); ("last", JStr "/9")] ready = (Normal tt, r') /\
    getHeader "Link" JNull r' =
      (Normal (JStr (", </9>; rel=" +:+ dquote +:+ "last" +:+ dquote)), r').
Proof.
  exact (proj1 (setLinks_keeps_last_only [("next", JStr "/2")] "last" (JStr "/9") JNull
                  ready ∅ eq_refl eq_refl eq_refl)).
Defined.

(** X14: a weak tag. *)
Lemma setEtag_then_validateable_witness :
  let r' := set_headers
              (Some (<["etag" := HStr ("W/" +:+ dquote +:+ "abc" +:+ dquote)]> ∅)) ready in
  setEtag (JStr "abc") true ready = (Normal tt, r') /\
  isValidateable r' = (Normal true, r').
Proof.
  intros r'.
  destruct (setEtag_then_validateable "abc" true ready ∅ eq_refl ltac:(discriminate))
    as (A & _ & B & _).
  split; [exact A | exact B].
Defined.

(** X15: of two entries only the second is set. *)
Lemma setHeaders_skips_first_entry_witness :
  let r' := snd (setHeaders [("X-A", JStr "1"); ("X-B", JStr "2")] ready) in
  setHeaders [("X-A", JStr "1")] ready = (Normal (Other (JArr [JStr "X-A"; JStr "1"])), ready) /\
  setHeaders [("X-A", JStr "1"); ("X-B", JStr "2")] ready = (Normal This, r') /\
  fst (getHeader "X-A" JNull r') = Normal JNull /\
  fst (getHeader "X-B" JNull r') = Normal (JStr "2").
Proof.
  intros r'.
  destruct (setHeaders_skips_first_entry "X-A" (JStr "1") [("X-B", JStr "2")] ready ∅ eq_refl)
    as [A B].
  assert (P : setHeaders [("X-A", JStr "1"); ("X-B", JStr "2")] ready = (Normal This, r'))
    by (vm_compute; reflexivity).
  assert (N : ~ In (toLowerCase "X-A")
                (map (fun e : string * JsValue => toLowerCase (fst e)) [("X-B", JStr "2")])).
  { cbn. intros [K|[]]. discriminate K. }
  split; [exact A|]. split; [exact P|].
  split; [exact (B This r' P N JNull) | vm_compute; reflexivity].
Defined.

(** X17: an options object with every key, asking for an ETag and a
    max-age only, is accepted. *)
Lemma setCache_returns_only_if_witness :
  let options :=
    [ ("must_revalidate", JBool false); ("no_cache", JBool false);
      ("no_store", JBool false); ("no_transform", JBool false);
      ("public", JBool false); ("private", JBool false);
      ("proxy_revalidate", JBool false); ("max_age", JNum 60);
      ("s_maxage", JUndefined); ("stale_if_error", JUndefined);
      ("stale_while_revalidate", JUndefined); ("immutable", JBool false);
      ("last_modified", JNull); ("etag", JStr "abc") ] in
  let r' := snd (setCache options ready) in
  setCache options ready = (Normal tt, r') /\
  fst (getHeader "ETag" JNull r') = Normal (JStr (dquote +:+ "abc" +:+ dquote)) /\
  truthy (property "s_maxage" options) = false.
Proof.
  intros options r'.
  assert (P : setCache options ready = (Normal tt, r')) by (vm_compute; reflexivity).
  split; [exact P|]. split; [vm_compute; reflexivity|].
  exact (proj2 (proj2 (setCache_returns_only_if options ready r' P))).
Defined.

(** X18: sixty seconds. *)
Lemma setMaxAge_getMaxAge_roundtrip_witness :
  exists r',
    setMaxAge (JNum 60) ready = (Normal tt, r') /\
    getMaxAge r' = (Normal (JNum 60), r').
Proof.
  apply (setMaxAge_getMaxAge_roundtrip 60 ready ∅ eq_refl).
  - intros m D. discriminate D.
  - split; reflexivity.
Defined.

(** X19: the framed example at status 200, with an ETag so that none is
    generated: it goes in with Content-Length and Transfer-Encoding and
    comes out with Transfer-Encoding only. *)
Lemma prepare_length_or_transfer_encoding_witness :
  let r := snd (setEtag (JStr "v1") false (framed 200)) in
  let r' := snd (prepare plainGet r) in
  prepare plainGet r = (Normal tt, r') /\
  fst (hasHeader "Transfer-Encoding" r') = Normal true /\
  exists h' : HeaderBag, _headers r' = Some h' /\
    (Headers_has "Transfer-Encoding" h' = true -> Headers_has "Content-Length" h' = false).
Proof.
  intros r r'.
  assert (P : prepare plainGet r = (Normal tt, r')) by (vm_compute; reflexivity).
  split; [exact P|]. split; [vm_compute; reflexivity|].
  exact (prepare_length_or_transfer_encoding plainGet r r' P).
Defined.

(** X20: a plain GET over HTTP/1.1 on the framed example at status 204. *)
Lemma prepare_version_and_resolvers_witness :
  let r' := snd (prepare plainGet (framed 204)) in
  prepare plainGet (framed 204) = (Normal tt, r') /\
  requestResolver r' = Some plainGet /\
  _version r' = Some "1.1" /\
  appResolver r' = Some ∅ /\
  headerCacheControl r' = None.
Proof.
  intros r'.
  assert (P : prepare plainGet (framed 204) = (Normal tt, r')) by (vm_compute; reflexivity).
  split; [exact P|].
  exact (prepare_version_and_resolvers plainGet (framed 204) r' P).
Defined.

(** X21: the framed example has content, no ETag header and an application
    without [http.etag.function]; at status 204 [prepare] returns. *)
Lemma prepare_default_etag_returns_only_bodiless_witness :
  let r' := snd (prepare plainGet (framed 204)) in
  prepare plainGet (framed 204) = (Normal tt, r') /\
  isInformational r' || isEmpty r' || isResetContent r' = true.
Proof.
  intros r'.
  assert (P : prepare plainGet (framed 204) = (Normal tt, r')) by (vm_compute; reflexivity).
  split; [exact P|].
  refine (prepare_default_etag_returns_only_bodiless plainGet (framed 204) r' ∅ _
            eq_refl _ eq_refl _ _ P).
  - apply lookup_empty.
  - vm_compute. reflexivity.
  - discriminate.
Defined.
